(** * Viralización de errores en chatbots: a shallow embedding of [modelo.py]

    The simulation engine of [src/modelo.py] (classes [Usuario], [Chatbot]
    and [ModeloViralizacion]) is transcribed as Rocq functions in a small
    state-and-exception monad, and the properties of the engine are proved
    about these functions.

    Modelling conventions.
    - Python [int] is [Z].  A Python [float] is a rational [Q].  Where a
      float computation decides a discrete outcome that a draw can tip (the
      archetype test [tipo_rand < 0.95], the parameters [random.uniform]
      returns, the count [int(influencia * probabilidad_compartir * r)]),
      it is computed as the source computes it: every operation is rounded
      to the nearest double, ties to even ([redondear]), and a literal is
      the double it denotes ([doble]).  The continuous quantities the
      engine only records (response time, load, perception, the scenario
      multipliers applied to an influence) are kept exact, and the other
      literals a draw is compared with, which no 53-bit draw separates
      from their double (0.1, 0.01, ...), are written as the decimal.  [redondear] has 53 significant bits and
      an unbounded exponent: it is the arithmetic of doubles as long as no
      result overflows (a magnitude of [2^1024] or more) or is subnormal;
      Python's [OverflowError] is outside the model.
    - The strings ['inactivo'], ['consciente'], ['activo'] and
      ['normal'], ['critico'], ['influencer'] are the only values the source
      ever stores in [estado] and [tipo]; they are the constructors of
      [Estado] and [Tipo].
    - An object of [self.usuarios] is named by its position in that list
      (the list is built once and never reordered), so that the aliasing of
      the source (lists of references to the same objects) is kept: every
      read and write goes through the one store [usuarios].
    - The module-level generator of [random] is a tape of raw words read
      through a cursor; one cell of the tape answers one request to the
      generator, [random()] or [_randbelow(n)].  [random.random()] takes
      53 bits of a word and divides by 2^53, [_randbelow(n)] is the word
      modulo [n]; [random.uniform], [random.choice] and [random.sample] are
      the library's own definitions on top of the primitive draws.
      [random.sample] is its pool algorithm, the one the library runs on a
      population of at most 21 elements; on a larger population the
      library may switch to a rejection loop over a set, which selects
      distinct elements as well but reads the generator differently, so
      a selection is tied to the draws behind it for pools of at most 21
      only.
    - A raised exception ends the computation ([Lanza]); the source never
      catches one.  [print] and the plotting method have no effect on the
      state and are left out. *)

From Stdlib Require Import ZArith QArith Qround Qpower Lqa Lia String Sorted.
From stdpp Require Import base decidable list.

Local Open Scope Z_scope.

(** ** Data model *)

Inductive Estado := inactivo | consciente | activo.
Inductive Tipo := normal | critico | influencer.

#[global] Instance Estado_eq_dec : EqDecision Estado.
Proof. solve_decision. Defined.

#[global] Instance Tipo_eq_dec : EqDecision Tipo.
Proof. solve_decision. Defined.

(** [@dataclass class Usuario], with the three counters of [__post_init__]. *)
Record Usuario := mkUsuario {
  id : Z;
  tipo : Tipo;
  probabilidad_interaccion : Q;
  probabilidad_compartir : Q;
  influencia : Q;
  estado : Estado;
  tiempo_ultima_interaccion : Z;
  interacciones_totales : Z;
  errores_reportados : Z
}.

(** [Usuario(id=..., tipo=..., ...)]: [estado] defaults to ['inactivo'] and
    [__post_init__] zeroes the counters. *)
Definition nuevo_usuario (i : Z) (t : Tipo) (pi pc inf : Q) : Usuario :=
  mkUsuario i t pi pc inf inactivo 0 0 0.

Definition con_estado (e : Estado) (u : Usuario) : Usuario :=
  mkUsuario (id u) (tipo u) (probabilidad_interaccion u)
    (probabilidad_compartir u) (influencia u) e
    (tiempo_ultima_interaccion u) (interacciones_totales u)
    (errores_reportados u).

Definition con_influencia (x : Q) (u : Usuario) : Usuario :=
  mkUsuario (id u) (tipo u) (probabilidad_interaccion u)
    (probabilidad_compartir u) x (estado u)
    (tiempo_ultima_interaccion u) (interacciones_totales u)
    (errores_reportados u).

(** [usuario.interacciones_totales += 1; usuario.tiempo_ultima_interaccion = t] *)
Definition registrar_interaccion (t : Z) (u : Usuario) : Usuario :=
  mkUsuario (id u) (tipo u) (probabilidad_interaccion u)
    (probabilidad_compartir u) (influencia u) (estado u)
    t (interacciones_totales u + 1) (errores_reportados u).

(** [usuario.errores_reportados += 1] *)
Definition registrar_error (u : Usuario) : Usuario :=
  mkUsuario (id u) (tipo u) (probabilidad_interaccion u)
    (probabilidad_compartir u) (influencia u) (estado u)
    (tiempo_ultima_interaccion u) (interacciones_totales u)
    (errores_reportados u + 1).

(** The body of the loop of [_resetear_simulacion]. *)
Definition resetear_usuario (u : Usuario) : Usuario :=
  mkUsuario (id u) (tipo u) (probabilidad_interaccion u)
    (probabilidad_compartir u) (influencia u) inactivo 0 0 0.

(** [@dataclass class Chatbot] *)
Record Chatbot := mkChatbot {
  capacidad_maxima : Z;
  tiempo_respuesta_base : Q;
  probabilidad_error : Q;
  capacidad_actual : Z;
  errores_totales : Z;
  tiempo_respuesta_actual : Q
}.

Definition nuevo_chatbot (cap : Z) (base perr : Q) : Chatbot :=
  mkChatbot cap base perr 0 0 0%Q.

Definition con_probabilidad_error (p : Q) (c : Chatbot) : Chatbot :=
  mkChatbot (capacidad_maxima c) (tiempo_respuesta_base c) p
    (capacidad_actual c) (errores_totales c) (tiempo_respuesta_actual c).

Definition con_capacidad_actual (x : Z) (c : Chatbot) : Chatbot :=
  mkChatbot (capacidad_maxima c) (tiempo_respuesta_base c)
    (probabilidad_error c) x (errores_totales c) (tiempo_respuesta_actual c).

Definition con_tiempo_respuesta_actual (x : Q) (c : Chatbot) : Chatbot :=
  mkChatbot (capacidad_maxima c) (tiempo_respuesta_base c)
    (probabilidad_error c) (capacidad_actual c) (errores_totales c) x.

Definition con_errores_totales (x : Z) (c : Chatbot) : Chatbot :=
  mkChatbot (capacidad_maxima c) (tiempo_respuesta_base c)
    (probabilidad_error c) (capacidad_actual c) x (tiempo_respuesta_actual c).

(** The dictionary [self.metricas]: six keys, each a list. *)
Record Metricas := mkMetricas {
  usuarios_activos : list Z;
  usuarios_conscientes : list Z;
  carga_sistema : list Q;
  errores_generados : list Z;
  tiempo_respuesta : list Q;
  percepcion_publica : list Q
}.

Definition metricas_vacias : Metricas := mkMetricas [] [] [] [] [] [].

(** One dictionary appended to [self.eventos_viralizacion]. *)
Record Evento := mkEvento {
  tiempo : Z;
  usuario_origen : Z;
  usuario_afectado : Z;
  tipo_origen : Tipo
}.

(** The attributes of a [ModeloViralizacion] instance. *)
Record Modelo := mkModelo {
  num_usuarios : Z;
  tiempo_simulacion : Z;
  tiempo_actual : Z;
  chatbot : Chatbot;
  usuarios : list Usuario;
  metricas : Metricas;
  eventos_viralizacion : list Evento
}.

Definition con_tiempo_actual (t : Z) (m : Modelo) : Modelo :=
  mkModelo (num_usuarios m) (tiempo_simulacion m) t (chatbot m)
    (usuarios m) (metricas m) (eventos_viralizacion m).

Definition con_chatbot (c : Chatbot) (m : Modelo) : Modelo :=
  mkModelo (num_usuarios m) (tiempo_simulacion m) (tiempo_actual m) c
    (usuarios m) (metricas m) (eventos_viralizacion m).

Definition con_usuarios (us : list Usuario) (m : Modelo) : Modelo :=
  mkModelo (num_usuarios m) (tiempo_simulacion m) (tiempo_actual m)
    (chatbot m) us (metricas m) (eventos_viralizacion m).

Definition con_metricas (ms : Metricas) (m : Modelo) : Modelo :=
  mkModelo (num_usuarios m) (tiempo_simulacion m) (tiempo_actual m)
    (chatbot m) (usuarios m) ms (eventos_viralizacion m).

Definition con_eventos (es : list Evento) (m : Modelo) : Modelo :=
  mkModelo (num_usuarios m) (tiempo_simulacion m) (tiempo_actual m)
    (chatbot m) (usuarios m) (metricas m) es.

(** ** Numbers *)

(** [x < y] on floats. *)
Definition Qltb (x y : Q) : bool := negb (Qle_bool y x).

(** [max(a, b)] and [min(a, b)] of Python: the first argument wins ties. *)
Definition py_max (a b : Q) : Q := if Qltb a b then b else a.
Definition py_min (a b : Q) : Q := if Qltb b a then b else a.

(** [int(x)] on a float: truncation toward zero. *)
Definition int (x : Q) : Z := Z.quot (Qnum x) (Zpos (Qden x)).

(** Rounding to the nearest double.  [exponente q] is [floor(log2 q)] for
    a positive [q]; [rne x] is the integer nearest to [x], the even one on
    a tie; a positive [q] of exponent [e] is rounded on the grid of step
    [2^(e - 52)], which gives a significand of 53 bits. *)
Definition exponente (q : Q) : Z :=
  let e := Z.log2 (Qnum q) - Z.log2 (Zpos (Qden q)) in
  if Qle_bool (2 ^ e) q then e else e - 1.

Definition rne (x : Q) : Z :=
  let f := Qfloor x in
  match (x - inject_Z f ?= 1 # 2)%Q with
  | Lt => f
  | Gt => f + 1
  | Eq => if Z.even f then f else f + 1
  end.

Definition redondear_pos (q : Q) : Q :=
  let s := 52 - exponente q in
  (inject_Z (rne (q * 2 ^ s)) * 2 ^ (- s))%Q.

Definition redondear (q : Q) : Q :=
  let q := Qred q in
  match Qnum q with
  | Z0 => 0%Q
  | Zpos _ => redondear_pos q
  | Zneg _ => (- redondear_pos (- q))%Q
  end.

(** The double a decimal literal of the source denotes. *)
Definition doble (q : Q) : Q := redondear q.

(** The value of [random.uniform(a, b)] on the draw [x]:
    [a + (b - a) * x], each operation rounded. *)
Definition uniforme (a b x : Q) : Q :=
  redondear (a + redondear (redondear (b - a) * x)).

#[global] Arguments redondear : simpl never.
#[global] Arguments doble : simpl never.
#[global] Arguments uniforme : simpl never.

(** [range(n)] *)
Definition range (n : Z) : list Z := map Z.of_nat (seq 0 (Z.to_nat n)).

(** [max(xs)] of a list: [ValueError] on the empty list is [None]. *)
Definition max_lista_Z (xs : list Z) : option Z :=
  match xs with
  | [] => None
  | x :: xs' => Some (fold_left (fun a b => if a <? b then b else a) xs' x)
  end.

Definition max_lista_Q (xs : list Q) : option Q :=
  match xs with
  | [] => None
  | x :: xs' => Some (fold_left (fun a b => if Qltb a b then b else a) xs' x)
  end.

(** [sum(u.interacciones_totales for u in usuarios)] *)
Definition suma_interacciones (us : list Usuario) : Z :=
  fold_left (fun a u => a + interacciones_totales u) us 0.

(** Positions of the objects of [us] whose [estado] is [e], in list order:
    the list comprehension [[u for u in self.usuarios if u.estado == e]]
    as a list of references. *)
Fixpoint posiciones_desde (e : Estado) (base : nat) (us : list Usuario)
  : list nat :=
  match us with
  | [] => []
  | u :: us' =>
      if decide (estado u = e)
      then base :: posiciones_desde e (S base) us'
      else posiciones_desde e (S base) us'
  end.

Definition posiciones_con_estado (e : Estado) (us : list Usuario) : list nat :=
  posiciones_desde e 0%nat us.

(** [sum(1 for u in self.usuarios if u.estado == e)] *)
Definition contar (e : Estado) (us : list Usuario) : Z :=
  Z.of_nat (length (posiciones_con_estado e us)).

(** ** Exceptions, results and the monad *)

(** [ReferenciaInvalida] is not a Python exception: it is the result of
    reading a position that names no object of [self.usuarios].  The
    source only holds references to objects of the list, and the model
    never produces it on positions taken from the list. *)
Inductive Excepcion :=
  ZeroDivisionError | ValueError | IndexError | ReferenciaInvalida.

Inductive Resultado (A : Type) := Ok (a : A) | Lanza (e : Excepcion).
Arguments Ok {A} a.
Arguments Lanza {A} e.

(** A computation on a state [S] that reads the generator's tape through a
    cursor: it returns a value, the new state and the new cursor, or
    raises. *)
Definition M (S A : Type) : Type := S -> nat -> Resultado (A * S * nat).

Definition ret {S A} (a : A) : M S A := fun s k => Ok (a, s, k).

Definition bind {S A B} (c : M S A) (f : A -> M S B) : M S B :=
  fun s k =>
    match c s k with
    | Ok (a, s', k') => f a s' k'
    | Lanza e => Lanza e
    end.

Definition lanzar {S A} (e : Excepcion) : M S A := fun _ _ => Lanza e.
Definition leer {S} : M S S := fun s k => Ok (s, s, k).
Definition modificar {S} (f : S -> S) : M S unit := fun s k => Ok (tt, f s, k).

Notation "x <- c ; k" := (bind c (fun x => k))
  (at level 20, c at level 100, k at level 200, only parsing).
Notation "c ;; k" := (bind c (fun _ => k))
  (at level 100, k at level 200, right associativity, only parsing).

(** [for x in xs: f(x)] *)
Fixpoint para_cada {S A} (xs : list A) (f : A -> M S unit) : M S unit :=
  match xs with
  | [] => ret tt
  | x :: xs' => f x ;; para_cada xs' f
  end.

(** Running a method of [self.chatbot] inside a method of the model. *)
Definition en_chatbot {A} (c : M Chatbot A) : M Modelo A :=
  fun m k =>
    match c (chatbot m) k with
    | Ok (a, cb, k') => Ok (a, con_chatbot cb m, k')
    | Lanza e => Lanza e
    end.

(** [a / b] on two ints (true division). *)
Definition dividir {S} (a b : Z) : M S Q :=
  if b =? 0 then lanzar ZeroDivisionError
  else ret (inject_Z a / inject_Z b)%Q.

(** Reading and updating the object at position [i]. *)
Definition leer_usuario (i : nat) : M Modelo Usuario :=
  fun m k =>
    match usuarios m !! i with
    | Some u => Ok (u, m, k)
    | None => Lanza ReferenciaInvalida
    end.

Definition modificar_usuario (i : nat) (f : Usuario -> Usuario)
  : M Modelo unit :=
  modificar (fun m => con_usuarios (alter f i (usuarios m)) m).

(** ** The [random] module *)

Section Simulacion.

(** The raw words the generator will deliver, in order. *)
Variable cinta : nat -> N.

(** [random.random()]: 53 random bits over 2^53, a value of [0, 1). *)
Definition unitario (w : N) : Q :=
  Z.of_N (w mod 2 ^ 53) # (2 ^ 53).

Definition random {S} : M S Q :=
  fun s k => Ok (unitario (cinta k), s, Datatypes.S k).

(** [random.uniform(a, b)] is [a + (b - a) * random()]. *)
Definition uniform {S} (a b : Q) : M S Q :=
  x <- random ; ret (uniforme a b x).

(** [_randbelow(n)]: an int of [0, n), and 0 when [n] is 0. *)
Definition randbelow {S} (n : nat) : M S nat :=
  fun s k =>
    Ok (if (n =? 0)%nat then 0%nat else N.to_nat (cinta k mod N.of_nat n),
        s, Datatypes.S k).

(** [random.choice(seq)] is [seq[_randbelow(len(seq))]]. *)
Definition choice {S A} (xs : list A) : M S A :=
  j <- randbelow (length xs) ;
  match xs !! j with
  | Some x => ret x
  | None => lanzar IndexError
  end.

(** The selection loop of [random.sample]: [k] times, take the element at
    a random position [j] of the pool and move the pool's last element
    into position [j]; the pool the next draw sees is one shorter. *)
Fixpoint sample_bucle {S A} (k : nat) (pool : list A) : M S (list A) :=
  match k with
  | O => ret []
  | Datatypes.S k' =>
      j <- randbelow (length pool) ;
      match pool !! j, last pool with
      | Some x, Some y =>
          resto <- sample_bucle k' (take (length pool - 1) (<[j := y]> pool)) ;
          ret (x :: resto)
      | _, _ => lanzar IndexError
      end
  end.

(** [random.sample(population, k)]: [ValueError] unless [0 <= k <= n];
    then the pool algorithm of the library, which is what the library runs
    on a population of at most 21 elements. *)
Definition sample {S A} (population : list A) (k : Z) : M S (list A) :=
  if (k <? 0) || (Z.of_nat (length population) <? k)
  then lanzar ValueError
  else sample_bucle (Z.to_nat k) population.

(** ** [Chatbot] *)

(** [Chatbot.actualizar_capacidad(usuarios_activos)].  The count the
    driver passes is a number of agents; for a count of astronomic
    magnitude the quotient or its square overflows in the source
    ([OverflowError]), which is outside the model. *)
Definition actualizar_capacidad (activos : Z) : M Chatbot unit :=
  modificar (fun c => con_capacidad_actual (Z.min activos (capacidad_maxima c)) c) ;;
  c <- leer ;
  factor_carga <- dividir (capacidad_actual c) (capacidad_maxima c) ;
  modificar (con_tiempo_respuesta_actual
               (tiempo_respuesta_base c * (1 + factor_carga ^ 2))%Q).

(** [Chatbot.generar_error()] *)
Definition generar_error : M Chatbot bool :=
  r <- random ;
  c <- leer ;
  ret (Qltb r (probabilidad_error c)).

(** ** [ModeloViralizacion] *)

(** The body of the loop of [_crear_usuarios] for one [i]. *)
Definition crear_usuario {S} (i : Z) : M S Usuario :=
  tipo_rand <- random ;
  if Qltb tipo_rand (doble 0.8) then
    prob_interaccion <- uniform (doble 0.1) (doble 0.3) ;
    prob_compartir <- uniform (doble 0.05) (doble 0.15) ;
    influencia <- uniform (doble 1.0) (doble 2.0) ;
    ret (nuevo_usuario i normal prob_interaccion prob_compartir influencia)
  else if Qltb tipo_rand (doble 0.95) then
    prob_interaccion <- uniform (doble 0.4) (doble 0.7) ;
    prob_compartir <- uniform (doble 0.3) (doble 0.6) ;
    influencia <- uniform (doble 3.0) (doble 8.0) ;
    ret (nuevo_usuario i critico prob_interaccion prob_compartir influencia)
  else
    prob_interaccion <- uniform (doble 0.2) (doble 0.5) ;
    prob_compartir <- uniform (doble 0.6) (doble 0.9) ;
    influencia <- uniform (doble 10.0) (doble 50.0) ;
    ret (nuevo_usuario i influencer prob_interaccion prob_compartir influencia).

Fixpoint crear_usuarios_bucle {S} (indices : list Z) (usuarios : list Usuario)
  : M S (list Usuario) :=
  match indices with
  | [] => ret usuarios
  | i :: indices' =>
      usuario <- crear_usuario i ;
      crear_usuarios_bucle indices' (usuarios ++ [usuario])
  end.

(** [_crear_usuarios()] *)
Definition _crear_usuarios : M Modelo (list Usuario) :=
  self <- leer ;
  crear_usuarios_bucle (range (num_usuarios self)) [].

(** [ModeloViralizacion.__init__(num_usuarios, capacidad_chatbot,
    tiempo_simulacion)]: the attributes are set in the order of the source;
    [self.usuarios] does not exist yet while [_crear_usuarios] runs, which
    only reads [self.num_usuarios]. *)
Definition __init__ (num_usuarios capacidad_chatbot tiempo_simulacion : Z)
  : nat -> Resultado (Modelo * nat) :=
  fun k =>
    let self :=
      mkModelo num_usuarios tiempo_simulacion 0
        (nuevo_chatbot capacidad_chatbot 1.0 0.01) [] metricas_vacias [] in
    match _crear_usuarios self k with
    | Ok (us, self, k') =>
        Ok (con_eventos [] (con_metricas metricas_vacias (con_usuarios us self)), k')
    | Lanza e => Lanza e
    end.

(** [_simular_interaccion_usuario(usuario)], [usuario] the object at
    position [p]. *)
Definition _simular_interaccion_usuario (p : nat) : M Modelo bool :=
  r <- random ;
  usuario <- leer_usuario p ;
  if Qltb r (probabilidad_interaccion usuario) then
    self <- leer ;
    modificar_usuario p (registrar_interaccion (tiempo_actual self)) ;;
    e <- en_chatbot generar_error ;
    if e then
      modificar (fun m =>
        con_chatbot (con_errores_totales (errores_totales (chatbot m) + 1) (chatbot m)) m) ;;
      modificar_usuario p registrar_error ;;
      ret true
    else ret false
  else ret false.

(** The body of the loop over [usuarios_seleccionados]. *)
Definition afectar (origen : nat) (p : nat) : M Modelo unit :=
  modificar_usuario p (con_estado consciente) ;;
  self <- leer ;
  usuario_error <- leer_usuario origen ;
  usuario <- leer_usuario p ;
  modificar (fun m =>
    con_eventos (eventos_viralizacion m ++
                 [mkEvento (tiempo_actual self) (id usuario_error)
                    (id usuario) (tipo usuario_error)]) m).

(** [_simular_propagacion_error(usuario_error)], [usuario_error] the object
    at position [origen].  The count is [int] of the double product, the
    two multiplications rounded in the order of the source; a product too
    large for a double, on which the source raises [OverflowError], is
    outside the model. *)
Definition _simular_propagacion_error (origen : nat) : M Modelo unit :=
  usuario_error <- leer_usuario origen ;
  r <- uniform 0.5 1.5 ;
  let usuarios_afectados :=
    int (redondear
           (redondear (influencia usuario_error * probabilidad_compartir usuario_error)
            * r)) in
  self <- leer ;
  let usuarios_disponibles := posiciones_con_estado inactivo (usuarios self) in
  usuarios_seleccionados <-
    sample usuarios_disponibles
      (Z.min usuarios_afectados (Z.of_nat (length usuarios_disponibles))) ;
  para_cada usuarios_seleccionados (afectar origen).

(** [_calcular_percepcion_publica()] *)
Definition _calcular_percepcion_publica : M Modelo Q :=
  self <- leer ;
  errores_por_usuario <-
    dividir (errores_totales (chatbot self))
            (Z.max 1 (suma_interacciones (usuarios self))) ;
  carga_relativa <-
    dividir (capacidad_actual (chatbot self)) (capacidad_maxima (chatbot self)) ;
  let percepcion := (1.0 - errores_por_usuario * 10 - carga_relativa * 0.3)%Q in
  ret (py_max 0.0 (py_min 1.0 percepcion)).

(** [self.metricas[key].append(x)], one definition per key. *)
Definition anotar_usuarios_activos (x : Z) : M Modelo unit :=
  modificar (fun m => let ms := metricas m in
    con_metricas (mkMetricas (usuarios_activos ms ++ [x]) (usuarios_conscientes ms)
      (carga_sistema ms) (errores_generados ms) (tiempo_respuesta ms)
      (percepcion_publica ms)) m).

Definition anotar_usuarios_conscientes (x : Z) : M Modelo unit :=
  modificar (fun m => let ms := metricas m in
    con_metricas (mkMetricas (usuarios_activos ms) (usuarios_conscientes ms ++ [x])
      (carga_sistema ms) (errores_generados ms) (tiempo_respuesta ms)
      (percepcion_publica ms)) m).

Definition anotar_carga_sistema (x : Q) : M Modelo unit :=
  modificar (fun m => let ms := metricas m in
    con_metricas (mkMetricas (usuarios_activos ms) (usuarios_conscientes ms)
      (carga_sistema ms ++ [x]) (errores_generados ms) (tiempo_respuesta ms)
      (percepcion_publica ms)) m).

Definition anotar_errores_generados (x : Z) : M Modelo unit :=
  modificar (fun m => let ms := metricas m in
    con_metricas (mkMetricas (usuarios_activos ms) (usuarios_conscientes ms)
      (carga_sistema ms) (errores_generados ms ++ [x]) (tiempo_respuesta ms)
      (percepcion_publica ms)) m).

Definition anotar_tiempo_respuesta (x : Q) : M Modelo unit :=
  modificar (fun m => let ms := metricas m in
    con_metricas (mkMetricas (usuarios_activos ms) (usuarios_conscientes ms)
      (carga_sistema ms) (errores_generados ms) (tiempo_respuesta ms ++ [x])
      (percepcion_publica ms)) m).

Definition anotar_percepcion_publica (x : Q) : M Modelo unit :=
  modificar (fun m => let ms := metricas m in
    con_metricas (mkMetricas (usuarios_activos ms) (usuarios_conscientes ms)
      (carga_sistema ms) (errores_generados ms) (tiempo_respuesta ms)
      (percepcion_publica ms ++ [x])) m).

(** The body of the loop over [usuarios_conscientes_lista] (and of the
    seeding before the first tick): interaction, and on an error
    propagation, then the object becomes ['activo']. *)
Definition interactuar (p : nat) : M Modelo unit :=
  error <- _simular_interaccion_usuario p ;
  if error : bool then
    _simular_propagacion_error p ;;
    modificar_usuario p (con_estado activo)
  else ret tt.

(** "Simular interacciones de usuarios conscientes": the list of
    references is taken before the loop starts. *)
Definition fase_interacciones : M Modelo unit :=
  self <- leer ;
  let usuarios_conscientes_lista := posiciones_con_estado consciente (usuarios self) in
  para_cada usuarios_conscientes_lista interactuar.

(** "Algunos usuarios activos pueden volver a ser conscientes": the draw is
    made only for an object that is ['activo'] ([and] short-circuits). *)
Definition decaer (p : nat) : M Modelo unit :=
  usuario <- leer_usuario p ;
  if decide (estado usuario = activo) then
    r <- random ;
    if Qltb r 0.1 then modificar_usuario p (con_estado consciente) else ret tt
  else ret tt.

Definition fase_decaimiento : M Modelo unit :=
  self <- leer ;
  para_cada (seq 0 (length (usuarios self))) decaer.

(** The body of the loop over [usuarios_inactivos]. *)
Definition activar_por_red (prob_activacion : Q) (p : nat) : M Modelo unit :=
  r <- random ;
  if Qltb r prob_activacion then modificar_usuario p (con_estado consciente)
  else ret tt.

(** "Efecto de red", for the tick [tiempo] and the count [usuarios_activos]
    taken at the top of the tick. *)
Definition fase_red (tiempo usuarios_activos : Z) : M Modelo unit :=
  if (0 <? tiempo) && (tiempo mod 5 =? 0) then
    self <- leer ;
    let usuarios_inactivos := posiciones_con_estado inactivo (usuarios self) in
    match usuarios_inactivos with
    | [] => ret tt
    | _ :: _ =>
        let prob_activacion := py_min 0.1 (inject_Z usuarios_activos / 1000)%Q in
        para_cada usuarios_inactivos (activar_por_red prob_activacion)
    end
  else ret tt.

(** "Registrar métricas" *)
Definition registrar_metricas (usuarios_activos usuarios_conscientes : Z)
  : M Modelo unit :=
  anotar_usuarios_activos usuarios_activos ;;
  anotar_usuarios_conscientes usuarios_conscientes ;;
  self <- leer ;
  carga <- dividir (capacidad_actual (chatbot self)) (capacidad_maxima (chatbot self)) ;
  anotar_carga_sistema carga ;;
  self <- leer ;
  anotar_errores_generados (errores_totales (chatbot self)) ;;
  self <- leer ;
  anotar_tiempo_respuesta (tiempo_respuesta_actual (chatbot self)) ;;
  percepcion <- _calcular_percepcion_publica ;
  anotar_percepcion_publica percepcion.

(** The body of [for tiempo in range(self.tiempo_simulacion)]. *)
Definition paso (tiempo : Z) : M Modelo unit :=
  modificar (con_tiempo_actual tiempo) ;;
  self <- leer ;
  let usuarios_activos := contar activo (usuarios self) in
  let usuarios_conscientes := contar consciente (usuarios self) in
  en_chatbot (actualizar_capacidad usuarios_activos) ;;
  fase_interacciones ;;
  fase_decaimiento ;;
  fase_red tiempo usuarios_activos ;;
  registrar_metricas usuarios_activos usuarios_conscientes.

(** The seeding that precedes the loop of [ejecutar_simulacion]. *)
Definition sembrar : M Modelo unit :=
  self <- leer ;
  let n := length (usuarios self) in
  usuarios_iniciales <- sample (seq 0 n) (Z.min 10 (Z.of_nat n)) ;
  para_cada usuarios_iniciales (fun p => modificar_usuario p (con_estado consciente)) ;;
  match usuarios_iniciales with
  | [] => ret tt
  | _ :: _ =>
      usuario_inicial <- choice usuarios_iniciales ;
      interactuar usuario_inicial
  end.

(** [ejecutar_simulacion()] *)
Definition ejecutar_simulacion : M Modelo unit :=
  sembrar ;;
  self <- leer ;
  para_cada (range (tiempo_simulacion self)) paso.

(** [_resetear_simulacion()] *)
Definition _resetear_simulacion : M Modelo unit :=
  modificar (con_tiempo_actual 0) ;;
  modificar (fun m =>
    con_chatbot (con_tiempo_respuesta_actual 0.0
      (con_errores_totales 0 (con_capacidad_actual 0 (chatbot m)))) m) ;;
  modificar (fun m => con_usuarios (map resetear_usuario (usuarios m)) m) ;;
  modificar (con_metricas metricas_vacias) ;;
  modificar (con_eventos []).

(** One entry of the dictionary [escenarios] and one of [resultados]. *)
Record Escenario := mkEscenario {
  nombre : string;
  prob_error : Q;
  influencia_mult : Q
}.

Record Resumen := mkResumen {
  max_usuarios_activos : Z;
  max_carga : Q;
  errores_finales : Z;
  percepcion_final : Q
}.

Definition escenarios : list Escenario :=
  [ mkEscenario "Baja viralización" 0.005 0.5;
    mkEscenario "Viralización normal" 0.01 1.0;
    mkEscenario "Alta viralización" 0.02 2.0;
    mkEscenario "Crisis viral" 0.05 5.0 ].

(** [max(xs)] and [xs[-1]] with their exceptions on the empty list. *)
Definition max_Z {S} (xs : list Z) : M S Z :=
  match max_lista_Z xs with Some x => ret x | None => lanzar ValueError end.

Definition max_Q {S} (xs : list Q) : M S Q :=
  match max_lista_Q xs with Some x => ret x | None => lanzar ValueError end.

Definition ultimo {S A} (xs : list A) : M S A :=
  match last xs with Some x => ret x | None => lanzar IndexError end.

(** "Configurar escenario" *)
Definition configurar_escenario (config : Escenario) : M Modelo unit :=
  modificar (fun m => con_chatbot (con_probabilidad_error (prob_error config) (chatbot m)) m) ;;
  modificar (fun m =>
    con_usuarios
      (map (fun u => con_influencia (influencia u * influencia_mult config)%Q u)
           (usuarios m)) m).

(** "Guardar resultados" *)
Definition resumir : M Modelo Resumen :=
  self <- leer ;
  a <- max_Z (usuarios_activos (metricas self)) ;
  b <- max_Q (carga_sistema (metricas self)) ;
  c <- ultimo (errores_generados (metricas self)) ;
  d <- ultimo (percepcion_publica (metricas self)) ;
  ret (mkResumen a b c d).

(** The loop of [analizar_escenarios] over the items of a dictionary of
    scenarios, in insertion order; [resultados] collects one entry per
    scenario name. *)
Fixpoint analizar_escenarios_de (escs : list Escenario)
  : M Modelo (list (string * Resumen)) :=
  match escs with
  | [] => ret []
  | config :: escs' =>
      configurar_escenario config ;;
      ejecutar_simulacion ;;
      resumen <- resumir ;
      _resetear_simulacion ;;
      resultados <- analizar_escenarios_de escs' ;
      ret ((nombre config, resumen) :: resultados)
  end.

(** [analizar_escenarios()] *)
Definition analizar_escenarios : M Modelo (list (string * Resumen)) :=
  analizar_escenarios_de escenarios.

End Simulacion.

(** ** Specification-side and auxiliary definitions *)



(** Relative load of a responder: [capacidad_actual / capacidad_maxima]. *)
Definition carga_relativa (c : Chatbot) : Q :=
  (inject_Z (capacidad_actual c) / inject_Z (capacidad_maxima c))%Q.


(** The store after the agents at the positions [sel] were made aware, and
    the id of the agent at a position. *)
Definition marcar (sel : list nat) (us : list Usuario) : list Usuario :=
  fold_left (fun us p => alter (con_estado consciente) p us) sel us.

Definition id_en (us : list Usuario) (p : nat) : Z :=
  match us !! p with Some v => id v | None => 0 end.

(** The store after the network-effect loop ran over the positions [sel]
    with the cursor at [k]: the agent at the [j]-th position of [sel] is
    made aware when the draw at [k + j] is below [prob]. *)
Fixpoint red_aplicada (cinta : nat -> N) (prob : Q) (k : nat) (sel : list nat)
  (us : list Usuario) : list Usuario :=
  match sel with
  | [] => us
  | p :: sel' =>
      red_aplicada cinta prob (S k) sel'
        (if Qltb (unitario (cinta k)) prob
         then alter (con_estado consciente) p us else us)
  end.

(** The product of a list of multipliers. *)
Definition producto (ms : list Q) : Q := fold_right Qmult 1%Q ms.


(** The index draws of a sample of [n] elements out of [len], read from
    the cursor [k]: the [i]-th one is [_randbelow(len - i)]. *)
Fixpoint indices_de_muestra (cinta : nat -> N) (k n len : nat) : list nat :=
  match n with
  | O => []
  | S n' =>
      (if (len =? 0)%nat then 0%nat else N.to_nat (cinta k mod N.of_nat len))
      :: indices_de_muestra cinta (S k) n' (len - 1)
  end.

(** Index draws within their ranges: the first below [len], the second
    below [len - 1], and so on. *)
Fixpoint validos (js : list nat) (len : nat) : Prop :=
  match js with
  | [] => True
  | j :: js' => (j < len)%nat /\ validos js' (len - 1)
  end.

(** The state the loop of [analizar_escenarios] hands to
    [ejecutar_simulacion] for the scenario [config]: [m] with the failure
    probability of the scenario and every influence multiplied, nothing
    else touched. *)
Definition configurado (config : Escenario) (m : Modelo) : Modelo :=
  con_usuarios
    (map (fun u => con_influencia (influencia u * influencia_mult config)%Q u)
         (usuarios m))
    (con_chatbot (con_probabilidad_error (prob_error config) (chatbot m)) m).

(** ** Reasoning about computations *)

(** Total and partial postconditions of a computation from a state and a
    cursor: [wp] demands a result, [wlp] accepts an exception. *)
Definition wp {St A} (c : M St A) (Q : A -> St -> nat -> Prop)
  (s : St) (k : nat) : Prop :=
  match c s k with
  | Ok (a, s', k') => Q a s' k'
  | Lanza _ => False
  end.

Definition wlp {St A} (c : M St A) (Q : A -> St -> nat -> Prop)
  (s : St) (k : nat) : Prop :=
  match c s k with
  | Ok (a, s', k') => Q a s' k'
  | Lanza _ => True
  end.

(** A computation keeps a relation between the state it starts from and the
    state it returns (if it returns). *)
Definition preserva {St A} (R : St -> St -> Prop) (c : M St A) : Prop :=
  forall s k, wlp c (fun _ s' _ => R s s') s k.

(** A computation returns, from a given state and cursor. *)
Definition termina {St A} (c : M St A) (s : St) (k : nat) : Prop :=
  wp c (fun _ _ _ => True) s k.

(** ** Relations between the states of a run *)

(** What no step of a run does to an agent: the behavioural parameters and
    the identity stay, an agent that is not dormant does not become
    dormant, and the two counters do not decrease. *)
Definition evol_usuario (u u' : Usuario) : Prop :=
  id u' = id u /\ tipo u' = tipo u /\
  probabilidad_interaccion u' = probabilidad_interaccion u /\
  probabilidad_compartir u' = probabilidad_compartir u /\
  influencia u' = influencia u /\
  (estado u <> inactivo -> estado u' <> inactivo) /\
  interacciones_totales u <= interacciones_totales u' /\
  errores_reportados u <= errores_reportados u'.

(** What no step of a run does to the responder: the configuration stays
    and the failure counter does not decrease. *)
Definition evol_chatbot (c c' : Chatbot) : Prop :=
  capacidad_maxima c' = capacidad_maxima c /\
  tiempo_respuesta_base c' = tiempo_respuesta_base c /\
  probabilidad_error c' = probabilidad_error c /\
  errores_totales c <= errores_totales c'.

(** Each metric series of [ms'] extends the same series of [ms]. *)
Definition extiende_metricas (ms ms' : Metricas) : Prop :=
  usuarios_activos ms `prefix_of` usuarios_activos ms' /\
  usuarios_conscientes ms `prefix_of` usuarios_conscientes ms' /\
  carga_sistema ms `prefix_of` carga_sistema ms' /\
  errores_generados ms `prefix_of` errores_generados ms' /\
  tiempo_respuesta ms `prefix_of` tiempo_respuesta ms' /\
  percepcion_publica ms `prefix_of` percepcion_publica ms'.

(** [ms'] is [ms] with exactly [j] entries appended to each of the six
    series. *)
Definition anota (j : nat) (ms ms' : Metricas) : Prop :=
  exists a b c d e f,
    ms' = mkMetricas (usuarios_activos ms ++ a) (usuarios_conscientes ms ++ b)
            (carga_sistema ms ++ c) (errores_generados ms ++ d)
            (tiempo_respuesta ms ++ e) (percepcion_publica ms ++ f) /\
    length a = j /\ length b = j /\ length c = j /\
    length d = j /\ length e = j /\ length f = j.

(** The relation every step of [ejecutar_simulacion] keeps. *)
Definition evoluciona (m m' : Modelo) : Prop :=
  num_usuarios m' = num_usuarios m /\
  tiempo_simulacion m' = tiempo_simulacion m /\
  evol_chatbot (chatbot m) (chatbot m') /\
  Forall2 evol_usuario (usuarios m) (usuarios m') /\
  extiende_metricas (metricas m) (metricas m') /\
  eventos_viralizacion m `prefix_of` eventos_viralizacion m'.

(** The steps other than the recording of metrics also leave the metric
    series as they are. *)
Definition avanza (m m' : Modelo) : Prop :=
  evoluciona m m' /\ metricas m' = metricas m.

(** A population of [n] agents in which every product of influence and
    share probability is non-negative. *)
Definition poblada (n : nat) (m : Modelo) : Prop :=
  length (usuarios m) = n /\
  Forall (fun u => (0 <= influencia u * probabilidad_compartir u)%Q) (usuarios m).

(** What a run needs of a state to return: a non-zero capacity and, for
    every agent, a non-negative product of influence and share
    probability; [n] is the size of the population. *)
Definition estable (n : nat) (m : Modelo) : Prop :=
  capacidad_maxima (chatbot m) <> 0 /\
  length (usuarios m) = n /\
  Forall (fun u => (0 <= influencia u * probabilidad_compartir u)%Q) (usuarios m).

(** The failure counter of the responder is the same in both states. *)
Definition mismos_errores (m m' : Modelo) : Prop :=
  errores_totales (chatbot m') = errores_totales (chatbot m).

(** The steps a run is made of, from the single interaction up to the whole
    of [ejecutar_simulacion]; [para_cada ts paso] is any stretch of
    consecutive ticks. *)
Inductive etapa (cinta : nat -> N) : M Modelo unit -> Prop :=
  | etapa_propagacion p : etapa cinta (_simular_propagacion_error cinta p)
  | etapa_interactuar p : etapa cinta (interactuar cinta p)
  | etapa_decaer p : etapa cinta (decaer cinta p)
  | etapa_activar_por_red q p : etapa cinta (activar_por_red cinta q p)
  | etapa_fase_interacciones : etapa cinta (fase_interacciones cinta)
  | etapa_fase_decaimiento : etapa cinta (fase_decaimiento cinta)
  | etapa_fase_red t a : etapa cinta (fase_red cinta t a)
  | etapa_registrar a c : etapa cinta (registrar_metricas a c)
  | etapa_paso t : etapa cinta (paso cinta t)
  | etapa_pasos ts : etapa cinta (para_cada ts (paso cinta))
  | etapa_sembrar : etapa cinta (sembrar cinta)
  | etapa_ejecutar : etapa cinta (ejecutar_simulacion cinta).

(** The steps of a tick that are not an interaction. *)
Inductive etapa_ajena (cinta : nat -> N) : M Modelo unit -> Prop :=
  | ajena_propagacion p : etapa_ajena cinta (_simular_propagacion_error cinta p)
  | ajena_decaimiento : etapa_ajena cinta (fase_decaimiento cinta)
  | ajena_red t a : etapa_ajena cinta (fase_red cinta t a)
  | ajena_carga a : etapa_ajena cinta (en_chatbot (actualizar_capacidad a))
  | ajena_registro a c : etapa_ajena cinta (registrar_metricas a c).

(** ** A small concrete configuration

    A tape given by a quadratic congruence, and a population of twelve
    agents (one aware, one reporting, ten dormant) in front of a responder
    of capacity 2 that fails every other time, for a run of six ticks. *)
Definition cinta_ejemplo (k : nat) : N :=
  (((N.of_nat k + 1) * (N.of_nat k + 7) * 6364136223846793005
    + 1442695040888963407) / 2 ^ 7 mod 2 ^ 53)%N.

Definition modelo_ejemplo : Modelo :=
  mkModelo 12 6 0 (nuevo_chatbot 2 1.0 0.5)
    (alter (con_estado consciente) 0%nat
       (alter (con_estado activo) 2%nat
          (map (fun i => nuevo_usuario i
                           (if i mod 3 =? 0 then critico else normal)
                           0.75 0.5 3.5)
               (range 12))))
    metricas_vacias [].

(** The example population after an earlier run left one entry in every
    series and one event in the log. *)
Definition modelo_con_historia : Modelo :=
  con_eventos [mkEvento 7 0 1 critico]
    (con_metricas (mkMetricas [99] [0] [1.0%Q] [42] [2.0%Q] [1.0%Q])
       modelo_ejemplo).

(** A tape whose every draw of [random()] is one half, and a reporting
    agent of influence 3.5 and share probability 0.5 with three dormant
    agents behind it. *)
Definition cinta_media (k : nat) : N := (2 ^ 52)%N.

(** A tape whose every draw is zero: every interaction takes place and
    every call of [generar_error] reports a failure. *)
Definition cinta_cero (k : nat) : N := 0%N.

Definition modelo_propagacion : Modelo :=
  mkModelo 4 1 0 (nuevo_chatbot 2 1.0 0.01)
    [ con_estado activo (nuevo_usuario 0 critico 0.5 0.5 3.5);
      nuevo_usuario 1 normal 0.25 0.125 1.0;
      nuevo_usuario 2 normal 0.25 0.125 1.0;
      nuevo_usuario 3 normal 0.25 0.125 1.0 ]
    metricas_vacias [].

(** ** Definitions for further properties of the engine *)

(** The ranges [_crear_usuarios] draws the three parameters of an
    archetype from; the bounds are the doubles the literals denote. *)
Definition en_rango_de_su_tipo (u : Usuario) : Prop :=
  match tipo u with
  | normal =>
      (doble 0.1 <= probabilidad_interaccion u <= doble 0.3)%Q /\
      (doble 0.05 <= probabilidad_compartir u <= doble 0.15)%Q /\
      (1 <= influencia u <= 2)%Q
  | critico =>
      (doble 0.4 <= probabilidad_interaccion u <= doble 0.7)%Q /\
      (doble 0.3 <= probabilidad_compartir u <= doble 0.6)%Q /\
      (3 <= influencia u <= 8)%Q
  | influencer =>
      (doble 0.2 <= probabilidad_interaccion u <= doble 0.5)%Q /\
      (doble 0.6 <= probabilidad_compartir u <= doble 0.9)%Q /\
      (10 <= influencia u <= 50)%Q
  end.

(** The archetype a first draw [d] selects in [_crear_usuarios], with the
    ranges of the three parameters drawn for it. *)
Definition en_banda (d : Q) (u : Usuario) : Prop :=
  (((d < doble 0.8)%Q /\ tipo u = normal) \/
   ((doble 0.8 <= d < doble 0.95)%Q /\ tipo u = critico) \/
   ((doble 0.95 <= d)%Q /\ tipo u = influencer)) /\
  en_rango_de_su_tipo u.

(** The six series of [ms] all have [j] entries. *)
Definition series_de_longitud (j : nat) (ms : Metricas) : Prop :=
  length (usuarios_activos ms) = j /\ length (usuarios_conscientes ms) = j /\
  length (carga_sistema ms) = j /\ length (errores_generados ms) = j /\
  length (tiempo_respuesta ms) = j /\ length (percepcion_publica ms) = j.

(** The state [_resetear_simulacion] leaves: tick 0, responder counters at
    zero, every agent dormant with zeroed counters, empty series and log. *)
Definition reseteado (m : Modelo) : Prop :=
  tiempo_actual m = 0 /\
  capacidad_actual (chatbot m) = 0 /\ errores_totales (chatbot m) = 0 /\
  (tiempo_respuesta_actual (chatbot m) == 0)%Q /\
  Forall (fun u => estado u = inactivo /\ tiempo_ultima_interaccion u = 0 /\
                   interacciones_totales u = 0 /\ errores_reportados u = 0)
         (usuarios m) /\
  metricas m = metricas_vacias /\ eventos_viralizacion m = [].

(** The load and the response time of the responder are the same in both
    states. *)
Definition misma_carga (m m' : Modelo) : Prop :=
  capacidad_actual (chatbot m') = capacidad_actual (chatbot m) /\
  tiempo_respuesta_actual (chatbot m') = tiempo_respuesta_actual (chatbot m).

(** What one tick records, for a population of [n] agents in front of a
    responder of capacity [cap] and base response time [base]: the counts
    [a] of reporting and [c] of aware agents, the relative load, the
    response time and the perception. *)
Definition registro_de_tick (n : nat) (cap : Z) (base : Q)
  (a c : Z) (carga resp perc : Q) : Prop :=
  0 <= a /\ 0 <= c /\ a + c <= Z.of_nat n /\
  carga = (inject_Z (Z.min a cap) / inject_Z cap)%Q /\
  resp = (base * (1 + carga ^ 2))%Q /\
  (0 < cap -> (0 <= carga <= 1)%Q) /\
  (0 <= perc <= 1)%Q.

(** Entry by entry, five series are records of ticks. *)
Definition registros_coherentes (n : nat) (cap : Z) (base : Q)
  (a b : list Z) (c e f : list Q) : Prop :=
  forall i x y l t p,
    a !! i = Some x -> b !! i = Some y -> c !! i = Some l ->
    e !! i = Some t -> f !! i = Some p ->
    registro_de_tick n cap base x y l t p.

(** The sum of a counter over the population. *)
Definition suma_de (g : Usuario -> Z) (us : list Usuario) : Z :=
  foldr (fun u a => g u + a) 0 us.

(** The books balance: the responder's failure counter is the sum of the
    agents' reported failures, and no agent has reported more failures than
    it has had interactions. *)
Definition libro (m : Modelo) : Prop :=
  errores_totales (chatbot m) = suma_de errores_reportados (usuarios m) /\
  Forall (fun u => 0 <= errores_reportados u <= interacciones_totales u) (usuarios m).

(** A step keeps a property of the state. *)
Definition conserva (I : Modelo -> Prop) (m m' : Modelo) : Prop := I m -> I m'.

(** The event log grows no faster than the dormant pool shrinks. *)
Definition eventos_por_inactivos (m m' : Modelo) : Prop :=
  Z.of_nat (length (eventos_viralizacion m')) + contar inactivo (usuarios m') <=
  Z.of_nat (length (eventos_viralizacion m)) + contar inactivo (usuarios m).

(** What a run does in front of a responder that cannot fail: the failure
    counter and the event log stay as they are, no agent reports a failure
    and no agent starts reporting. *)
Definition sin_fallos (m m' : Modelo) : Prop :=
  (probabilidad_error (chatbot m) <= 0)%Q ->
  probabilidad_error (chatbot m') = probabilidad_error (chatbot m) /\
  errores_totales (chatbot m') = errores_totales (chatbot m) /\
  eventos_viralizacion m' = eventos_viralizacion m /\
  Forall2 (fun u u' => errores_reportados u' = errores_reportados u /\
                       (estado u' = activo -> estado u = activo))
    (usuarios m) (usuarios m').

(** The example population in front of a responder that never fails. *)
Definition modelo_infalible : Modelo :=
  con_chatbot (nuevo_chatbot 2 1.0 0) modelo_ejemplo.

(** The interaction record of an agent (its two counters and the tick of
    its last interaction) is the same in [u] and [u']. *)
Definition mismo_historial (u u' : Usuario) : Prop :=
  interacciones_totales u' = interacciones_totales u /\
  errores_reportados u' = errores_reportados u /\
  tiempo_ultima_interaccion u' = tiempo_ultima_interaccion u.

Definition historial_intacto (m m' : Modelo) : Prop :=
  tiempo_actual m' = tiempo_actual m /\
  Forall2 mismo_historial (usuarios m) (usuarios m').

(** Between [u] and [u'] the agent had at most one interaction, at tick
    [t], and reported at most one failure. *)
Definition huella (t : Z) (u u' : Usuario) : Prop :=
  mismo_historial u u' \/
  (interacciones_totales u' = interacciones_totales u + 1 /\
   tiempo_ultima_interaccion u' = t /\
   errores_reportados u <= errores_reportados u' <= errores_reportados u + 1).

(** Only the agents at the positions [ps] were touched, each at most
    once, at the current tick. *)
Definition toca (ps : list nat) (m m' : Modelo) : Prop :=
  tiempo_actual m' = tiempo_actual m /\
  length (usuarios m') = length (usuarios m) /\
  forall i u u', usuarios m !! i = Some u -> usuarios m' !! i = Some u' ->
    (i ∉ ps -> mismo_historial u u') /\ huella (tiempo_actual m) u u'.

(** Between [m] and [m'] every agent had at most [n] interactions and
    reported at most [n] failures. *)
Definition cota_historial (n : Z) (m m' : Modelo) : Prop :=
  length (usuarios m') = length (usuarios m) /\
  forall i u u', usuarios m !! i = Some u -> usuarios m' !! i = Some u' ->
    interacciones_totales u <= interacciones_totales u' <= interacciones_totales u + n /\
    errores_reportados u <= errores_reportados u' <= errores_reportados u + n.

(** The tick has not moved, and the events logged since carry it. *)
Definition sella (m m' : Modelo) : Prop :=
  tiempo_actual m' = tiempo_actual m /\
  exists es, eventos_viralizacion m' = eventos_viralizacion m ++ es /\
             Forall (fun e => tiempo e = tiempo_actual m) es.

(** The ticks [ts] run one after the other from the state [m] and the
    cursor [k] to the state [m'] and the cursor [k'], the tick at each
    position logging the events of the block at that position. *)
Inductive corrida (cinta : nat -> N)
  : list Z -> Modelo -> nat -> Modelo -> nat -> list (list Evento) -> Prop :=
  | corrida_fin m k : corrida cinta [] m k m k []
  | corrida_paso t ts m k m1 k1 m' k' es bloques :
      paso cinta t m k = Ok (tt, m1, k1) ->
      eventos_viralizacion m1 = eventos_viralizacion m ++ es ->
      corrida cinta ts m1 k1 m' k' bloques ->
      corrida cinta (t :: ts) m k m' k' (es :: bloques).

(** The store after the decay loop ran with the cursor at [k]: each
    reporting agent, in list order, takes one draw and becomes aware when
    its draw is below 0.1; the other agents take no draw. *)
Fixpoint decaidos (cinta : nat -> N) (k : nat) (us : list Usuario)
  : list Usuario :=
  match us with
  | [] => []
  | u :: us' =>
      if decide (estado u = activo)
      then (if Qltb (unitario (cinta k)) 0.1 then con_estado consciente u else u)
             :: decaidos cinta (S k) us'
      else u :: decaidos cinta k us'
  end.

(** The recorded series hold plausible values: counts of reporting agents
    within the population, loads and perceptions within [0, 1], failure
    counts not negative. *)
Definition series_en_rango (m : Modelo) : Prop :=
  0 <= errores_totales (chatbot m) /\
  Forall (fun x => 0 <= x <= Z.of_nat (length (usuarios m)))
    (usuarios_activos (metricas m)) /\
  Forall (fun x => (0 <= x <= 1)%Q) (carga_sistema (metricas m)) /\
  Forall (fun x => 0 <= x) (errores_generados (metricas m)) /\
  Forall (fun x => (0 <= x <= 1)%Q) (percepcion_publica (metricas m)).

(** One row of the table of [analizar_escenarios], for a population of
    [n] agents. *)
Definition resumen_en_rango (n : nat) (r : Resumen) : Prop :=
  0 <= max_usuarios_activos r <= Z.of_nat n /\
  (0 <= max_carga r <= 1)%Q /\
  0 <= errores_finales r /\
  (0 <= percepcion_final r <= 1)%Q.

(* ===================================================================== *)
(** * Properties *)
(* ===================================================================== *)

(** Projections of an updated state. *)
Ltac proyectar :=
  cbn [usuarios chatbot metricas eventos_viralizacion tiempo_actual num_usuarios
       tiempo_simulacion con_usuarios con_chatbot con_eventos con_metricas
       con_tiempo_actual capacidad_maxima tiempo_respuesta_base probabilidad_error
       capacidad_actual errores_totales tiempo_respuesta_actual con_errores_totales
       con_capacidad_actual con_tiempo_respuesta_actual con_probabilidad_error].

(** ** Rounding to the nearest double *)

Lemma dos_no_cero : ~ (2 == 0)%Q.
Proof. intros H. discriminate H. Qed.

Lemma dos_potencia_pos (e : Z) : (0 < 2 ^ e)%Q.
Proof. apply Qpower_0_lt. reflexivity. Qed.

Lemma exponente_cotas (q : Q) :
  (0 < q)%Q -> (2 ^ exponente q <= q < 2 ^ (exponente q + 1))%Q.
Proof.
  intros Hq. destruct q as [n d]. unfold exponente. simpl Qnum. simpl Qden.
  assert (Hn : 0 < n) by (unfold Qlt in Hq; simpl in Hq; lia).
  set (a := Z.log2 n). set (b := Z.log2 (Z.pos d)).
  assert (Ha0 : 0 <= a) by apply Z.log2_nonneg.
  assert (Hb0 : 0 <= b) by apply Z.log2_nonneg.
  destruct (Z.log2_spec n Hn) as [Ha1 Ha2]. fold a in Ha1, Ha2.
  destruct (Z.log2_spec (Z.pos d) ltac:(lia)) as [Hb1 Hb2]. fold b in Hb1, Hb2.
  assert (Hpa : 0 < 2 ^ a) by (apply Z.pow_pos_nonneg; lia).
  assert (Hpb : 0 < 2 ^ b) by (apply Z.pow_pos_nonneg; lia).
  assert (Hsa : 2 ^ Z.succ a = 2 * 2 ^ a) by (apply Z.pow_succ_r; lia).
  assert (Hsb : 2 ^ Z.succ b = 2 * 2 ^ b) by (apply Z.pow_succ_r; lia).
  assert (Hpot : forall x y : Z, 0 <= x -> 0 <= y ->
            (2 ^ (x - y) == inject_Z (2 ^ x) / inject_Z (2 ^ y))%Q).
  { intros x y Hx Hy. rewrite Qpower_minus by exact dos_no_cero.
    rewrite !Zpower_Qpower by assumption. reflexivity. }
  assert (Hup : (n # d < 2 ^ (a - b + 1))%Q).
  { replace (a - b + 1) with (Z.succ a - b) by lia.
    rewrite Hpot by lia.
    apply Qlt_shift_div_l.
    - change 0%Q with (inject_Z 0). rewrite <- Zlt_Qlt. exact Hpb.
    - unfold Qlt, Qmult, inject_Z. simpl. nia. }
  assert (Hlo : (2 ^ (a - b - 1) < n # d)%Q).
  { replace (a - b - 1) with (a - Z.succ b) by lia.
    rewrite Hpot by lia.
    apply Qlt_shift_div_r.
    - change 0%Q with (inject_Z 0). rewrite <- Zlt_Qlt. lia.
    - unfold Qlt, Qmult, inject_Z. simpl. nia. }
  destruct (Qle_bool (2 ^ (a - b)) (n # d)) eqn:E.
  - apply Qle_bool_iff in E. split; [exact E | exact Hup].
  - assert (Hlt : (n # d < 2 ^ (a - b))%Q).
    { apply Qnot_le_lt. intros H. apply Qle_bool_iff in H. congruence. }
    replace (a - b - 1 + 1) with (a - b) by lia.
    split; [apply Qlt_le_weak; exact Hlo | exact Hlt].
Qed.

Lemma exponente_monotono (p q : Q) :
  (0 < p)%Q -> (p <= q)%Q -> exponente p <= exponente q.
Proof.
  intros Hp Hpq.
  destruct (exponente_cotas p Hp) as [H1 _].
  destruct (exponente_cotas q ltac:(lra)) as [_ H2].
  assert (H : (2 ^ exponente p < 2 ^ (exponente q + 1))%Q) by lra.
  apply Qpower_lt_compat_l_inv in H; [lia | reflexivity].
Qed.

Lemma rne_cotas (x : Q) : (inject_Z (Qfloor x) <= x < inject_Z (Qfloor x) + 1)%Q.
Proof.
  split; [apply Qfloor_le|].
  pose proof (Qlt_floor x) as H. rewrite inject_Z_plus in H. exact H.
Qed.

Lemma rne_floor (x : Q) : Qfloor x <= rne x <= Qfloor x + 1.
Proof.
  unfold rne. destruct (_ ?= _)%Q; [destruct (Z.even _)| |]; lia.
Qed.

Lemma rne_monotono (x y : Q) : (x <= y)%Q -> rne x <= rne y.
Proof.
  intros Hxy.
  pose proof (Qfloor_resp_le x y Hxy) as Hf.
  pose proof (rne_floor x) as Hx. pose proof (rne_floor y) as Hy.
  destruct (Z.eq_dec (Qfloor x) (Qfloor y)) as [Heq|Hne]; [|lia].
  unfold rne in *. rewrite <- Heq in *.
  set (f := Qfloor x) in *.
  destruct (Qcompare_spec (x - inject_Z f) (1 # 2)) as [E1|E1|E1];
    destruct (Qcompare_spec (y - inject_Z f) (1 # 2)) as [E2|E2|E2];
    try destruct (Z.even f); try lia; exfalso; lra.
Qed.

Lemma rne_entero (z : Z) : rne (inject_Z z) = z.
Proof.
  unfold rne. rewrite Qfloor_Z.
  destruct (Qcompare_spec (inject_Z z - inject_Z z) (1 # 2)) as [E|E|E];
    [exfalso; lra | reflexivity | exfalso; lra].
Qed.

Lemma rne_no_negativo (x : Q) : (0 <= x)%Q -> 0 <= rne x.
Proof.
  intros Hx. pose proof (rne_monotono 0 x Hx) as H.
  change 0%Q with (inject_Z 0) in H. rewrite rne_entero in H. exact H.
Qed.

Lemma redondear_pos_cotas (q : Q) :
  (0 < q)%Q ->
  (2 ^ exponente q <= redondear_pos q <= 2 ^ (exponente q + 1))%Q.
Proof.
  intros Hq. destruct (exponente_cotas q Hq) as [H1 H2].
  unfold redondear_pos. set (E := exponente q) in *. set (s := 52 - E).
  pose proof (dos_potencia_pos s) as Hs. pose proof (dos_potencia_pos (- s)) as Hs'.
  assert (Hlo : (inject_Z (2 ^ 52) <= q * 2 ^ s)%Q).
  { rewrite Zpower_Qpower by lia. change (inject_Z 2) with 2%Q.
    replace 52 with (E + s) by (unfold s; lia).
    rewrite Qpower_plus by exact dos_no_cero.
    apply Qmult_le_compat_r; [exact H1 | lra]. }
  assert (Hhi : (q * 2 ^ s <= inject_Z (2 ^ 53))%Q).
  { rewrite Zpower_Qpower by lia. change (inject_Z 2) with 2%Q.
    replace 53 with (E + 1 + s) by (unfold s; lia).
    rewrite Qpower_plus by exact dos_no_cero.
    apply Qmult_le_compat_r; lra. }
  apply rne_monotono in Hlo. apply rne_monotono in Hhi.
  rewrite rne_entero in Hlo, Hhi.
  assert (HE : forall z : Z, 0 <= z ->
            (2 ^ (z - s) == inject_Z (2 ^ z) * 2 ^ (- s))%Q).
  { intros z Hz. rewrite Zpower_Qpower by exact Hz. change (inject_Z 2) with 2%Q.
    rewrite <- Qpower_plus by exact dos_no_cero. reflexivity. }
  replace E with (52 - s) at 1 by (unfold s; lia).
  replace (E + 1) with (53 - s) by (unfold s; lia).
  rewrite !HE by lia. split.
  - apply Qmult_le_compat_r; [|lra]. rewrite <- Zle_Qle. exact Hlo.
  - apply Qmult_le_compat_r; [|lra]. rewrite <- Zle_Qle. exact Hhi.
Qed.

Lemma redondear_pos_monotono (p q : Q) :
  (0 < p)%Q -> (p <= q)%Q -> (redondear_pos p <= redondear_pos q)%Q.
Proof.
  intros Hp Hpq. assert (Hq : (0 < q)%Q) by lra.
  pose proof (exponente_monotono p q Hp Hpq) as HE.
  destruct (Z.eq_dec (exponente p) (exponente q)) as [Heq|Hne].
  - unfold redondear_pos. rewrite Heq. set (s := 52 - exponente q).
    pose proof (dos_potencia_pos s) as Hs. pose proof (dos_potencia_pos (- s)) as Hs'.
    apply Qmult_le_compat_r; [|lra]. rewrite <- Zle_Qle.
    apply rne_monotono. apply Qmult_le_compat_r; lra.
  - destruct (redondear_pos_cotas p Hp) as [_ H1].
    destruct (redondear_pos_cotas q Hq) as [H2 _].
    assert (H : (2 ^ (exponente p + 1) <= 2 ^ exponente q)%Q).
    { apply Qpower_le_compat_l; [lia | lra]. }
    lra.
Qed.

Lemma redondear_igual (p q : Q) : (p == q)%Q -> redondear p = redondear q.
Proof. intros H. unfold redondear. rewrite (Qred_complete p q H). reflexivity. Qed.

#[global] Instance redondear_comp : Proper (Qeq ==> Qeq) redondear.
Proof. intros p q H. rewrite (redondear_igual p q H). reflexivity. Qed.

Lemma Qnum_signo (q : Q) :
  match Qnum q with
  | Z0 => (q == 0)%Q
  | Zpos _ => (0 < q)%Q
  | Zneg _ => (q < 0)%Q
  end.
Proof. destruct q as [[|n|n] d]; unfold Qeq, Qlt; simpl; lia. Qed.

Lemma redondear_no_negativo (q : Q) : (0 <= q)%Q -> (0 <= redondear q)%Q.
Proof.
  intros Hq. unfold redondear.
  pose proof (Qnum_signo (Qred q)) as Hs. pose proof (Qred_correct q) as Hr.
  destruct (Qnum (Qred q)).
  - lra.
  - destruct (redondear_pos_cotas (Qred q) Hs) as [H1 _].
    pose proof (dos_potencia_pos (exponente (Qred q))). lra.
  - exfalso. lra.
Qed.

Lemma redondear_cero : redondear 0 = 0%Q.
Proof. reflexivity. Qed.

Lemma redondear_monotono (p q : Q) :
  (0 <= p)%Q -> (p <= q)%Q -> (redondear p <= redondear q)%Q.
Proof.
  intros Hp Hpq.
  pose proof (redondear_no_negativo q ltac:(lra)) as Hq0.
  unfold redondear in *.
  pose proof (Qnum_signo (Qred p)) as Hsp. pose proof (Qred_correct p) as Hrp.
  pose proof (Qnum_signo (Qred q)) as Hsq. pose proof (Qred_correct q) as Hrq.
  destruct (Qnum (Qred p)).
  - exact Hq0.
  - destruct (Qnum (Qred q)).
    + exfalso. lra.
    + apply redondear_pos_monotono; [exact Hsp | lra].
    + exfalso. lra.
  - exfalso. lra.
Qed.

(** The rounding on the ties and the literals of the source. *)
Example redondear_empates :
  redondear (inject_Z (2 ^ 53 + 1)) = inject_Z (2 ^ 53) /\
  redondear (inject_Z (2 ^ 53 + 3)) = inject_Z (2 ^ 53 + 4) /\
  (doble 0.95 == 8556839292003942 # 9007199254740992)%Q /\
  (doble 0.95 < 0.95)%Q /\ (doble 0.3 < 0.3)%Q /\ (0.1 < doble 0.1)%Q.
Proof. vm_compute. repeat split; reflexivity || discriminate. Qed.

(** ** Arithmetic of the floats *)

Lemma Qltb_lt (x y : Q) : Qltb x y = true <-> (x < y)%Q.
Proof.
  unfold Qltb. rewrite negb_true_iff. split.
  - intros H. apply Qnot_le_lt. intros Hle.
    apply Qle_bool_iff in Hle. congruence.
  - intros H. destruct (Qle_bool y x) eqn:E; [|reflexivity].
    apply Qle_bool_iff in E. exfalso. exact (Qlt_not_le _ _ H E).
Qed.

Lemma Qltb_ge (x y : Q) : Qltb x y = false <-> (y <= x)%Q.
Proof.
  unfold Qltb. rewrite negb_false_iff. apply Qle_bool_iff.
Qed.

Ltac casos_Qltb :=
  repeat match goal with
  | |- context [Qltb ?a ?b] =>
      let E := fresh "E" in
      destruct (Qltb a b) eqn:E;
      [apply Qltb_lt in E | apply Qltb_ge in E]
  end.

Lemma py_max_min_rango (x : Q) :
  (0 <= py_max 0.0 (py_min 1.0 x) <= 1)%Q.
Proof. unfold py_min. casos_Qltb; unfold py_max; casos_Qltb; lra. Qed.


(** ** The responder: [Chatbot.actualizar_capacidad] *)

Lemma dividir_no_cero {St} (a b : Z) (s : St) (k : nat) :
  b <> 0 -> dividir a b s k = Ok ((inject_Z a / inject_Z b)%Q, s, k).
Proof.
  intros Hb. unfold dividir. destruct (Z.eqb_spec b 0); [contradiction|reflexivity].
Qed.

Lemma dividir_cero {St} (a : Z) (s : St) (k : nat) :
  dividir a 0 s k = Lanza ZeroDivisionError.
Proof. reflexivity. Qed.

Lemma actualizar_capacidad_ok (c : Chatbot) (activos : Z) (k : nat) :
  capacidad_maxima c <> 0 ->
  actualizar_capacidad activos c k =
    Ok (tt,
        mkChatbot (capacidad_maxima c) (tiempo_respuesta_base c)
          (probabilidad_error c) (Z.min activos (capacidad_maxima c))
          (errores_totales c)
          (tiempo_respuesta_base c *
             (1 + (inject_Z (Z.min activos (capacidad_maxima c)) /
                   inject_Z (capacidad_maxima c)) ^ 2))%Q,
        k).
Proof.
  intros Hcap. unfold actualizar_capacidad, bind, modificar, leer. simpl.
  rewrite dividir_no_cero by exact Hcap. reflexivity.
Qed.

(** C6.  For a responder of positive capacity and a non-negative count,
    [actualizar_capacidad] returns, sets the load to
    [min(activos, capacidad_maxima)] and the response time to
    [base * (1 + (load / capacity)^2)], and changes nothing else; the load
    lies in [0, capacidad_maxima]; with capacity 1 the relative load is 0 or
    1 and the response time is [base] or [2 * base]. *)
Theorem actualizar_capacidad_spec (c : Chatbot) (activos : Z) (k : nat) :
  0 < capacidad_maxima c ->
  0 <= activos ->
  exists c',
    actualizar_capacidad activos c k = Ok (tt, c', k) /\
    capacidad_actual c' = Z.min activos (capacidad_maxima c) /\
    tiempo_respuesta_actual c' =
      (tiempo_respuesta_base c * (1 + carga_relativa c' ^ 2))%Q /\
    0 <= capacidad_actual c' <= capacidad_maxima c' /\
    capacidad_maxima c' = capacidad_maxima c /\
    tiempo_respuesta_base c' = tiempo_respuesta_base c /\
    probabilidad_error c' = probabilidad_error c /\
    errores_totales c' = errores_totales c /\
    (capacidad_maxima c = 1 ->
       (carga_relativa c' == 0 /\
        tiempo_respuesta_actual c' == tiempo_respuesta_base c)%Q \/
       (carga_relativa c' == 1 /\
        tiempo_respuesta_actual c' == 2 * tiempo_respuesta_base c)%Q).
Proof.
  intros Hcap Hact. eexists. split.
  { apply actualizar_capacidad_ok. lia. }
  unfold carga_relativa. simpl.
  repeat split; try reflexivity; try lia.
  intros H1. rewrite H1.
  destruct (Z.eq_dec activos 0) as [->|Hne].
  - left. simpl. change (inject_Z (Z.min 0 1) / inject_Z 1)%Q with 0%Q.
    split; [reflexivity|]. ring.
  - right. replace (Z.min activos 1) with 1 by lia. simpl.
    change (inject_Z 1 / inject_Z 1)%Q with 1%Q.
    split; [reflexivity|]. ring.
Qed.

Lemma actualizar_capacidad_spec_witness :
  exists c',
    actualizar_capacidad 3 (nuevo_chatbot 1 1.0 0.01) 0%nat = Ok (tt, c', 0%nat) /\
    capacidad_actual c' = 1 /\
    (tiempo_respuesta_actual c' == 2)%Q.
Proof.
  destruct (actualizar_capacidad_spec (nuevo_chatbot 1 1.0 0.01) 3 0)
    as (c' & Hrun & Hload & Htime & _); [simpl; lia | lia |].
  exists c'. split; [exact Hrun|]. split; [exact Hload|].
  vm_compute in Hrun. injection Hrun as <-. reflexivity.
Defined.

(** ** The perception metric: [_calcular_percepcion_publica] *)



(** Without the assumption on the capacity the second quotient, which has
    no guard, raises. *)
Lemma percepcion_capacidad_cero (m : Modelo) (k : nat) :
  capacidad_maxima (chatbot m) = 0 ->
  _calcular_percepcion_publica m k = Lanza ZeroDivisionError.
Proof.
  intros H0. unfold _calcular_percepcion_publica, bind, leer.
  rewrite dividir_no_cero by lia. rewrite H0. reflexivity.
Qed.

(** ** The scenario reset: [_resetear_simulacion] *)

Lemma lookup_map {A B} (f : A -> B) (l : list A) (i : nat) :
  map f l !! i = option_map f (l !! i).
Proof.
  revert i. induction l as [|x l IH]; intros [|i]; simpl; auto.
Qed.

Lemma Forall_map_intro {A B} (f : A -> B) (P : B -> Prop) (l : list A) :
  (forall x, P (f x)) -> Forall P (map f l).
Proof.
  intros H. induction l as [|x l IH]; simpl; constructor; auto.
Qed.

(** C4.  From every state the reset returns without drawing; afterwards
    every agent is dormant with its three counters at zero, the responder's
    load, failure count and response time are zero, the six metric series
    and the event log are empty, and the agent at each position keeps its
    id, archetype, interaction and share probabilities and its influence. *)
Theorem resetear_simulacion_spec (m : Modelo) (k : nat) :
  exists m',
    _resetear_simulacion m k = Ok (tt, m', k) /\
    Forall (fun u => estado u = inactivo /\
                     tiempo_ultima_interaccion u = 0 /\
                     interacciones_totales u = 0 /\
                     errores_reportados u = 0) (usuarios m') /\
    capacidad_actual (chatbot m') = 0 /\
    errores_totales (chatbot m') = 0 /\
    (tiempo_respuesta_actual (chatbot m') == 0)%Q /\
    metricas m' = mkMetricas [] [] [] [] [] [] /\
    eventos_viralizacion m' = [] /\
    length (usuarios m') = length (usuarios m) /\
    (forall i u, usuarios m !! i = Some u ->
       exists u', usuarios m' !! i = Some u' /\
         id u' = id u /\ tipo u' = tipo u /\
         probabilidad_interaccion u' = probabilidad_interaccion u /\
         probabilidad_compartir u' = probabilidad_compartir u /\
         influencia u' = influencia u).
Proof.
  eexists. split; [reflexivity|]. simpl.
  split; [|repeat split].
  - apply Forall_map_intro. intros u. simpl. auto.
  - apply length_map.
  - intros i u Hi. exists (resetear_usuario u). split.
    + rewrite lookup_map, Hi. reflexivity.
    + simpl. auto.
Qed.

(** ** Rules for [wp], [wlp], [preserva] and [termina] *)

Section Reglas.
Context {St : Type}.

Lemma wlp_bind {A B} (c : M St A) (f : A -> M St B) Q s k :
  wlp c (fun a s' k' => wlp (f a) Q s' k') s k -> wlp (bind c f) Q s k.
Proof. unfold wlp, bind. destruct (c s k) as [[[a s'] k']|e]; auto. Qed.

Lemma wp_bind {A B} (c : M St A) (f : A -> M St B) Q s k :
  wp c (fun a s' k' => wp (f a) Q s' k') s k -> wp (bind c f) Q s k.
Proof. unfold wp, bind. destruct (c s k) as [[[a s'] k']|e]; auto. Qed.

Lemma wlp_mono {A} (c : M St A) (P Q : A -> St -> nat -> Prop) s k :
  (forall a s' k', P a s' k' -> Q a s' k') -> wlp c P s k -> wlp c Q s k.
Proof. unfold wlp. destruct (c s k) as [[[a s'] k']|e]; auto. Qed.

Lemma wp_mono {A} (c : M St A) (P Q : A -> St -> nat -> Prop) s k :
  (forall a s' k', P a s' k' -> Q a s' k') -> wp c P s k -> wp c Q s k.
Proof. unfold wp. destruct (c s k) as [[[a s'] k']|e]; auto. Qed.

Lemma wp_wlp {A} (c : M St A) (P Q : A -> St -> nat -> Prop) s k :
  wlp c P s k -> wp c Q s k -> wp c (fun a s' k' => P a s' k' /\ Q a s' k') s k.
Proof. unfold wp, wlp. destruct (c s k) as [[[a s'] k']|e]; auto. Qed.

Lemma wp_Ok {A} (c : M St A) Q s k :
  wp c Q s k <-> exists a s' k', c s k = Ok (a, s', k') /\ Q a s' k'.
Proof.
  unfold wp. destruct (c s k) as [[[a s'] k']|e]; split.
  - intros H. exists a, s', k'. auto.
  - intros (a0 & s0 & k0 & Heq & H). injection Heq as -> -> ->. exact H.
  - intros [].
  - intros (a0 & s0 & k0 & Heq & H). discriminate.
Qed.

Lemma wlp_Ok {A} (c : M St A) Q s k :
  wlp c Q s k <-> forall a s' k', c s k = Ok (a, s', k') -> Q a s' k'.
Proof.
  unfold wlp. destruct (c s k) as [[[a s'] k']|e]; split.
  - intros H a0 s0 k0 Heq. injection Heq as <- <- <-. exact H.
  - intros H. apply H. reflexivity.
  - intros _ a0 s0 k0 Heq. discriminate.
  - auto.
Qed.

Lemma preserva_Ok {A} (R : St -> St -> Prop) (c : M St A) s k a s' k' :
  preserva R c -> c s k = Ok (a, s', k') -> R s s'.
Proof. intros H Heq. specialize (H s k). unfold wlp in H. rewrite Heq in H. exact H. Qed.

Lemma preserva_ret {A} (R : St -> St -> Prop) `{!Reflexive R} (a : A) :
  preserva R (ret a).
Proof. intros s k. unfold wlp, ret. reflexivity. Qed.

Lemma preserva_lanzar {A} (R : St -> St -> Prop) e :
  preserva R (@lanzar St A e).
Proof. intros s k. exact I. Qed.

Lemma preserva_leer (R : St -> St -> Prop) `{!Reflexive R} :
  preserva R leer.
Proof. intros s k. unfold wlp, leer. reflexivity. Qed.

Lemma preserva_modificar (R : St -> St -> Prop) (f : St -> St) :
  (forall s, R s (f s)) -> preserva R (modificar f).
Proof. intros H s k. apply H. Qed.

Lemma preserva_bind {A B} (R : St -> St -> Prop) `{!Transitive R}
  (c : M St A) (f : A -> M St B) :
  preserva R c -> (forall a, preserva R (f a)) -> preserva R (bind c f).
Proof.
  intros Hc Hf s k. apply wlp_bind. specialize (Hc s k).
  revert Hc. apply wlp_mono. intros a s' k' Hss'.
  specialize (Hf a s' k'). revert Hf. apply wlp_mono.
  intros b s'' k'' Hs's''. etransitivity; eassumption.
Qed.

Lemma preserva_para_cada {A} (R : St -> St -> Prop) `{!PreOrder R}
  (xs : list A) (f : A -> M St unit) :
  (forall x, preserva R (f x)) -> preserva R (para_cada xs f).
Proof.
  intros Hf. induction xs as [|x xs IH]; simpl.
  - apply preserva_ret, _.
  - apply preserva_bind; [apply _ | apply Hf | intros _; exact IH].
Qed.

Lemma preserva_dividir (R : St -> St -> Prop) `{!Reflexive R} a b :
  preserva R (dividir a b).
Proof.
  unfold dividir. destruct (b =? 0).
  - apply preserva_lanzar.
  - apply preserva_ret, _.
Qed.

Lemma termina_bind {A B} (c : M St A) (f : A -> M St B) s k :
  termina c s k ->
  (forall a s' k', c s k = Ok (a, s', k') -> termina (f a) s' k') ->
  termina (bind c f) s k.
Proof.
  unfold termina, wp, bind. destruct (c s k) as [[[a s'] k']|e]; [|tauto].
  intros _ H. apply (H a s' k'). reflexivity.
Qed.

Lemma termina_ret {A} (a : A) (s : St) k : termina (ret a) s k.
Proof. exact I. Qed.

Lemma termina_leer (s : St) k : termina leer s k.
Proof. exact I. Qed.

Lemma termina_modificar (f : St -> St) (s : St) k : termina (modificar f) s k.
Proof. exact I. Qed.

Lemma termina_dividir a b (s : St) k : b <> 0 -> termina (dividir a b) s k.
Proof. intros Hb. unfold termina, wp. rewrite dividir_no_cero by exact Hb. exact I. Qed.

(** A loop returns when an invariant that every iteration re-establishes
    makes every iteration return. *)
Lemma termina_para_cada {A} (R : St -> St -> Prop) (I : St -> Prop)
  (xs : list A) (f : A -> M St unit) s k :
  (forall x, preserva R (f x)) ->
  (forall s s', I s -> R s s' -> I s') ->
  (forall x s k, x ∈ xs -> I s -> termina (f x) s k) ->
  I s -> termina (para_cada xs f) s k.
Proof.
  intros HR HI Hf. revert s k.
  induction xs as [|x xs IH]; intros s k Hs; simpl.
  - exact Logic.I.
  - apply termina_bind.
    + apply Hf; [left | exact Hs].
    + intros [] s' k' Heq. apply IH.
      * intros y s0 k0 Hy. apply Hf. right. exact Hy.
      * apply (HI s s' Hs). exact (preserva_Ok R _ _ _ _ _ _ (HR x) Heq).
Qed.

End Reglas.

(** ** The relations of a run are preorders *)

#[global] Instance evol_usuario_preorder : PreOrder evol_usuario.
Proof.
  split.
  - intros u. unfold evol_usuario. repeat split; auto; lia.
  - intros u v w (H1 & H2 & H3 & H4 & H5 & H6 & H7 & H8)
      (G1 & G2 & G3 & G4 & G5 & G6 & G7 & G8).
    unfold evol_usuario.
    split; [congruence|]. split; [congruence|]. split; [congruence|].
    split; [congruence|]. split; [congruence|]. split; [auto|]. split; lia.
Qed.

#[global] Instance evol_chatbot_preorder : PreOrder evol_chatbot.
Proof.
  split.
  - intros c. unfold evol_chatbot. repeat split; lia.
  - intros a b c (H1 & H2 & H3 & H4) (G1 & G2 & G3 & G4).
    unfold evol_chatbot. repeat split; try congruence. lia.
Qed.

#[global] Instance extiende_metricas_preorder : PreOrder extiende_metricas.
Proof.
  split.
  - intros ms. unfold extiende_metricas. repeat split; reflexivity.
  - intros a b c (H1 & H2 & H3 & H4 & H5 & H6) (G1 & G2 & G3 & G4 & G5 & G6).
    unfold extiende_metricas. repeat split; etransitivity; eassumption.
Qed.

Lemma Forall2_evol_refl (us : list Usuario) : Forall2 evol_usuario us us.
Proof. induction us; constructor; auto. reflexivity. Qed.

Lemma Forall2_evol_trans (us vs ws : list Usuario) :
  Forall2 evol_usuario us vs -> Forall2 evol_usuario vs ws ->
  Forall2 evol_usuario us ws.
Proof.
  intros H. revert ws. induction H as [|u v us vs Huv _ IH]; intros ws Hw.
  - inversion Hw. constructor.
  - inversion Hw as [|? w ? ws' Hvw Hrest]; subst. constructor.
    + etransitivity; eassumption.
    + apply IH. exact Hrest.
Qed.

#[global] Instance evoluciona_preorder : PreOrder evoluciona.
Proof.
  split.
  - intros m. unfold evoluciona.
    split; [reflexivity|]. split; [reflexivity|]. split; [reflexivity|].
    split; [apply Forall2_evol_refl|]. split; reflexivity.
  - intros a b c (H1 & H2 & H3 & H4 & H5 & H6) (G1 & G2 & G3 & G4 & G5 & G6).
    unfold evoluciona.
    split; [congruence|]. split; [congruence|].
    split; [etransitivity; eassumption|].
    split; [eapply Forall2_evol_trans; eassumption|].
    split; etransitivity; eassumption.
Qed.

#[global] Instance avanza_preorder : PreOrder avanza.
Proof.
  split.
  - intros m. split; reflexivity.
  - intros a b c [H1 H2] [G1 G2]. split; [etransitivity; eassumption | congruence].
Qed.

Lemma avanza_evoluciona (m m' : Modelo) : avanza m m' -> evoluciona m m'.
Proof. intros [H _]. exact H. Qed.

Lemma evoluciona_length (m m' : Modelo) :
  evoluciona m m' -> length (usuarios m') = length (usuarios m).
Proof.
  intros (_ & _ & _ & H & _). symmetry. eapply Forall2_length. exact H.
Qed.

Lemma estable_evoluciona (n : nat) (m m' : Modelo) :
  estable n m -> evoluciona m m' -> estable n m'.
Proof.
  intros (Hcap & Hlen & Hpos) Hev.
  pose proof (evoluciona_length _ _ Hev) as Hl.
  destruct Hev as (_ & _ & (Hc & _) & Hus & _).
  split; [congruence|]. split; [congruence|].
  clear Hl Hlen. induction Hus as [|u v us vs Huv _ IH].
  - constructor.
  - inversion Hpos; subst. constructor; [|auto].
    destruct Huv as (_ & _ & _ & -> & -> & _). assumption.
Qed.

Lemma estable_avanza (n : nat) (m m' : Modelo) :
  estable n m -> avanza m m' -> estable n m'.
Proof. intros H [Hev _]. eapply estable_evoluciona; eassumption. Qed.

Lemma estable_poblada (n : nat) (m : Modelo) : estable n m -> poblada n m.
Proof. intros (_ & H). exact H. Qed.

Lemma poblada_evoluciona (n : nat) (m m' : Modelo) :
  poblada n m -> evoluciona m m' -> poblada n m'.
Proof.
  intros (Hlen & Hpos) Hev.
  pose proof (evoluciona_length _ _ Hev) as Hl.
  destruct Hev as (_ & _ & _ & Hus & _).
  split; [congruence|].
  clear Hl Hlen. induction Hus as [|u v us vs Huv _ IH].
  - constructor.
  - inversion Hpos; subst. constructor; [|auto].
    destruct Huv as (_ & _ & _ & -> & -> & _). assumption.
Qed.

Lemma poblada_avanza (n : nat) (m m' : Modelo) :
  poblada n m -> avanza m m' -> poblada n m'.
Proof. intros H [Hev _]. eapply poblada_evoluciona; eassumption. Qed.

(** ** The draws *)

Lemma unitario_rango (w : N) : (0 <= unitario w < 1)%Q.
Proof.
  unfold unitario, Qle, Qlt. simpl Qnum. simpl Qden.
  assert (H : (w mod 2 ^ 53 < 2 ^ 53)%N) by (apply N.mod_lt; discriminate).
  apply N2Z.inj_lt in H.
  change (Z.of_N (2 ^ 53)) with (Z.pos (2 ^ 53)) in H.
  pose proof (N2Z.is_nonneg (w mod 2 ^ 53)). lia.
Qed.

Lemma permutacion_reemplazo {A} (l : list A) (j : nat) (x y : A) :
  l !! j = Some x -> y :: l ≡ₚ x :: <[j := y]> l.
Proof.
  revert j. induction l as [|z l IH]; intros [|j] Hj; simpl in *; try discriminate.
  - injection Hj as ->. apply Permutation_swap.
  - transitivity (z :: y :: l); [apply Permutation_swap|].
    transitivity (z :: x :: <[j := y]> l); [|apply Permutation_swap].
    apply Permutation_skip. exact (IH j Hj).
Qed.

(** One step of the selection loop removes exactly the chosen element from
    the pool. *)
Lemma permutacion_extraccion {A} (pool : list A) (j : nat) (x y : A) :
  pool !! j = Some x -> last pool = Some y ->
  pool ≡ₚ x :: take (length pool - 1) (<[j := y]> pool).
Proof.
  intros Hj Hlast.
  destruct (last_Some pool y) as [[init ->] _]; [exact Hlast|].
  rewrite length_app. simpl length.
  replace (length init + 1 - 1)%nat with (length init) by lia.
  destruct (decide (j < length init)%nat) as [Hlt|Hge].
  - rewrite lookup_app_l in Hj by exact Hlt.
    rewrite insert_app_l by exact Hlt.
    rewrite take_app_length'; [|rewrite length_insert; reflexivity].
    rewrite <- (permutacion_reemplazo init j x y Hj).
    rewrite Permutation_app_comm. reflexivity.
  - pose proof (lookup_lt_Some _ _ _ Hj) as Hb.
    rewrite length_app in Hb. simpl in Hb.
    assert (j = length init) as -> by lia.
    rewrite list_lookup_middle in Hj by reflexivity. injection Hj as <-.
    rewrite insert_app_r_alt by lia. rewrite Nat.sub_diag. simpl.
    rewrite take_app_length.
    rewrite Permutation_app_comm. reflexivity.
Qed.

Section Azar.
Variable cinta : nat -> N.
Context {St : Type}.

Lemma random_Ok (s : St) (k : nat) :
  random cinta s k = Ok (unitario (cinta k), s, S k).
Proof. reflexivity. Qed.

Lemma uniform_Ok (a b : Q) (s : St) (k : nat) :
  uniform cinta a b s k = Ok (uniforme a b (unitario (cinta k)), s, S k).
Proof. reflexivity. Qed.

Lemma randbelow_Ok (n : nat) (s : St) (k : nat) :
  exists j, randbelow cinta n s k = Ok (j, s, S k) /\ (n <> 0%nat -> (j < n)%nat).
Proof.
  eexists. split; [reflexivity|]. intros Hn.
  destruct (Nat.eqb_spec n 0); [contradiction|].
  assert (H : (cinta k mod N.of_nat n < N.of_nat n)%N) by (apply N.mod_lt; lia).
  lia.
Qed.

Lemma choice_Ok {A} (xs : list A) (s : St) (k : nat) :
  xs <> [] ->
  exists x, choice cinta xs s k = Ok (x, s, S k) /\ x ∈ xs.
Proof.
  intros Hne. unfold choice, bind.
  destruct (randbelow_Ok (length xs) s k) as (j & -> & Hj).
  assert (Hlen : length xs <> 0%nat) by (destruct xs; simpl; congruence).
  destruct (lookup_lt_is_Some_2 xs j (Hj Hlen)) as [x Hx].
  rewrite Hx. exists x. split; [reflexivity|].
  eapply list_elem_of_lookup_2. exact Hx.
Qed.

Lemma sample_bucle_Ok {A} (n : nat) (pool : list A) (s : St) (k : nat) :
  (n <= length pool)%nat ->
  exists sel,
    sample_bucle cinta n pool s k = Ok (sel, s, (k + n)%nat) /\
    length sel = n /\ sel ⊆+ pool.
Proof.
  revert pool k. induction n as [|n IH]; intros pool k Hn.
  - exists []. simpl. unfold ret. rewrite Nat.add_0_r.
    split; [reflexivity|]. split; [reflexivity|]. apply submseteq_nil_l.
  - simpl. unfold bind.
    destruct (randbelow_Ok (length pool) s k) as (j & -> & Hj).
    assert (Hlen : length pool <> 0%nat) by lia.
    destruct (lookup_lt_is_Some_2 pool j (Hj Hlen)) as [x Hx].
    rewrite Hx.
    destruct (last pool) as [y|] eqn:Hlast.
    2:{ apply last_None in Hlast. subst pool. simpl in Hn. lia. }
    pose proof (permutacion_extraccion pool j x y Hx Hlast) as Hperm.
    set (pool' := take (length pool - 1) (<[j := y]> pool)) in *.
    assert (Hlen' : length pool' = (length pool - 1)%nat).
    { apply Permutation_length in Hperm. simpl in Hperm. lia. }
    destruct (IH pool' (S k)) as (resto & -> & Hl & Hsub); [lia|].
    exists (x :: resto). unfold ret.
    split; [f_equal; f_equal; lia|]. split; [simpl; lia|].
    rewrite Hperm. apply submseteq_skip. exact Hsub.
Qed.

Lemma sample_Ok {A} (population : list A) (n : Z) (s : St) (k : nat) :
  0 <= n <= Z.of_nat (length population) ->
  exists sel,
    sample cinta population n s k = Ok (sel, s, (k + Z.to_nat n)%nat) /\
    length sel = Z.to_nat n /\ sel ⊆+ population.
Proof.
  intros Hn. unfold sample.
  destruct (Z.ltb_spec n 0); [lia|].
  destruct (Z.ltb_spec (Z.of_nat (length population)) n); [lia|].
  simpl. apply sample_bucle_Ok. lia.
Qed.

Lemma sample_negativo {A} (population : list A) (n : Z) (s : St) (k : nat) :
  n < 0 -> sample cinta population n s k = Lanza ValueError.
Proof.
  intros Hn. unfold sample. destruct (Z.ltb_spec n 0); [reflexivity|lia].
Qed.

Context (R : St -> St -> Prop) `{!PreOrder R}.

Lemma preserva_random : preserva R (random cinta).
Proof. intros s k. unfold wlp. rewrite random_Ok. reflexivity. Qed.

Lemma preserva_uniform a b : preserva R (uniform cinta a b).
Proof. intros s k. unfold wlp. rewrite uniform_Ok. reflexivity. Qed.

Lemma preserva_randbelow n : preserva R (randbelow cinta n).
Proof. intros s k. unfold wlp, randbelow. reflexivity. Qed.

Lemma preserva_choice {A} (xs : list A) : preserva R (choice cinta xs).
Proof.
  unfold choice. apply preserva_bind; [apply _ | apply preserva_randbelow |].
  intros j. destruct (xs !! j).
  - apply preserva_ret, _.
  - apply preserva_lanzar.
Qed.

Lemma preserva_sample_bucle {A} (n : nat) (pool : list A) :
  preserva R (sample_bucle cinta n pool).
Proof.
  revert pool. induction n as [|n IH]; intros pool; simpl.
  - apply preserva_ret, _.
  - apply preserva_bind; [apply _ | apply preserva_randbelow |].
    intros j. destruct (pool !! j); [|apply preserva_lanzar].
    destruct (last pool); [|apply preserva_lanzar].
    apply preserva_bind; [apply _ | apply IH |].
    intros resto. apply preserva_ret, _.
Qed.

Lemma preserva_sample {A} (population : list A) (n : Z) :
  preserva R (sample cinta population n).
Proof.
  unfold sample. destruct (_ || _).
  - apply preserva_lanzar.
  - apply preserva_sample_bucle.
Qed.

End Azar.

(** ** Every step of the engine keeps the relations of a run *)

Lemma Forall2_evol_alter (f : Usuario -> Usuario) (p : nat) (us : list Usuario) :
  (forall u, evol_usuario u (f u)) ->
  Forall2 evol_usuario us (alter f p us).
Proof.
  intros Hf. revert p. induction us as [|u us IH]; intros [|p]; simpl.
  - constructor.
  - constructor.
  - constructor; [apply Hf | apply Forall2_evol_refl].
  - constructor; [reflexivity | apply IH].
Qed.

Lemma avanza_usuarios (m : Modelo) (us : list Usuario) :
  Forall2 evol_usuario (usuarios m) us -> avanza m (con_usuarios us m).
Proof.
  intros H. split; [|reflexivity].
  unfold evoluciona. simpl.
  split; [reflexivity|]. split; [reflexivity|]. split; [reflexivity|].
  split; [exact H|]. split; reflexivity.
Qed.

Lemma avanza_chatbot (m : Modelo) (c : Chatbot) :
  evol_chatbot (chatbot m) c -> avanza m (con_chatbot c m).
Proof.
  intros H. split; [|reflexivity].
  unfold evoluciona. simpl.
  split; [reflexivity|]. split; [reflexivity|]. split; [exact H|].
  split; [apply Forall2_evol_refl|]. split; reflexivity.
Qed.

Lemma avanza_eventos (m : Modelo) (es : list Evento) :
  avanza m (con_eventos (eventos_viralizacion m ++ es) m).
Proof.
  split; [|reflexivity].
  unfold evoluciona. simpl.
  split; [reflexivity|]. split; [reflexivity|]. split; [reflexivity|].
  split; [apply Forall2_evol_refl|]. split; [reflexivity|].
  exists es. reflexivity.
Qed.

Lemma avanza_tiempo_actual (m : Modelo) (t : Z) : avanza m (con_tiempo_actual t m).
Proof.
  split; [|reflexivity].
  unfold evoluciona. simpl.
  split; [reflexivity|]. split; [reflexivity|]. split; [reflexivity|].
  split; [apply Forall2_evol_refl|]. split; reflexivity.
Qed.

Lemma evoluciona_metricas (m : Modelo) (ms : Metricas) :
  extiende_metricas (metricas m) ms -> evoluciona m (con_metricas ms m).
Proof.
  intros H. unfold evoluciona. simpl.
  split; [reflexivity|]. split; [reflexivity|]. split; [reflexivity|].
  split; [apply Forall2_evol_refl|]. split; [exact H | reflexivity].
Qed.

Lemma evol_usuario_con_estado (e : Estado) :
  e <> inactivo -> forall u, evol_usuario u (con_estado e u).
Proof. intros He u. unfold evol_usuario. simpl. repeat split; auto; lia. Qed.

Lemma evol_usuario_registrar_interaccion (t : Z) (u : Usuario) :
  evol_usuario u (registrar_interaccion t u).
Proof. unfold evol_usuario. simpl. repeat split; auto; lia. Qed.

Lemma evol_usuario_registrar_error (u : Usuario) :
  evol_usuario u (registrar_error u).
Proof. unfold evol_usuario. simpl. repeat split; auto; lia. Qed.

Lemma preserva_leer_usuario (R : Modelo -> Modelo -> Prop) `{!Reflexive R} (p : nat) :
  preserva R (leer_usuario p).
Proof.
  intros m k. unfold wlp, leer_usuario. destruct (usuarios m !! p); [reflexivity|exact I].
Qed.

Lemma preserva_modificar_usuario (p : nat) (f : Usuario -> Usuario) :
  (forall u, evol_usuario u (f u)) -> preserva avanza (modificar_usuario p f).
Proof.
  intros Hf. apply preserva_modificar. intros m.
  apply avanza_usuarios. apply Forall2_evol_alter. exact Hf.
Qed.

Lemma preserva_en_chatbot {A} (c : M Chatbot A) :
  preserva evol_chatbot c -> preserva avanza (en_chatbot c).
Proof.
  intros Hc m k. unfold wlp, en_chatbot.
  destruct (c (chatbot m) k) as [[[a cb] k']|e] eqn:Heq; [|exact I].
  apply avanza_chatbot. exact (preserva_Ok _ _ _ _ _ _ _ Hc Heq).
Qed.

Lemma preserva_evoluciona {A} (c : M Modelo A) :
  preserva avanza c -> preserva evoluciona c.
Proof.
  intros H m k. specialize (H m k). revert H. apply wlp_mono.
  intros a m' k'. apply avanza_evoluciona.
Qed.

(** The structural part of a proof that a computation keeps a relation. *)
Ltac preservar :=
  repeat match goal with
    | |- preserva _ (bind _ _) => apply preserva_bind; [apply _ | | intros ?]
    | |- preserva _ (ret _) => apply preserva_ret; apply _
    | |- preserva _ leer => apply preserva_leer; apply _
    | |- preserva _ (lanzar _) => apply preserva_lanzar
    | |- preserva _ (random _) => apply preserva_random; apply _
    | |- preserva _ (uniform _ _ _) => apply preserva_uniform; apply _
    | |- preserva _ (choice _ _) => apply preserva_choice; apply _
    | |- preserva _ (sample _ _ _) => apply preserva_sample; apply _
    | |- preserva _ (dividir _ _) => apply preserva_dividir; apply _
    | |- preserva _ (leer_usuario _) => apply preserva_leer_usuario; apply _
    | |- preserva _ (para_cada _ _) => apply preserva_para_cada; [apply _ | intros ?]
    | |- preserva _ (if ?b then _ else _) => destruct b
    | |- preserva _ (match ?x with _ => _ end) => destruct x
    end.

Section Motor.
Variable cinta : nat -> N.

Lemma generar_error_Ok (c : Chatbot) (k : nat) :
  generar_error cinta c k =
    Ok (Qltb (unitario (cinta k)) (probabilidad_error c), c, S k).
Proof. reflexivity. Qed.

Lemma preserva_generar_error : preserva evol_chatbot (generar_error cinta).
Proof. intros c k. unfold wlp. rewrite generar_error_Ok. reflexivity. Qed.

Lemma preserva_actualizar_capacidad (n : Z) :
  preserva evol_chatbot (actualizar_capacidad n).
Proof.
  intros c k. unfold wlp.
  destruct (Z.eq_dec (capacidad_maxima c) 0) as [H0|Hne].
  - unfold actualizar_capacidad, bind, modificar, leer. simpl.
    rewrite H0. exact I.
  - rewrite actualizar_capacidad_ok by exact Hne.
    unfold evol_chatbot. simpl. repeat split; lia.
Qed.

Lemma preserva_simular_interaccion (p : nat) :
  preserva avanza (_simular_interaccion_usuario cinta p).
Proof.
  unfold _simular_interaccion_usuario. preservar.
  - apply preserva_modificar_usuario, evol_usuario_registrar_interaccion.
  - apply preserva_en_chatbot, preserva_generar_error.
  - apply preserva_modificar. intros m. apply avanza_chatbot.
    unfold evol_chatbot. simpl. repeat split; lia.
  - apply preserva_modificar_usuario, evol_usuario_registrar_error.
Qed.

Lemma preserva_afectar (origen p : nat) : preserva avanza (afectar origen p).
Proof.
  unfold afectar. preservar.
  - apply preserva_modificar_usuario, evol_usuario_con_estado. discriminate.
  - apply preserva_modificar. intros m. apply avanza_eventos.
Qed.

Lemma preserva_simular_propagacion (origen : nat) :
  preserva avanza (_simular_propagacion_error cinta origen).
Proof.
  unfold _simular_propagacion_error. preservar. apply preserva_afectar.
Qed.

Lemma preserva_interactuar (p : nat) : preserva avanza (interactuar cinta p).
Proof.
  unfold interactuar.
  apply preserva_bind; [apply _ | apply preserva_simular_interaccion |].
  intros [|]; preservar.
  - apply preserva_simular_propagacion.
  - apply preserva_modificar_usuario, evol_usuario_con_estado. discriminate.
Qed.

Lemma preserva_fase_interacciones : preserva avanza (fase_interacciones cinta).
Proof. unfold fase_interacciones. preservar. apply preserva_interactuar. Qed.

Lemma preserva_decaer (p : nat) : preserva avanza (decaer cinta p).
Proof.
  unfold decaer. preservar.
  apply preserva_modificar_usuario, evol_usuario_con_estado. discriminate.
Qed.

Lemma preserva_fase_decaimiento : preserva avanza (fase_decaimiento cinta).
Proof. unfold fase_decaimiento. preservar. apply preserva_decaer. Qed.

Lemma preserva_activar_por_red (q : Q) (p : nat) :
  preserva avanza (activar_por_red cinta q p).
Proof.
  unfold activar_por_red. preservar.
  apply preserva_modificar_usuario, evol_usuario_con_estado. discriminate.
Qed.

Lemma preserva_fase_red (t a : Z) : preserva avanza (fase_red cinta t a).
Proof. unfold fase_red. preservar; apply preserva_activar_por_red. Qed.

Lemma preserva_calcular_percepcion :
  preserva avanza _calcular_percepcion_publica.
Proof. unfold _calcular_percepcion_publica. preservar. Qed.

Lemma preserva_registrar_metricas (a c : Z) :
  preserva evoluciona (registrar_metricas a c).
Proof.
  unfold registrar_metricas,
    anotar_usuarios_activos, anotar_usuarios_conscientes, anotar_carga_sistema,
    anotar_errores_generados, anotar_tiempo_respuesta, anotar_percepcion_publica.
  preservar.
  all: try (apply preserva_evoluciona, preserva_calcular_percepcion).
  all: apply preserva_modificar; intros m; apply evoluciona_metricas;
    unfold extiende_metricas; simpl;
    repeat split; first [reflexivity | eexists; reflexivity].
Qed.

Lemma preserva_paso (t : Z) : preserva evoluciona (paso cinta t).
Proof.
  unfold paso. preservar.
  - apply preserva_modificar. intros m. apply avanza_evoluciona, avanza_tiempo_actual.
  - apply preserva_evoluciona, preserva_en_chatbot, preserva_actualizar_capacidad.
  - apply preserva_evoluciona, preserva_fase_interacciones.
  - apply preserva_evoluciona, preserva_fase_decaimiento.
  - apply preserva_evoluciona, preserva_fase_red.
  - apply preserva_registrar_metricas.
Qed.

Lemma preserva_sembrar : preserva avanza (sembrar cinta).
Proof.
  unfold sembrar. preservar.
  - apply preserva_modificar_usuario, evol_usuario_con_estado. discriminate.
  - apply preserva_interactuar.
Qed.

Lemma preserva_ejecutar_simulacion : preserva evoluciona (ejecutar_simulacion cinta).
Proof.
  unfold ejecutar_simulacion. preservar.
  - apply preserva_evoluciona, preserva_sembrar.
  - apply preserva_paso.
Qed.

End Motor.

(** ** Awareness never returns to dormant within a run *)

Lemma preserva_etapa (cinta : nat -> N) (c : M Modelo unit) :
  etapa cinta c -> preserva evoluciona c.
Proof.
  intros [].
  - apply preserva_evoluciona, preserva_simular_propagacion.
  - apply preserva_evoluciona, preserva_interactuar.
  - apply preserva_evoluciona, preserva_decaer.
  - apply preserva_evoluciona, preserva_activar_por_red.
  - apply preserva_evoluciona, preserva_fase_interacciones.
  - apply preserva_evoluciona, preserva_fase_decaimiento.
  - apply preserva_evoluciona, preserva_fase_red.
  - apply preserva_registrar_metricas.
  - apply preserva_paso.
  - apply preserva_para_cada; [apply _ | apply preserva_paso].
  - apply preserva_evoluciona, preserva_sembrar.
  - apply preserva_ejecutar_simulacion.
Qed.

Lemma evoluciona_lookup (m m' : Modelo) (i : nat) (u : Usuario) :
  evoluciona m m' -> usuarios m !! i = Some u ->
  exists u', usuarios m' !! i = Some u' /\ evol_usuario u u'.
Proof.
  intros (_ & _ & _ & H & _) Hi.
  destruct (Forall2_lookup_l _ _ _ _ _ H Hi) as (u' & Hu' & Hev).
  exists u'. auto.
Qed.

(** C9.  For every step of a run (a propagation, an interaction, a decay,
    a network activation, each phase, a tick, any stretch of ticks, the
    seeding, the whole run), from every state: when the step returns, each
    agent that was aware or reporting before it is aware or reporting
    after it. *)
Theorem sin_regreso_a_inactivo (cinta : nat -> N) (c : M Modelo unit)
  (m m' : Modelo) (k k' : nat) (i : nat) (u : Usuario) :
  etapa cinta c ->
  c m k = Ok (tt, m', k') ->
  usuarios m !! i = Some u ->
  estado u = consciente \/ estado u = activo ->
  exists u', usuarios m' !! i = Some u' /\
             (estado u' = consciente \/ estado u' = activo).
Proof.
  intros Hc Hrun Hi Hu.
  pose proof (preserva_Ok _ _ _ _ _ _ _ (preserva_etapa cinta c Hc) Hrun) as Hev.
  destruct (evoluciona_lookup m m' i u Hev Hi) as (u' & Hu' & Hevu).
  exists u'. split; [exact Hu'|].
  destruct Hevu as (_ & _ & _ & _ & _ & Hest & _).
  assert (Hne : estado u <> inactivo) by (destruct Hu as [-> | ->]; discriminate).
  specialize (Hest Hne). destruct (estado u'); [contradiction | auto | auto].
Qed.

Lemma sin_regreso_a_inactivo_witness :
  exists m' k' u',
    ejecutar_simulacion cinta_ejemplo modelo_ejemplo 0%nat = Ok (tt, m', k') /\
    usuarios m' !! 2%nat = Some u' /\
    (estado u' = consciente \/ estado u' = activo).
Proof.
  destruct (ejecutar_simulacion cinta_ejemplo modelo_ejemplo 0%nat)
    as [[[[] m'] k']|e] eqn:Hrun; [|vm_compute in Hrun; discriminate].
  destruct (sin_regreso_a_inactivo cinta_ejemplo
              (ejecutar_simulacion cinta_ejemplo) modelo_ejemplo m' 0%nat k' 2%nat
              (con_estado activo (nuevo_usuario 2 normal 0.75 0.5 3.5)))
    as (u' & Hu' & Hest).
  - constructor.
  - exact Hrun.
  - reflexivity.
  - right. reflexivity.
  - exists m', k', u'. auto.
Defined.

(** ** The failure counter *)

#[global] Instance mismos_errores_preorder : PreOrder mismos_errores.
Proof.
  split.
  - intros m. reflexivity.
  - intros a b c H1 H2. unfold mismos_errores in *. congruence.
Qed.

Ltac sin_errores :=
  preservar;
  try (apply preserva_modificar; intros ?; reflexivity).

Section Contador.
Variable cinta : nat -> N.

Lemma errores_afectar (origen p : nat) : preserva mismos_errores (afectar origen p).
Proof. unfold afectar. sin_errores. Qed.

Lemma errores_propagacion (origen : nat) :
  preserva mismos_errores (_simular_propagacion_error cinta origen).
Proof. unfold _simular_propagacion_error. sin_errores. apply errores_afectar. Qed.

Lemma errores_decaer (p : nat) : preserva mismos_errores (decaer cinta p).
Proof. unfold decaer. sin_errores. Qed.

Lemma errores_activar_por_red (q : Q) (p : nat) :
  preserva mismos_errores (activar_por_red cinta q p).
Proof. unfold activar_por_red. sin_errores. Qed.

Lemma errores_fase_decaimiento : preserva mismos_errores (fase_decaimiento cinta).
Proof. unfold fase_decaimiento. sin_errores. apply errores_decaer. Qed.

Lemma errores_fase_red (t a : Z) : preserva mismos_errores (fase_red cinta t a).
Proof. unfold fase_red. sin_errores; apply errores_activar_por_red. Qed.

Lemma errores_registrar_metricas (a c : Z) :
  preserva mismos_errores (registrar_metricas a c).
Proof.
  unfold registrar_metricas, _calcular_percepcion_publica,
    anotar_usuarios_activos, anotar_usuarios_conscientes, anotar_carga_sistema,
    anotar_errores_generados, anotar_tiempo_respuesta, anotar_percepcion_publica.
  sin_errores.
Qed.

Lemma errores_actualizar_capacidad (n : Z) :
  preserva mismos_errores (en_chatbot (actualizar_capacidad n)).
Proof.
  intros m k. unfold wlp, en_chatbot.
  destruct (Z.eq_dec (capacidad_maxima (chatbot m)) 0) as [H0|Hne].
  - unfold actualizar_capacidad, bind, modificar, leer. simpl. rewrite H0. exact I.
  - rewrite actualizar_capacidad_ok by exact Hne. reflexivity.
Qed.

Lemma errores_simular_interaccion (p : nat) (m m' : Modelo) (k k' : nat) (b : bool) :
  _simular_interaccion_usuario cinta p m k = Ok (b, m', k') ->
  errores_totales (chatbot m') =
    errores_totales (chatbot m) + (if b then 1 else 0).
Proof.
  unfold _simular_interaccion_usuario, bind, random, leer_usuario, leer,
    modificar_usuario, modificar, en_chatbot, generar_error, ret.
  destruct (usuarios m !! p) as [u|]; [|discriminate].
  destruct (Qltb _ (probabilidad_interaccion u)).
  - simpl. destruct (Qltb _ _); intros H; injection H as <- <- <-; simpl; lia.
  - intros H; injection H as <- <- <-. lia.
Qed.

(** What one call of [_simular_interaccion_usuario] does, draw by draw:
    the first draw decides whether the agent interacts; only then is
    [generar_error] called, on the second draw; the call reports a failure
    when both draws fall below their thresholds, and that is when the
    counter of the responder and the counter of the agent go up by one. *)
Lemma simular_interaccion_Ok (p : nat) (m : Modelo) (k : nat) (u : Usuario) :
  usuarios m !! p = Some u ->
  let interactua := Qltb (unitario (cinta k)) (probabilidad_interaccion u) in
  let falla := Qltb (unitario (cinta (S k))) (probabilidad_error (chatbot m)) in
  exists m' k',
    _simular_interaccion_usuario cinta p m k = Ok (interactua && falla, m', k') /\
    errores_totales (chatbot m') =
      errores_totales (chatbot m) + (if interactua && falla then 1 else 0) /\
    chatbot m' =
      con_errores_totales
        (errores_totales (chatbot m) + (if interactua && falla then 1 else 0))
        (chatbot m) /\
    (interactua = true ->
       k' = S (S k) /\
       generar_error cinta (chatbot m) (S k) = Ok (falla, chatbot m, S (S k)) /\
       usuarios m' =
         alter (fun v => if falla then registrar_error v else v) p
           (alter (registrar_interaccion (tiempo_actual m)) p (usuarios m))) /\
    (interactua = false -> m' = m /\ k' = S k).
Proof.
  intros Hu interactua falla.
  unfold _simular_interaccion_usuario, bind, random, leer_usuario, leer,
    modificar_usuario, modificar, en_chatbot, generar_error, ret.
  unfold bind, random, leer, ret.
  rewrite Hu. fold interactua.
  destruct interactua eqn:Ei.
  - proyectar. fold falla. destruct falla eqn:Ef.
    + eexists. eexists. split; [reflexivity|]. proyectar.
      split; [reflexivity|]. split; [reflexivity|].
      split; [|discriminate]. intros _. split; [reflexivity|]. split; reflexivity.
    + eexists. eexists. split; [reflexivity|]. proyectar. cbn [andb].
      split; [lia|]. split; [destruct (chatbot m); unfold con_errores_totales; simpl; f_equal; lia|].
      split; [|discriminate]. intros _. split; [reflexivity|]. split; [reflexivity|].
      symmetry. apply list_eq. intros i.
      destruct (decide (i = p)) as [->|Hne].
      * rewrite list_lookup_alter_eq.
        match goal with |- _ <$> ?x = ?x => destruct x; reflexivity end.
      * rewrite list_lookup_alter_ne by congruence. reflexivity.
  - eexists. eexists. split; [reflexivity|].
    split; [simpl; lia|].
    split; [destruct (chatbot m); unfold con_errores_totales; simpl; f_equal; lia|].
    split; [discriminate|]. intros _. split; reflexivity.
Qed.

Lemma errores_interactuar (p : nat) (m m' : Modelo) (k k' : nat) :
  interactuar cinta p m k = Ok (tt, m', k') ->
  exists b m1 k1,
    _simular_interaccion_usuario cinta p m k = Ok (b, m1, k1) /\
    errores_totales (chatbot m') =
      errores_totales (chatbot m) + (if b then 1 else 0).
Proof.
  unfold interactuar, bind at 1.
  destruct (_simular_interaccion_usuario cinta p m k) as [[[b m1] k1]|e] eqn:Hsim;
    [|discriminate].
  intros Hrest. exists b, m1, k1. split; [reflexivity|].
  rewrite <- (errores_simular_interaccion _ _ _ _ _ _ Hsim).
  destruct b.
  - assert (Hp : preserva mismos_errores
                   (_simular_propagacion_error cinta p ;;
                    modificar_usuario p (con_estado activo))).
    { sin_errores. apply errores_propagacion. }
    exact (preserva_Ok _ _ _ _ _ _ _ Hp Hrest).
  - injection Hrest as <- <-. reflexivity.
Qed.

End Contador.


(** ** Propagation: [_simular_propagacion_error] *)

Lemma posiciones_desde_elem (e : Estado) (us : list Usuario) (base p : nat) :
  p ∈ posiciones_desde e base us <->
  (base <= p)%nat /\ exists v, us !! (p - base)%nat = Some v /\ estado v = e.
Proof.
  revert base. induction us as [|u us IH]; intros base; simpl.
  - split; [intros H; inversion H | intros (_ & v & Hv & _); discriminate].
  - assert (Hrec : p ∈ posiciones_desde e (S base) us <->
                   (base < p)%nat /\
                   exists v, (u :: us) !! (p - base)%nat = Some v /\ estado v = e).
    { rewrite IH. split.
      - intros (Hle & v & Hv & He). split; [lia|]. exists v. split; [|exact He].
        replace (p - base)%nat with (S (p - S base)) by lia. exact Hv.
      - intros (Hlt & v & Hv & He). split; [lia|]. exists v. split; [|exact He].
        replace (p - base)%nat with (S (p - S base)) in Hv by lia. exact Hv. }
    destruct (decide (estado u = e)) as [Hu|Hu].
    + rewrite elem_of_cons, Hrec. split.
      * intros [-> | (Hlt & Hv)].
        -- split; [lia|]. exists u. rewrite Nat.sub_diag. auto.
        -- split; [lia | exact Hv].
      * intros (Hle & v & Hv & He).
        destruct (decide (p = base)) as [->|Hne]; [left; reflexivity|].
        right. split; [lia|]. exists v. auto.
    + rewrite Hrec. split.
      * intros (Hlt & Hv). split; [lia | exact Hv].
      * intros (Hle & v & Hv & He).
        destruct (decide (p = base)) as [->|Hne].
        -- rewrite Nat.sub_diag in Hv. injection Hv as <-. contradiction.
        -- split; [lia|]. exists v. auto.
Qed.

Lemma posiciones_desde_NoDup (e : Estado) (us : list Usuario) (base : nat) :
  NoDup (posiciones_desde e base us).
Proof.
  revert base. induction us as [|u us IH]; intros base; simpl.
  - constructor.
  - destruct (decide (estado u = e)); [|apply IH].
    apply NoDup_cons. split; [|apply IH].
    rewrite posiciones_desde_elem. intros (Hle & _). lia.
Qed.

Lemma posiciones_con_estado_elem (e : Estado) (us : list Usuario) (p : nat) :
  p ∈ posiciones_con_estado e us <-> exists v, us !! p = Some v /\ estado v = e.
Proof.
  unfold posiciones_con_estado. rewrite posiciones_desde_elem.
  rewrite Nat.sub_0_r. split; [intros (_ & H); exact H | intros H; split; [lia | exact H]].
Qed.

Lemma posiciones_con_estado_NoDup (e : Estado) (us : list Usuario) :
  NoDup (posiciones_con_estado e us).
Proof. apply posiciones_desde_NoDup. Qed.

Lemma submseteq_NoDup {A} (l k : list A) : l ⊆+ k -> NoDup k -> NoDup l.
Proof.
  intros Hsub Hk. destruct (submseteq_Permutation _ _ Hsub) as [r Hr].
  rewrite Hr in Hk. apply NoDup_app in Hk. tauto.
Qed.

Lemma marcar_lookup (sel : list nat) (us : list Usuario) (p : nat) :
  marcar sel us !! p =
    if decide (p ∈ sel) then con_estado consciente <$> us !! p else us !! p.
Proof.
  unfold marcar. revert us. induction sel as [|q sel IH]; intros us; simpl.
  - destruct (decide (p ∈ [])) as [H|_]; [inversion H | reflexivity].
  - rewrite IH. rewrite list_lookup_alter.
    destruct (decide (q = p)) as [->|Hne].
    + destruct (decide (p ∈ p :: sel)) as [_|H]; [|exfalso; apply H; left].
      destruct (decide (p ∈ sel)); [|reflexivity].
      destruct (us !! p); reflexivity.
    + destruct (decide (p ∈ sel)) as [Hin|Hnin].
      * destruct (decide (p ∈ q :: sel)) as [_|H]; [reflexivity|].
        exfalso. apply H. right. exact Hin.
      * destruct (decide (p ∈ q :: sel)) as [H|_]; [|reflexivity].
        apply elem_of_cons in H. destruct H; [congruence | contradiction].
Qed.

Lemma marcar_length (sel : list nat) (us : list Usuario) :
  length (marcar sel us) = length us.
Proof.
  unfold marcar. revert us. induction sel as [|q sel IH]; intros us; simpl.
  - reflexivity.
  - rewrite IH. apply length_alter.
Qed.

Lemma id_en_alter (p q : nat) (e : Estado) (us : list Usuario) :
  id_en (alter (con_estado e) q us) p = id_en us p.
Proof.
  unfold id_en. rewrite list_lookup_alter.
  destruct (decide (q = p)) as [->|_]; [|reflexivity].
  destruct (us !! p); reflexivity.
Qed.

Lemma afectar_Ok (origen p : nat) (m : Modelo) (k : nat) (u v : Usuario) :
  usuarios m !! origen = Some u ->
  usuarios m !! p = Some v ->
  afectar origen p m k =
    Ok (tt,
        con_eventos (eventos_viralizacion m ++
                     [mkEvento (tiempo_actual m) (id u) (id v) (tipo u)])
          (con_usuarios (alter (con_estado consciente) p (usuarios m)) m),
        k).
Proof.
  intros Hu Hv.
  unfold afectar, bind, modificar_usuario, modificar, leer, leer_usuario. simpl.
  assert (Ho : alter (con_estado consciente) p (usuarios m) !! origen =
               Some (if decide (p = origen) then con_estado consciente u else u)).
  { rewrite list_lookup_alter. destruct (decide (p = origen)) as [->|_].
    - rewrite Hu. reflexivity.
    - exact Hu. }
  assert (Hp : alter (con_estado consciente) p (usuarios m) !! p =
               Some (con_estado consciente v)).
  { rewrite list_lookup_alter. destruct (decide (p = p)) as [_|H]; [|contradiction].
    rewrite Hv. reflexivity. }
  rewrite Ho. simpl. rewrite Hp. simpl.
  destruct (decide (p = origen)); reflexivity.
Qed.

Lemma para_cada_afectar_Ok (origen : nat) (u : Usuario) (sel : list nat)
  (m : Modelo) (k : nat) :
  usuarios m !! origen = Some u ->
  (forall p, p ∈ sel -> (p < length (usuarios m))%nat) ->
  para_cada sel (afectar origen) m k =
    Ok (tt,
        con_eventos (eventos_viralizacion m ++
                     map (fun p => mkEvento (tiempo_actual m) (id u)
                                     (id_en (usuarios m) p) (tipo u)) sel)
          (con_usuarios (marcar sel (usuarios m)) m),
        k).
Proof.
  revert m u. induction sel as [|p sel IH]; intros m u Hu Hsel.
  - simpl. unfold ret. rewrite app_nil_r. destruct m; reflexivity.
  - simpl. unfold bind at 1.
    destruct (lookup_lt_is_Some_2 (usuarios m) p) as [v Hv].
    { apply Hsel. left. }
    rewrite (afectar_Ok origen p m k u v Hu Hv).
    rewrite (IH _ (if decide (p = origen) then con_estado consciente u else u)).
    + simpl. f_equal. f_equal. f_equal. unfold con_eventos, con_usuarios. simpl.
      f_equal. rewrite <- app_assoc. f_equal. simpl.
      assert (Hid : id (if decide (p = origen) then con_estado consciente u else u) = id u)
        by (destruct (decide (p = origen)); reflexivity).
      assert (Htipo : tipo (if decide (p = origen) then con_estado consciente u else u) = tipo u)
        by (destruct (decide (p = origen)); reflexivity).
      rewrite Hid, Htipo. f_equal.
      * unfold id_en. rewrite Hv. reflexivity.
      * apply map_ext. intros q. rewrite id_en_alter. reflexivity.
    + simpl. rewrite list_lookup_alter.
      destruct (decide (p = origen)) as [->|_]; [rewrite Hu|]; [reflexivity|exact Hu].
    + intros q Hq. simpl. rewrite length_alter. apply Hsel. right. exact Hq.
Qed.

Lemma int_trunca (x : Q) :
  (0 <= x)%Q -> 0 <= int x /\ (inject_Z (int x) <= x < inject_Z (int x) + 1)%Q.
Proof.
  intros Hx.
  assert (Hnum : 0 <= Qnum x).
  { unfold Qle in Hx. simpl in Hx. lia. }
  assert (Hint : int x = Qfloor x).
  { unfold int, Qfloor. destruct x as [a b]. simpl in *.
    apply Z.quot_div_nonneg; lia. }
  rewrite Hint. split; [|split].
  - rewrite <- Hint. unfold int. apply Z.quot_pos; lia.
  - apply Qfloor_le.
  - pose proof (Qlt_floor x) as H. rewrite inject_Z_plus in H. exact H.
Qed.

Lemma uniforme_rango (a b x : Q) :
  (0 <= a)%Q -> (0 <= redondear (b - a))%Q -> (0 <= x <= 1)%Q ->
  (redondear a <= uniforme a b x <= redondear (a + redondear (redondear (b - a))))%Q.
Proof.
  intros Ha Hc [Hx0 Hx1]. unfold uniforme. set (c := redondear (b - a)) in *.
  assert (H0 : (0 <= c * x)%Q) by (apply Qmult_le_0_compat; assumption).
  assert (H1 : (c * x <= c)%Q).
  { nra. }
  pose proof (redondear_no_negativo _ H0) as G0.
  pose proof (redondear_monotono _ _ H0 H1) as G1.
  split; apply redondear_monotono; lra.
Qed.

(** Closed comparisons of doubles, by evaluation. *)
Ltac cerrado :=
  match goal with
  | |- (_ <= _)%Q => vm_compute; discriminate
  | |- (_ < _)%Q => vm_compute; reflexivity
  | |- (_ == _)%Q => vm_compute; reflexivity
  end.

(** [random.uniform(a, b)] stays within [a, b], both ends included, when
    [a] and [b] are doubles with [a + (b - a) = b] in doubles. *)
Lemma uniforme_entre (a b x : Q) :
  (0 <= a)%Q -> (0 <= redondear (b - a))%Q ->
  (redondear a == a)%Q ->
  (redondear (a + redondear (redondear (b - a))) == b)%Q ->
  (0 <= x <= 1)%Q ->
  (a <= uniforme a b x <= b)%Q.
Proof.
  intros Ha Hc Ea Eb Hx. destruct (uniforme_rango a b x Ha Hc Hx) as [H1 H2].
  rewrite Ea in H1. rewrite Eb in H2. split; assumption.
Qed.

Lemma contar_alter_inactivo (us : list Usuario) (p base : nat) (v : Usuario) :
  us !! p = Some v -> estado v = inactivo ->
  S (length (posiciones_desde inactivo base (alter (con_estado consciente) p us))) =
  length (posiciones_desde inactivo base us).
Proof.
  revert p base. induction us as [|u us IH]; intros [|p] base Hp Hv;
    simpl in *; try discriminate.
  - injection Hp as ->. rewrite Hv.
    destruct (decide (inactivo = inactivo)) as [_|H]; [|contradiction].
    destruct (decide (consciente = inactivo)) as [H|_]; [discriminate|].
    reflexivity.
  - destruct (decide (estado u = inactivo)); simpl; rewrite <- (IH p _ Hp Hv);
      reflexivity.
Qed.

Lemma contar_marcar (sel : list nat) (us : list Usuario) :
  NoDup sel ->
  (forall p, p ∈ sel -> exists v, us !! p = Some v /\ estado v = inactivo) ->
  contar inactivo (marcar sel us) = contar inactivo us - Z.of_nat (length sel).
Proof.
  unfold contar, posiciones_con_estado, marcar.
  revert us. induction sel as [|q sel IH]; intros us Hnd Hsel; simpl.
  - lia.
  - apply NoDup_cons in Hnd. destruct Hnd as [Hq Hnd].
    destruct (Hsel q) as (v & Hv & Hest); [left|].
    rewrite IH.
    + pose proof (contar_alter_inactivo us q 0 v Hv Hest). lia.
    + exact Hnd.
    + intros p Hp. destruct (Hsel p) as (w & Hw & Hwe); [right; exact Hp|].
      exists w. split; [|exact Hwe].
      rewrite list_lookup_alter_ne; [exact Hw|].
      intros ->. contradiction.
Qed.


(** ** The pool algorithm of [random.sample] *)




Lemma indices_validos (cinta : nat -> N) (k n len : nat) :
  (n <= len)%nat -> validos (indices_de_muestra cinta k n len) len.
Proof.
  revert k len. induction n as [|n IH]; intros k len Hn; simpl; [exact I|].
  split.
  - destruct (Nat.eqb_spec len 0); [lia|].
    assert (H : (cinta k mod N.of_nat len < N.of_nat len)%N) by (apply N.mod_lt; lia).
    lia.
  - apply IH. lia.
Qed.



Section Propagacion.
Variable cinta : nat -> N.

(** The draw of a propagation step and the count it yields. *)
Lemma afectados_rango (k : nat) (u : Usuario) :
  (0 <= influencia u * probabilidad_compartir u)%Q ->
  let r := uniforme 0.5 1.5 (unitario (cinta k)) in
  let producto :=
    redondear (redondear (influencia u * probabilidad_compartir u) * r) in
  let afectados := int producto in
  (0.5 <= r <= 1.5)%Q /\ 0 <= afectados /\
  (inject_Z afectados <= producto < inject_Z afectados + 1)%Q.
Proof.
  intros Hpos r producto afectados.
  destruct (unitario_rango (cinta k)) as [Hx0 Hx1].
  assert (Hr : (0.5 <= r <= 1.5)%Q).
  { apply uniforme_entre; [cerrado | cerrado | cerrado | cerrado | lra]. }
  assert (Hprod : (0 <= producto)%Q).
  { apply redondear_no_negativo. apply Qmult_le_0_compat; [|lra].
    apply redondear_no_negativo. exact Hpos. }
  destruct (int_trunca _ Hprod) as [Hint0 Hint].
  split; [exact Hr|]. split; [exact Hint0 | exact Hint].
Qed.

(** A propagation step, given what [random.sample] selects. *)
Lemma propagacion_con_seleccion (origen : nat) (m : Modelo) (k : nat)
  (u : Usuario) (sel : list nat) :
  usuarios m !! origen = Some u ->
  let r := uniforme 0.5 1.5 (unitario (cinta k)) in
  let afectados :=
    int (redondear (redondear (influencia u * probabilidad_compartir u) * r)) in
  let disponibles := posiciones_con_estado inactivo (usuarios m) in
  let n := Z.min afectados (Z.of_nat (length disponibles)) in
  sample cinta disponibles n m (S k) = Ok (sel, m, (S k + Z.to_nat n)%nat) ->
  (forall p, p ∈ sel -> (p < length (usuarios m))%nat) ->
  _simular_propagacion_error cinta origen m k =
    Ok (tt,
        con_eventos
          (eventos_viralizacion m ++
           map (fun p => mkEvento (tiempo_actual m) (id u)
                           (id_en (usuarios m) p) (tipo u)) sel)
          (con_usuarios (marcar sel (usuarios m)) m),
        (k + 1 + Z.to_nat n)%nat).
Proof.
  intros Hu r afectados disponibles n Hsample Hval.
  unfold _simular_propagacion_error, bind at 1, leer_usuario. rewrite Hu.
  unfold bind at 1. rewrite uniform_Ok.
  unfold bind at 1, leer. unfold bind at 1.
  fold r. fold afectados. fold disponibles. fold n.
  rewrite Hsample.
  rewrite (para_cada_afectar_Ok origen u sel m _ Hu Hval).
  f_equal. f_equal. lia.
Qed.


End Propagacion.

(** A tape whose every word is the draw at which the double product
    3.5 * 0.5 * r rounds up to 2.0 while the real product stays below 2. *)
Example propagacion_producto_redondeado :
  let cinta := fun _ : nat => 5790342378047780%N in
  let r := uniforme 0.5 1.5 (unitario (cinta 0%nat)) in
  (3.5 * 0.5 * (0.5 + (1.5 - 0.5) * unitario (cinta 0%nat)) < 2)%Q /\
  (redondear (redondear (3.5 * 0.5) * r) == 2)%Q /\
  exists m' k',
    _simular_propagacion_error cinta 0%nat modelo_propagacion 0%nat = Ok (tt, m', k') /\
    contar inactivo (usuarios modelo_propagacion) - contar inactivo (usuarios m') = 2.
Proof.
  split; [vm_compute; reflexivity|]. split; [vm_compute; reflexivity|].
  eexists. eexists. split; vm_compute; reflexivity.
Qed.



(** Outside the data model: an agent of negative influence makes the
    count negative and [random.sample] raises. *)
Example propagacion_influencia_negativa :
  _simular_propagacion_error cinta_media 0%nat
    (con_usuarios
       [con_estado activo (nuevo_usuario 0 critico 0.5 0.5 (-4)); 
        nuevo_usuario 1 normal 0.25 0.125 1.0]
       modelo_propagacion) 0%nat
  = Lanza ValueError.
Proof. vm_compute. reflexivity. Qed.

(** ** The network effect: [fase_red] *)

Lemma bind_Ok_inv {St A B} (c : M St A) (f : A -> M St B) s k r :
  bind c f s k = Ok r ->
  exists a s1 k1, c s k = Ok (a, s1, k1) /\ f a s1 k1 = Ok r.
Proof.
  unfold bind. destruct (c s k) as [[[a s1] k1]|e]; [|discriminate].
  intros H. exists a, s1, k1. auto.
Qed.

Lemma con_usuarios_eta (m : Modelo) : con_usuarios (usuarios m) m = m.
Proof. destruct m; reflexivity. Qed.


Section Red.
Variable cinta : nat -> N.

Lemma activar_por_red_Ok (prob : Q) (p : nat) (m : Modelo) (k : nat) :
  activar_por_red cinta prob p m k =
    Ok (tt,
        con_usuarios (if Qltb (unitario (cinta k)) prob
                      then alter (con_estado consciente) p (usuarios m)
                      else usuarios m) m,
        S k).
Proof.
  unfold activar_por_red, bind. rewrite random_Ok.
  destruct (Qltb _ prob); [reflexivity|].
  rewrite con_usuarios_eta. reflexivity.
Qed.

Lemma para_cada_activar_Ok (prob : Q) (sel : list nat) (m : Modelo) (k : nat) :
  para_cada sel (activar_por_red cinta prob) m k =
    Ok (tt, con_usuarios (red_aplicada cinta prob k sel (usuarios m)) m,
        (k + length sel)%nat).
Proof.
  revert m k. induction sel as [|p sel IH]; intros m k; simpl.
  - unfold ret. rewrite con_usuarios_eta, Nat.add_0_r. reflexivity.
  - unfold bind. rewrite activar_por_red_Ok. rewrite IH. simpl.
    f_equal. f_equal. lia.
Qed.




End Red.


(** ** A run returns *)

Lemma termina_bind_inv {St A B} (R : St -> St -> Prop) (Inv : St -> Prop)
  (c : M St A) (f : A -> M St B) (s : St) (k : nat) :
  preserva R c ->
  (forall s0 s1, Inv s0 -> R s0 s1 -> Inv s1) ->
  Inv s ->
  termina c s k ->
  (forall a s' k', Inv s' -> termina (f a) s' k') ->
  termina (bind c f) s k.
Proof.
  intros HR HInv Hs Hc Hf. apply termina_bind; [exact Hc|].
  intros a s' k' Heq. apply Hf. apply (HInv s s' Hs).
  exact (preserva_Ok R c s k a s' k' HR Heq).
Qed.

Lemma registrar_metricas_Ok (a c : Z) (m : Modelo) (k : nat) :
  capacidad_maxima (chatbot m) <> 0 ->
  exists carga percepcion,
    registrar_metricas a c m k =
      Ok (tt,
          con_metricas
            (mkMetricas
               (usuarios_activos (metricas m) ++ [a])
               (usuarios_conscientes (metricas m) ++ [c])
               (carga_sistema (metricas m) ++ [carga])
               (errores_generados (metricas m) ++ [errores_totales (chatbot m)])
               (tiempo_respuesta (metricas m) ++ [tiempo_respuesta_actual (chatbot m)])
               (percepcion_publica (metricas m) ++ [percepcion])) m,
          k) /\
    carga = carga_relativa (chatbot m) /\
    (0 <= percepcion <= 1)%Q.
Proof.
  intros Hcap.
  unfold registrar_metricas, anotar_usuarios_activos, anotar_usuarios_conscientes,
    anotar_carga_sistema, anotar_errores_generados, anotar_tiempo_respuesta,
    anotar_percepcion_publica, _calcular_percepcion_publica,
    bind, modificar, leer. simpl.
  rewrite dividir_no_cero by exact Hcap. simpl.
  rewrite dividir_no_cero by lia.
  rewrite dividir_no_cero by exact Hcap. simpl.
  eexists. eexists. split; [reflexivity|]. split; [reflexivity|].
  apply py_max_min_rango.
Qed.

Section Terminacion.
Variable cinta : nat -> N.

Lemma termina_simular_interaccion (p : nat) (m : Modelo) (k : nat) :
  (p < length (usuarios m))%nat ->
  termina (_simular_interaccion_usuario cinta p) m k.
Proof.
  intros Hp. destruct (lookup_lt_is_Some_2 _ _ Hp) as [u Hu].
  unfold termina, wp, _simular_interaccion_usuario, bind, random, leer_usuario,
    leer, modificar_usuario, modificar, en_chatbot, generar_error, ret.
  rewrite Hu. destruct (Qltb _ (probabilidad_interaccion u)); [|exact I].
  simpl. destruct (Qltb _ _); exact I.
Qed.

Lemma posiciones_con_estado_lt (e : Estado) (us : list Usuario) (p : nat) :
  p ∈ posiciones_con_estado e us -> (p < length us)%nat.
Proof.
  intros Hp. apply posiciones_con_estado_elem in Hp.
  destruct Hp as (v & Hv & _). eapply lookup_lt_Some. exact Hv.
Qed.

Lemma termina_propagacion (n p : nat) (m : Modelo) (k : nat) :
  poblada n m -> (p < n)%nat ->
  termina (_simular_propagacion_error cinta p) m k.
Proof.
  intros (Hlen & Hpos) Hp.
  destruct (lookup_lt_is_Some_2 (usuarios m) p) as [u Hu]; [lia|].
  assert (Hu0 : (0 <= influencia u * probabilidad_compartir u)%Q).
  { rewrite Forall_lookup in Hpos. exact (Hpos p u Hu). }
  destruct (afectados_rango cinta k u Hu0) as (_ & Hint0 & _).
  destruct (sample_Ok cinta (posiciones_con_estado inactivo (usuarios m))
              (Z.min (int (redondear
                             (redondear (influencia u * probabilidad_compartir u) *
                              uniforme 0.5 1.5 (unitario (cinta k)))))
                     (Z.of_nat (length (posiciones_con_estado inactivo (usuarios m)))))
              m (S k)) as (sel & Hsample & _ & Hsub); [lia|].
  unfold termina, wp.
  rewrite (propagacion_con_seleccion cinta p m k u sel Hu Hsample); [exact I|].
  intros q Hq. apply (posiciones_con_estado_lt inactivo).
  eapply elem_of_submseteq; eassumption.
Qed.

Lemma termina_interactuar (n p : nat) (m : Modelo) (k : nat) :
  poblada n m -> (p < n)%nat -> termina (interactuar cinta p) m k.
Proof.
  intros Hm Hp. unfold interactuar.
  apply (termina_bind_inv avanza (poblada n)).
  - apply preserva_simular_interaccion.
  - apply poblada_avanza.
  - exact Hm.
  - apply termina_simular_interaccion. destruct Hm as (-> & _). exact Hp.
  - intros [|] m1 k1 Hm1; [|exact I].
    apply termina_bind; [|intros; exact I].
    eapply termina_propagacion; eassumption.
Qed.

Lemma termina_fase_interacciones (n : nat) (m : Modelo) (k : nat) :
  estable n m -> termina (fase_interacciones cinta) m k.
Proof.
  intros Hm. unfold fase_interacciones.
  apply termina_bind; [exact I|]. intros self m0 k0 Heq.
  unfold leer in Heq. injection Heq as <- <- <-.
  apply (termina_para_cada avanza (estable n)).
  - intros p. apply preserva_interactuar.
  - apply estable_avanza.
  - intros p m1 k1 Hp Hm1.
    apply (termina_interactuar n); [apply estable_poblada; exact Hm1|].
    apply posiciones_con_estado_lt in Hp. destruct Hm as (_ & <- & _). exact Hp.
  - exact Hm.
Qed.

Lemma termina_decaer (p : nat) (m : Modelo) (k : nat) :
  (p < length (usuarios m))%nat -> termina (decaer cinta p) m k.
Proof.
  intros Hp. destruct (lookup_lt_is_Some_2 _ _ Hp) as [u Hu].
  unfold termina, wp, decaer, bind, leer_usuario. rewrite Hu.
  destruct (decide (estado u = activo)); [|exact I].
  rewrite random_Ok. destruct (Qltb _ _); exact I.
Qed.

Lemma termina_fase_decaimiento (n : nat) (m : Modelo) (k : nat) :
  estable n m -> termina (fase_decaimiento cinta) m k.
Proof.
  intros Hm. unfold fase_decaimiento.
  apply termina_bind; [exact I|]. intros self m0 k0 Heq.
  unfold leer in Heq. injection Heq as <- <- <-.
  apply (termina_para_cada avanza (estable n)).
  - intros p. apply preserva_decaer.
  - apply estable_avanza.
  - intros p m1 k1 Hp Hm1. apply termina_decaer.
    apply elem_of_seq in Hp.
    destruct Hm as (_ & Hl & _). destruct Hm1 as (_ & Hl1 & _). lia.
  - exact Hm.
Qed.

Lemma termina_fase_red (t a : Z) (m : Modelo) (k : nat) :
  termina (fase_red cinta t a) m k.
Proof.
  unfold termina, wp, fase_red.
  destruct ((0 <? t) && (t mod 5 =? 0)); [|exact I].
  unfold bind at 1, leer.
  destruct (posiciones_con_estado inactivo (usuarios m)) as [|p sel]; [exact I|].
  rewrite para_cada_activar_Ok. exact I.
Qed.

Lemma termina_actualizar_capacidad (a : Z) (m : Modelo) (k : nat) :
  capacidad_maxima (chatbot m) <> 0 ->
  termina (en_chatbot (actualizar_capacidad a)) m k.
Proof.
  intros Hcap. unfold termina, wp, en_chatbot.
  rewrite actualizar_capacidad_ok by exact Hcap. exact I.
Qed.

Lemma termina_registrar_metricas (a c : Z) (m : Modelo) (k : nat) :
  capacidad_maxima (chatbot m) <> 0 -> termina (registrar_metricas a c) m k.
Proof.
  intros Hcap.
  destruct (registrar_metricas_Ok a c m k Hcap) as (x & y & Hrun & _).
  unfold termina, wp. rewrite Hrun. exact I.
Qed.

Lemma termina_paso (n : nat) (t : Z) (m : Modelo) (k : nat) :
  estable n m -> termina (paso cinta t) m k.
Proof.
  intros Hm. unfold paso.
  apply (termina_bind_inv evoluciona (estable n)).
  { apply preserva_modificar. intros m0. apply avanza_evoluciona, avanza_tiempo_actual. }
  { apply estable_evoluciona. }
  { exact Hm. }
  { exact I. }
  intros [] m0 k0 Hm0.
  apply termina_bind; [exact I|]. intros self m0' k0' Heq.
  unfold leer in Heq. injection Heq as <- <- <-.
  apply (termina_bind_inv evoluciona (estable n)).
  { apply preserva_evoluciona, preserva_en_chatbot, preserva_actualizar_capacidad. }
  { apply estable_evoluciona. }
  { exact Hm0. }
  { apply termina_actualizar_capacidad. destruct Hm0 as [H _]. exact H. }
  intros [] m1 k1 Hm1.
  apply (termina_bind_inv evoluciona (estable n)).
  { apply preserva_evoluciona, preserva_fase_interacciones. }
  { apply estable_evoluciona. }
  { exact Hm1. }
  { eapply termina_fase_interacciones. exact Hm1. }
  intros [] m2 k2 Hm2.
  apply (termina_bind_inv evoluciona (estable n)).
  { apply preserva_evoluciona, preserva_fase_decaimiento. }
  { apply estable_evoluciona. }
  { exact Hm2. }
  { eapply termina_fase_decaimiento. exact Hm2. }
  intros [] m3 k3 Hm3.
  apply (termina_bind_inv evoluciona (estable n)).
  { apply preserva_evoluciona, preserva_fase_red. }
  { apply estable_evoluciona. }
  { exact Hm3. }
  { apply termina_fase_red. }
  intros [] m4 k4 Hm4.
  apply termina_registrar_metricas. destruct Hm4 as [H _]. exact H.
Qed.

Lemma termina_pasos (n : nat) (ts : list Z) (m : Modelo) (k : nat) :
  estable n m -> termina (para_cada ts (paso cinta)) m k.
Proof.
  intros Hm. apply (termina_para_cada evoluciona (estable n)).
  - intros t. apply preserva_paso.
  - apply estable_evoluciona.
  - intros t m1 k1 _ Hm1. apply (termina_paso n). exact Hm1.
  - exact Hm.
Qed.

Lemma termina_sembrar (n : nat) (m : Modelo) (k : nat) :
  poblada n m -> termina (sembrar cinta) m k.
Proof.
  intros Hm. unfold sembrar.
  apply termina_bind; [exact I|]. intros self m0 k0 Heq.
  unfold leer in Heq. injection Heq as <- <- <-.
  destruct (sample_Ok cinta (seq 0 (length (usuarios m)))
              (Z.min 10 (Z.of_nat (length (usuarios m)))) m k)
    as (sel & Hsample & _ & Hsub).
  { rewrite length_seq. lia. }
  apply termina_bind; [unfold termina, wp; rewrite Hsample; exact I|].
  intros sel' m0 k0 Heq. rewrite Hsample in Heq. injection Heq as <- <- <-.
  apply (termina_bind_inv avanza (poblada n)).
  { apply preserva_para_cada; [apply _|]. intros p.
    apply preserva_modificar_usuario, evol_usuario_con_estado. discriminate. }
  { apply poblada_avanza. }
  { exact Hm. }
  { apply (termina_para_cada avanza (fun _ => True)).
    - intros p. apply preserva_modificar_usuario, evol_usuario_con_estado. discriminate.
    - auto.
    - intros; exact I.
    - exact I. }
  intros [] m1 k1 Hm1.
  destruct sel as [|p0 sel0] eqn:Hsel; [exact I|].
  destruct (choice_Ok cinta (p0 :: sel0) m1 k1) as (p & Hchoice & Hp); [discriminate|].
  apply termina_bind; [unfold termina, wp; rewrite Hchoice; exact I|].
  intros p' m2 k2 Heq. rewrite Hchoice in Heq. injection Heq as <- <- <-.
  apply (termina_interactuar n); [exact Hm1|].
  assert (Hin : p ∈ seq 0 (length (usuarios m))).
  { eapply elem_of_submseteq; [exact Hp | exact Hsub]. }
  apply elem_of_seq in Hin. destruct Hm as (Hl & _). lia.
Qed.

Lemma termina_ejecutar_simulacion (n : nat) (m : Modelo) (k : nat) :
  estable n m -> termina (ejecutar_simulacion cinta) m k.
Proof.
  intros Hm. unfold ejecutar_simulacion.
  apply (termina_bind_inv avanza (estable n)).
  { apply preserva_sembrar. }
  { apply estable_avanza. }
  { exact Hm. }
  { apply (termina_sembrar n), estable_poblada. exact Hm. }
  intros [] m1 k1 Hm1.
  apply termina_bind; [exact I|]. intros self m0 k0 Heq.
  unfold leer in Heq. injection Heq as <- <- <-.
  apply (termina_pasos n). exact Hm1.
Qed.

End Terminacion.

(** ** A run appends to what the series already hold *)

Lemma anota_cero (ms : Metricas) : anota 0 ms ms.
Proof.
  exists [], [], [], [], [], []. rewrite !app_nil_r.
  destruct ms; simpl; repeat split; reflexivity.
Qed.

Lemma anota_trans (i j : nat) (a b c : Metricas) :
  anota i a b -> anota j b c -> anota (i + j) a c.
Proof.
  intros (a1 & a2 & a3 & a4 & a5 & a6 & -> & H1 & H2 & H3 & H4 & H5 & H6)
         (b1 & b2 & b3 & b4 & b5 & b6 & -> & G1 & G2 & G3 & G4 & G5 & G6).
  exists (a1 ++ b1), (a2 ++ b2), (a3 ++ b3), (a4 ++ b4), (a5 ++ b5), (a6 ++ b6).
  simpl. rewrite <- !app_assoc, !length_app.
  repeat split; try reflexivity; lia.
Qed.

Lemma registrar_metricas_capacidad (a c : Z) (m m' : Modelo) (k k' : nat) :
  registrar_metricas a c m k = Ok (tt, m', k') ->
  capacidad_maxima (chatbot m) <> 0.
Proof.
  intros Hrun H0. revert Hrun.
  unfold registrar_metricas, anotar_usuarios_activos, anotar_usuarios_conscientes,
    bind, modificar, leer. simpl. rewrite H0. rewrite dividir_cero. discriminate.
Qed.

Lemma registrar_metricas_anota (a c : Z) (m m' : Modelo) (k k' : nat) :
  registrar_metricas a c m k = Ok (tt, m', k') ->
  anota 1 (metricas m) (metricas m').
Proof.
  intros Hrun.
  pose proof (registrar_metricas_capacidad _ _ _ _ _ _ Hrun) as Hcap.
  destruct (registrar_metricas_Ok a c m k Hcap) as (x & y & Heq & _).
  rewrite Heq in Hrun. injection Hrun as <- <-. simpl.
  eexists _, _, _, _, _, _. split; [reflexivity|]. repeat split; reflexivity.
Qed.

Section Acumulacion.
Variable cinta : nat -> N.

Lemma paso_anota (t : Z) (m m' : Modelo) (k k' : nat) :
  paso cinta t m k = Ok (tt, m', k') -> anota 1 (metricas m) (metricas m').
Proof.
  intros Hrun. unfold paso in Hrun.
  apply bind_Ok_inv in Hrun. destruct Hrun as ([] & m0 & k0 & H0 & Hrun).
  unfold modificar in H0. injection H0 as <- <-.
  apply bind_Ok_inv in Hrun. destruct Hrun as (self & m0 & k0 & H0 & Hrun).
  unfold leer in H0. injection H0 as <- <- <-.
  apply bind_Ok_inv in Hrun. destruct Hrun as ([] & m1 & k1 & H1 & Hrun).
  apply bind_Ok_inv in Hrun. destruct Hrun as ([] & m2 & k2 & H2 & Hrun).
  apply bind_Ok_inv in Hrun. destruct Hrun as ([] & m3 & k3 & H3 & Hrun).
  apply bind_Ok_inv in Hrun. destruct Hrun as ([] & m4 & k4 & H4 & Hreg).
  apply registrar_metricas_anota in Hreg.
  pose proof (preserva_Ok _ _ _ _ _ _ _
                (preserva_en_chatbot _ (preserva_actualizar_capacidad _)) H1) as [_ E1].
  pose proof (preserva_Ok _ _ _ _ _ _ _ (preserva_fase_interacciones cinta) H2) as [_ E2].
  pose proof (preserva_Ok _ _ _ _ _ _ _ (preserva_fase_decaimiento cinta) H3) as [_ E3].
  pose proof (preserva_Ok _ _ _ _ _ _ _ (preserva_fase_red cinta _ _) H4) as [_ E4].
  simpl in E1. rewrite E4, E3, E2, E1 in Hreg. exact Hreg.
Qed.

Lemma pasos_anota (ts : list Z) (m m' : Modelo) (k k' : nat) :
  para_cada ts (paso cinta) m k = Ok (tt, m', k') ->
  anota (length ts) (metricas m) (metricas m').
Proof.
  revert m k. induction ts as [|t ts IH]; intros m k Hrun; simpl in *.
  - unfold ret in Hrun. injection Hrun as <- <-. apply anota_cero.
  - apply bind_Ok_inv in Hrun. destruct Hrun as ([] & m1 & k1 & H1 & Hrun).
    apply paso_anota in H1. apply IH in Hrun.
    exact (anota_trans 1 (length ts) _ _ _ H1 Hrun).
Qed.

Lemma ejecutar_simulacion_anota (m m' : Modelo) (k k' : nat) :
  ejecutar_simulacion cinta m k = Ok (tt, m', k') ->
  anota (Z.to_nat (tiempo_simulacion m)) (metricas m) (metricas m').
Proof.
  intros Hrun. unfold ejecutar_simulacion in Hrun.
  apply bind_Ok_inv in Hrun. destruct Hrun as ([] & m1 & k1 & H1 & Hrun).
  apply bind_Ok_inv in Hrun. destruct Hrun as (self & m0 & k0 & H0 & Hrun).
  unfold leer in H0. injection H0 as <- <- <-.
  pose proof (preserva_Ok _ _ _ _ _ _ _ (preserva_sembrar cinta) H1) as [Hev E1].
  destruct Hev as (_ & HT & _).
  apply pasos_anota in Hrun.
  unfold range in Hrun. rewrite length_map, length_seq in Hrun.
  rewrite E1, HT in Hrun. exact Hrun.
Qed.

Lemma resumir_Ok_inv (m m' : Modelo) (k k' : nat) (r : Resumen) :
  resumir m k = Ok (r, m', k') ->
  m' = m /\ k' = k /\
  max_lista_Z (usuarios_activos (metricas m)) = Some (max_usuarios_activos r) /\
  max_lista_Q (carga_sistema (metricas m)) = Some (max_carga r) /\
  last (errores_generados (metricas m)) = Some (errores_finales r) /\
  last (percepcion_publica (metricas m)) = Some (percepcion_final r).
Proof.
  unfold resumir, bind, leer, max_Z, max_Q, ultimo, ret, lanzar.
  destruct (max_lista_Z _) as [a|]; [|discriminate].
  destruct (max_lista_Q _) as [b|]; [|discriminate].
  destruct (last (errores_generados _)) as [c|]; [|discriminate].
  destruct (last (percepcion_publica _)) as [d|]; [|discriminate].
  intros H. injection H as <- <- <-. simpl. repeat split; reflexivity.
Qed.

End Acumulacion.

(** ** Scenario multipliers compound *)


Lemma resetear_Ok (m : Modelo) (k : nat) :
  _resetear_simulacion m k =
    Ok (tt,
        mkModelo (num_usuarios m) (tiempo_simulacion m) 0
          (mkChatbot (capacidad_maxima (chatbot m)) (tiempo_respuesta_base (chatbot m))
             (probabilidad_error (chatbot m)) 0 0 0.0)
          (map resetear_usuario (usuarios m)) metricas_vacias [],
        k).
Proof. reflexivity. Qed.

Lemma configurar_Ok (config : Escenario) (m : Modelo) (k : nat) :
  configurar_escenario config m k =
    Ok (tt,
        con_usuarios
          (map (fun u => con_influencia (influencia u * influencia_mult config)%Q u)
               (usuarios m))
          (con_chatbot (con_probabilidad_error (prob_error config) (chatbot m)) m),
        k).
Proof. reflexivity. Qed.

Lemma estable_configurar (n : nat) (config : Escenario) (m : Modelo) :
  (0 <= influencia_mult config)%Q ->
  estable n m ->
  estable n
    (con_usuarios
       (map (fun u => con_influencia (influencia u * influencia_mult config)%Q u)
            (usuarios m))
       (con_chatbot (con_probabilidad_error (prob_error config) (chatbot m)) m)).
Proof.
  intros Hmult (Hcap & Hlen & Hpos). split; [exact Hcap|]. split.
  - simpl. rewrite length_map. exact Hlen.
  - simpl. clear Hlen. induction Hpos as [|u us Hu _ IH]; simpl.
    + constructor.
    + constructor; [|exact IH]. simpl.
      assert (Heq : (influencia u * influencia_mult config * probabilidad_compartir u ==
                     influencia u * probabilidad_compartir u * influencia_mult config)%Q)
        by ring.
      rewrite Heq. apply Qmult_le_0_compat; assumption.
Qed.


Lemma max_lista_Z_app (xs ys : list Z) :
  ys <> [] -> exists x, max_lista_Z (xs ++ ys) = Some x.
Proof.
  intros Hys. destruct xs as [|x xs]; simpl.
  - destruct ys; [contradiction|]. eexists. reflexivity.
  - eexists. reflexivity.
Qed.

Lemma max_lista_Q_app (xs ys : list Q) :
  ys <> [] -> exists x, max_lista_Q (xs ++ ys) = Some x.
Proof.
  intros Hys. destruct xs as [|x xs]; simpl.
  - destruct ys; [contradiction|]. eexists. reflexivity.
  - eexists. reflexivity.
Qed.

Lemma last_app_no_vacia {A} (xs ys : list A) :
  ys <> [] -> exists x, last (xs ++ ys) = Some x.
Proof.
  intros Hys. destruct (last (xs ++ ys)) as [x|] eqn:Hl; [eauto|].
  apply last_None in Hl. apply app_eq_nil in Hl. destruct Hl. contradiction.
Qed.

Lemma termina_resumir (j : nat) (ms : Metricas) (m : Modelo) (k : nat) :
  (0 < j)%nat -> anota j ms (metricas m) -> termina resumir m k.
Proof.
  intros Hj (a & b & c & d & e & f & Hms & Ha & Hb & Hc & Hd & He & Hf).
  assert (Hne : forall A (l : list A), length l = j -> l <> []).
  { intros A l Hl ->. simpl in Hl. lia. }
  unfold termina, wp, resumir, bind, leer, max_Z, max_Q, ultimo. rewrite Hms. simpl.
  destruct (max_lista_Z_app (usuarios_activos ms) a (Hne _ _ Ha)) as [x1 ->].
  destruct (max_lista_Q_app (carga_sistema ms) c (Hne _ _ Hc)) as [x2 ->].
  destruct (last_app_no_vacia (errores_generados ms) d (Hne _ _ Hd)) as [x3 ->].
  destruct (last_app_no_vacia (percepcion_publica ms) f (Hne _ _ Hf)) as [x4 ->].
  exact I.
Qed.

Section Herencia.
Variable cinta : nat -> N.

(** C2.  From a state with a non-zero capacity and non-negative products
    of influence and share probability, [ejecutar_simulacion] returns, and
    nothing accumulated before it is cleared: each of the six series is the
    old series followed by exactly [tiempo_simulacion] new entries, the
    event log extends the old log, the failure counter is at least the old
    one, and each agent keeps its parameters, stays non-dormant if it was,
    and keeps at least its counters.  In [analizar_escenarios] nothing is
    reset before a scenario runs: the run of the first scenario is the run
    of [ejecutar_simulacion] from the inherited state itself, in which only
    the failure probability is replaced and every influence multiplied; it
    returns (for a multiplier that is not negative), appending to the
    inherited series and log and counting on from the inherited failure
    counter and the inherited agents.  The whole loop is then the summary
    of that state (peak active count and peak load are maxima over the
    concatenated series, final failures and final perception their last
    entries), followed by the reset, followed by the remaining scenarios
    from the reset state; the summary exists when the tick budget is
    positive. *)
Theorem ejecutar_simulacion_acumula (n : nat) (m : Modelo) (k : nat) :
  estable n m ->
  (exists m' k',
     ejecutar_simulacion cinta m k = Ok (tt, m', k') /\
     anota (Z.to_nat (tiempo_simulacion m)) (metricas m) (metricas m') /\
     eventos_viralizacion m `prefix_of` eventos_viralizacion m' /\
     errores_totales (chatbot m) <= errores_totales (chatbot m') /\
     Forall2 evol_usuario (usuarios m) (usuarios m')) /\
  (forall config escs res m2 k2,
     analizar_escenarios_de cinta (config :: escs) m k = Ok (res, m2, k2) ->
     exists resumen resto ms1,
       res = (nombre config, resumen) :: resto /\
       anota (Z.to_nat (tiempo_simulacion m)) (metricas m) ms1 /\
       max_lista_Z (usuarios_activos ms1) = Some (max_usuarios_activos resumen) /\
       max_lista_Q (carga_sistema ms1) = Some (max_carga resumen) /\
       last (errores_generados ms1) = Some (errores_finales resumen) /\
       last (percepcion_publica ms1) = Some (percepcion_final resumen)) /\
  (forall config,
     (0 <= influencia_mult config)%Q ->
     exists m1 k1 mr,
       ejecutar_simulacion cinta (configurado config m) k = Ok (tt, m1, k1) /\
       anota (Z.to_nat (tiempo_simulacion m)) (metricas m) (metricas m1) /\
       eventos_viralizacion m `prefix_of` eventos_viralizacion m1 /\
       errores_totales (chatbot m) <= errores_totales (chatbot m1) /\
       Forall2 evol_usuario (usuarios (configurado config m)) (usuarios m1) /\
       _resetear_simulacion m1 k1 = Ok (tt, mr, k1) /\
       (forall escs,
          analizar_escenarios_de cinta (config :: escs) m k =
            match resumir m1 k1 with
            | Ok (resumen, _, _) =>
                match analizar_escenarios_de cinta escs mr k1 with
                | Ok (resto, m2, k2) =>
                    Ok ((nombre config, resumen) :: resto, m2, k2)
                | Lanza e => Lanza e
                end
            | Lanza e => Lanza e
            end) /\
       (forall resumen ma ka,
          resumir m1 k1 = Ok (resumen, ma, ka) ->
          max_lista_Z (usuarios_activos (metricas m1)) =
            Some (max_usuarios_activos resumen) /\
          max_lista_Q (carga_sistema (metricas m1)) = Some (max_carga resumen) /\
          last (errores_generados (metricas m1)) = Some (errores_finales resumen) /\
          last (percepcion_publica (metricas m1)) = Some (percepcion_final resumen)) /\
       (0 < tiempo_simulacion m ->
        exists resumen, resumir m1 k1 = Ok (resumen, m1, k1))).
Proof.
  intros Hm. split; [|split].
  - pose proof (termina_ejecutar_simulacion cinta n m k Hm) as Hter.
    unfold termina, wp in Hter.
    destruct (ejecutar_simulacion cinta m k) as [[[[] m'] k']|e] eqn:Hrun; [|contradiction].
    exists m', k'. split; [reflexivity|].
    split; [exact (ejecutar_simulacion_anota cinta m m' k k' Hrun)|].
    pose proof (preserva_Ok _ _ _ _ _ _ _ (preserva_ejecutar_simulacion cinta) Hrun)
      as (_ & _ & (_ & _ & _ & Hle) & Hus & _ & Hev).
    auto.
  - intros config escs res m2 k2 Hrun. simpl in Hrun.
    apply bind_Ok_inv in Hrun. destruct Hrun as ([] & m0 & k0 & H0 & Hrun).
    apply bind_Ok_inv in Hrun. destruct Hrun as ([] & m1 & k1 & H1 & Hrun).
    apply bind_Ok_inv in Hrun. destruct Hrun as (resumen & m1' & k1' & Hres & Hrun).
    apply bind_Ok_inv in Hrun. destruct Hrun as ([] & m3 & k3 & _ & Hrun).
    apply bind_Ok_inv in Hrun. destruct Hrun as (resto & m4 & k4 & _ & Hrun).
    unfold ret in Hrun. injection Hrun as <- _ _.
    apply resumir_Ok_inv in Hres.
    destruct Hres as (_ & _ & R1 & R2 & R3 & R4).
    apply ejecutar_simulacion_anota in H1.
    unfold configurar_escenario, bind, modificar in H0. injection H0 as <- <-.
    simpl in H1.
    exists resumen, resto, (metricas m1). auto 10.
  - intros config Hmult.
    pose proof (estable_configurar n config m Hmult Hm) as Hm0.
    fold (configurado config m) in Hm0.
    pose proof (termina_ejecutar_simulacion cinta n _ k Hm0) as Hter.
    unfold termina, wp in Hter.
    destruct (ejecutar_simulacion cinta (configurado config m) k)
      as [[[[] m1] k1]|e] eqn:Hrun; [|contradiction].
    pose proof (ejecutar_simulacion_anota cinta _ _ _ _ Hrun) as Han.
    pose proof (preserva_Ok _ _ _ _ _ _ _ (preserva_ejecutar_simulacion cinta) Hrun)
      as (_ & HT & (_ & _ & _ & Hle) & Hus & _ & Hev).
    eexists m1, k1, _.
    split; [reflexivity|]. split; [exact Han|]. split; [exact Hev|].
    split; [exact Hle|]. split; [exact Hus|].
    split; [apply resetear_Ok|]. split; [|split].
    + intros escs. simpl. unfold bind at 1. rewrite configurar_Ok.
      fold (configurado config m). unfold bind at 1. rewrite Hrun.
      unfold bind at 1.
      destruct (resumir m1 k1) as [[[resumen ma] ka]|e] eqn:Hres; [|reflexivity].
      apply resumir_Ok_inv in Hres. destruct Hres as (-> & -> & _).
      unfold bind at 1. rewrite resetear_Ok. unfold bind at 1.
      destruct (analizar_escenarios_de cinta escs _ k1) as [[[resto m2] k2]|e];
        reflexivity.
    + intros resumen ma ka Hres. apply resumir_Ok_inv in Hres.
      destruct Hres as (_ & _ & R1 & R2 & R3 & R4). auto.
    + intros HTpos.
      assert (Hter2 : termina resumir m1 k1).
      { apply (termina_resumir (Z.to_nat (tiempo_simulacion m)) (metricas m));
          [lia | exact Han]. }
      unfold termina, wp in Hter2.
      destruct (resumir m1 k1) as [[[resumen ma] ka]|e] eqn:Hres; [|contradiction].
      pose proof (resumir_Ok_inv _ _ _ _ _ Hres) as (-> & -> & _).
      exists resumen. reflexivity.
Qed.

End Herencia.

Lemma estable_modelo_ejemplo : estable 12 modelo_ejemplo.
Proof.
  split; [simpl; lia|]. split; [reflexivity|].
  unfold modelo_ejemplo. simpl. repeat constructor; simpl; lra.
Qed.

Lemma ejecutar_simulacion_acumula_witness :
  (exists m' k' a,
     ejecutar_simulacion cinta_ejemplo modelo_con_historia 0%nat = Ok (tt, m', k') /\
     usuarios_activos (metricas m') = 99 :: a /\ length a = 6%nat) /\
  (exists resumen m2 k2,
     analizar_escenarios_de cinta_ejemplo [mkEscenario "Baja" 0.005 0.5]
       modelo_con_historia 0%nat = Ok ([("Baja"%string, resumen)], m2, k2) /\
     max_usuarios_activos resumen = 99 /\
     (12 < max_usuarios_activos resumen)).
Proof.
  destruct (ejecutar_simulacion_acumula cinta_ejemplo 12 modelo_con_historia
              0%nat estable_modelo_ejemplo) as (H1 & _ & H3).
  split.
  - destruct H1 as (m' & k' & Hrun & (a & b & c & d & e & f & Hms & Ha & _) & _).
    exists m', k', a. split; [exact Hrun|]. rewrite Hms. simpl.
    split; [reflexivity | exact Ha].
  - destruct (H3 (mkEscenario "Baja" 0.005 0.5))
      as (m1 & k1 & mr & Hrun & _ & _ & _ & _ & Hreset & Hloop & Hsum & Htot).
    { vm_compute. discriminate. }
    destruct Htot as [resumen Hres]; [reflexivity|].
    destruct (Hsum resumen m1 k1 Hres) as (Hmax & _).
    exists resumen, mr, k1. split.
    + rewrite Hloop, Hres. reflexivity.
    + vm_compute in Hrun. injection Hrun as <- _.
      vm_compute in Hmax. injection Hmax as Hmax.
      change (99 = max_usuarios_activos resumen) in Hmax.
      rewrite <- Hmax. split; [reflexivity | lia].
Defined.

Section Escenarios.
Variable cinta : nat -> N.

Lemma analizar_influencia (escs : list Escenario) (m m' : Modelo) (k k' : nat)
  (res : list (string * Resumen)) :
  analizar_escenarios_de cinta escs m k = Ok (res, m', k') ->
  map fst res = map nombre escs /\
  length (usuarios m') = length (usuarios m) /\
  forall i u, usuarios m !! i = Some u ->
    exists u', usuarios m' !! i = Some u' /\
      influencia u' = fold_left Qmult (map influencia_mult escs) (influencia u).
Proof.
  revert m k res. induction escs as [|config escs IH]; intros m k res Hrun; simpl in Hrun.
  - unfold ret in Hrun. injection Hrun as <- <- <-.
    split; [reflexivity|]. split; [reflexivity|].
    intros i u Hu. exists u. auto.
  - apply bind_Ok_inv in Hrun. destruct Hrun as ([] & m0 & k0 & H0 & Hrun).
    apply bind_Ok_inv in Hrun. destruct Hrun as ([] & m1 & k1 & H1 & Hrun).
    apply bind_Ok_inv in Hrun. destruct Hrun as (resumen & m2 & k2 & H2 & Hrun).
    apply bind_Ok_inv in Hrun. destruct Hrun as ([] & m3 & k3 & H3 & Hrun).
    apply bind_Ok_inv in Hrun. destruct Hrun as (resto & m4 & k4 & H4 & Hrun).
    unfold ret in Hrun. injection Hrun as <- <- <-.
    rewrite configurar_Ok in H0. injection H0 as <- <-.
    pose proof (preserva_Ok _ _ _ _ _ _ _ (preserva_ejecutar_simulacion cinta) H1) as Hev.
    apply resumir_Ok_inv in H2. destruct H2 as (-> & -> & _).
    rewrite resetear_Ok in H3. injection H3 as <- <-.
    destruct (IH _ _ _ H4) as (Hnames & Hlen & Hinf).
    split; [simpl; f_equal; exact Hnames|]. split.
    + rewrite Hlen. simpl. rewrite length_map.
      rewrite (evoluciona_length _ _ Hev). simpl. apply length_map.
    + intros i u Hu.
      assert (H0 : map (fun u => con_influencia (influencia u * influencia_mult config)%Q u)
                     (usuarios m) !! i =
                   Some (con_influencia (influencia u * influencia_mult config)%Q u)).
      { rewrite lookup_map, Hu. reflexivity. }
      destruct (evoluciona_lookup _ m1 i _ Hev H0) as (u1 & Hu1 & Hev1).
      destruct Hev1 as (_ & _ & _ & _ & Hinf1 & _). simpl in Hinf1.
      destruct (Hinf i (resetear_usuario u1)) as (u' & Hu' & Hinf').
      { simpl. rewrite lookup_map, Hu1. reflexivity. }
      exists u'. split; [exact Hu'|].
      rewrite Hinf'. simpl. rewrite Hinf1. reflexivity.
Qed.



End Escenarios.


(** ** Construction: [__init__] *)

(** [random.uniform] does return its upper end: at the largest draw the
    sum rounds up to it. *)
Example uniforme_extremo :
  let x := unitario 9007199254740991 in
  (x < 1)%Q /\
  (uniforme 0.5 1.5 x == 1.5)%Q /\
  (uniforme (doble 1.0) (doble 2.0) x == 2)%Q /\
  (uniforme (doble 0.4) (doble 0.7) x == doble 0.7)%Q.
Proof. repeat split; vm_compute; reflexivity. Qed.

Section Construccion.
Variable cinta : nat -> N.

(** The nine calls of [random.uniform] in [_crear_usuarios] stay within
    the doubles their literals denote, both ends included. *)
Lemma uniformes_de_creacion (x : Q) :
  (0 <= x <= 1)%Q ->
  ((doble 0.1 <= uniforme (doble 0.1) (doble 0.3) x <= doble 0.3)%Q /\
   (doble 0.05 <= uniforme (doble 0.05) (doble 0.15) x <= doble 0.15)%Q /\
   (1 <= uniforme (doble 1.0) (doble 2.0) x <= 2)%Q) /\
  ((doble 0.4 <= uniforme (doble 0.4) (doble 0.7) x <= doble 0.7)%Q /\
   (doble 0.3 <= uniforme (doble 0.3) (doble 0.6) x <= doble 0.6)%Q /\
   (3 <= uniforme (doble 3.0) (doble 8.0) x <= 8)%Q) /\
  ((doble 0.2 <= uniforme (doble 0.2) (doble 0.5) x <= doble 0.5)%Q /\
   (doble 0.6 <= uniforme (doble 0.6) (doble 0.9) x <= doble 0.9)%Q /\
   (10 <= uniforme (doble 10.0) (doble 50.0) x <= 50)%Q).
Proof.
  intros Hx.
  assert (E1 : (doble 1.0 == 1)%Q) by cerrado.
  assert (E2 : (doble 2.0 == 2)%Q) by cerrado.
  assert (E3 : (doble 3.0 == 3)%Q) by cerrado.
  assert (E8 : (doble 8.0 == 8)%Q) by cerrado.
  assert (E10 : (doble 10.0 == 10)%Q) by cerrado.
  assert (E50 : (doble 50.0 == 50)%Q) by cerrado.
  pose proof (uniforme_entre (doble 1.0) (doble 2.0) x
                ltac:(cerrado) ltac:(cerrado) ltac:(cerrado) ltac:(cerrado) Hx) as A.
  pose proof (uniforme_entre (doble 3.0) (doble 8.0) x
                ltac:(cerrado) ltac:(cerrado) ltac:(cerrado) ltac:(cerrado) Hx) as B.
  pose proof (uniforme_entre (doble 10.0) (doble 50.0) x
                ltac:(cerrado) ltac:(cerrado) ltac:(cerrado) ltac:(cerrado) Hx) as C.
  split; [|split]; (split; [|split]);
    first [ lra
          | apply uniforme_entre; [cerrado | cerrado | cerrado | cerrado | exact Hx] ].
Qed.

Lemma crear_usuario_Ok {St} (i : Z) (s : St) (k : nat) :
  exists u,
    crear_usuario cinta i s k = Ok (u, s, S (S (S (S k)))) /\
    id u = i /\ estado u = inactivo /\
    tiempo_ultima_interaccion u = 0 /\ interacciones_totales u = 0 /\
    errores_reportados u = 0 /\
    en_banda (unitario (cinta k)) u.
Proof.
  assert (U : forall j, (0 <= unitario (cinta j) <= 1)%Q).
  { intros j. pose proof (unitario_rango (cinta j)). lra. }
  destruct (uniformes_de_creacion _ (U (S k))) as ((A1 & _ & _) & (B1 & _ & _) & (C1 & _ & _)).
  destruct (uniformes_de_creacion _ (U (S (S k))))
    as ((_ & A2 & _) & (_ & B2 & _) & (_ & C2 & _)).
  destruct (uniformes_de_creacion _ (U (S (S (S k)))))
    as ((_ & _ & A3) & (_ & _ & B3) & (_ & _ & C3)).
  unfold crear_usuario, bind at 1. rewrite random_Ok.
  destruct (Qltb (unitario (cinta k)) (doble 0.8)) eqn:E1;
    [|destruct (Qltb (unitario (cinta k)) (doble 0.95)) eqn:E2];
    unfold bind; rewrite !uniform_Ok; unfold ret;
    (eexists; split; [reflexivity|]); do 5 (split; [reflexivity|]);
    unfold en_banda, en_rango_de_su_tipo, nuevo_usuario;
    cbn [tipo probabilidad_interaccion probabilidad_compartir influencia].
  - apply Qltb_lt in E1. split; [left; split; [exact E1 | reflexivity] | tauto].
  - apply Qltb_ge in E1. apply Qltb_lt in E2.
    split; [right; left; split; [split; assumption | reflexivity] | tauto].
  - apply Qltb_ge in E2.
    split; [right; right; split; [exact E2 | reflexivity] | tauto].
Qed.

Lemma crear_usuarios_bucle_Ok {St} (indices : list Z) (us : list Usuario)
  (s : St) (k : nat) :
  exists nuevos,
    crear_usuarios_bucle cinta indices us s k =
      Ok (us ++ nuevos, s, (k + 4 * length indices)%nat) /\
    map id nuevos = indices /\
    Forall (fun u => estado u = inactivo /\
                     tiempo_ultima_interaccion u = 0 /\
                     interacciones_totales u = 0 /\ errores_reportados u = 0 /\
                     en_rango_de_su_tipo u) nuevos /\
    forall j u, nuevos !! j = Some u ->
      en_banda (unitario (cinta (k + 4 * j)%nat)) u.
Proof.
  revert us k. induction indices as [|i indices IH]; intros us k; simpl.
  - exists []. unfold ret. rewrite app_nil_r, Nat.add_0_r.
    split; [reflexivity|]. split; [reflexivity|]. split; [constructor|].
    intros j u Hj. discriminate.
  - unfold bind.
    destruct (crear_usuario_Ok i s k) as (u & -> & Hid & H1 & H2 & H3 & H4 & Hu).
    destruct (IH (us ++ [u]) (S (S (S (S k))))) as (nuevos & -> & Hids & Hall & Hb).
    exists (u :: nuevos). rewrite <- app_assoc. simpl.
    split; [f_equal; f_equal; lia|].
    split; [rewrite Hid, Hids; reflexivity|].
    split.
    + constructor; [|exact Hall]. destruct Hu as [_ Hu]. auto.
    + intros [|j] v Hj; simpl in Hj.
      * injection Hj as <-.
        match goal with
        | |- en_banda (unitario (cinta ?x)) _ => replace x with k by lia
        end. exact Hu.
      * match goal with
        | |- en_banda (unitario (cinta ?x)) _ =>
            replace x with (S (S (S (S k))) + 4 * j)%nat by lia
        end. exact (Hb j v Hj).
Qed.

Lemma en_rango_no_negativo (u : Usuario) :
  en_rango_de_su_tipo u -> (0 <= influencia u * probabilidad_compartir u)%Q.
Proof.
  assert (E1 : (0 <= doble 0.05)%Q) by cerrado.
  assert (E2 : (0 <= doble 0.3)%Q) by cerrado.
  assert (E3 : (0 <= doble 0.6)%Q) by cerrado.
  unfold en_rango_de_su_tipo.
  destruct (tipo u); intros (_ & Hc & Hi); apply Qmult_le_0_compat; lra.
Qed.

Lemma init_Ok (num cap T : Z) (k : nat) :
  exists nuevos,
    __init__ cinta num cap T k =
      Ok (mkModelo num T 0 (nuevo_chatbot cap 1.0 0.01) nuevos metricas_vacias [],
          (k + 4 * Z.to_nat num)%nat) /\
    map id nuevos = range num /\
    length nuevos = Z.to_nat num /\
    Forall (fun u => estado u = inactivo /\
                     tiempo_ultima_interaccion u = 0 /\
                     interacciones_totales u = 0 /\ errores_reportados u = 0 /\
                     en_rango_de_su_tipo u) nuevos /\
    forall j u, nuevos !! j = Some u ->
      en_banda (unitario (cinta (k + 4 * j)%nat)) u.
Proof.
  unfold __init__, _crear_usuarios, bind, leer. simpl.
  destruct (crear_usuarios_bucle_Ok (range num) []
              (mkModelo num T 0 (nuevo_chatbot cap 1.0 0.01) [] metricas_vacias []) k)
    as (nuevos & -> & Hids & Hall & Hb).
  assert (Hlen : length (range num) = Z.to_nat num).
  { unfold range. rewrite length_map, length_seq. reflexivity. }
  exists nuevos. simpl. rewrite Hlen.
  split; [reflexivity|]. split; [exact Hids|].
  split; [rewrite <- Hlen, <- Hids; symmetry; apply length_map|].
  split; assumption.
Qed.

Lemma poblada_construido (num cap T : Z) (k : nat) (m : Modelo) (k' : nat) :
  __init__ cinta num cap T k = Ok (m, k') -> poblada (Z.to_nat num) m.
Proof.
  destruct (init_Ok num cap T k) as (nuevos & -> & _ & Hlen & Hall & _).
  intros H. injection H as <- <-. split; [exact Hlen|]. simpl.
  eapply Forall_impl; [exact Hall|]. simpl.
  intros u (_ & _ & _ & _ & Hu). apply en_rango_no_negativo, Hu.
Qed.

(** With a zero capacity the load update of a tick divides by zero,
    before anything else of the tick happens. *)
Lemma actualizar_capacidad_cero (c : Chatbot) (a : Z) (k : nat) :
  capacidad_maxima c = 0 -> actualizar_capacidad a c k = Lanza ZeroDivisionError.
Proof.
  intros H0. unfold actualizar_capacidad, bind, modificar, leer. simpl.
  rewrite H0. reflexivity.
Qed.

Lemma paso_capacidad_cero (t : Z) (m : Modelo) (k : nat) :
  capacidad_maxima (chatbot m) = 0 ->
  en_chatbot (actualizar_capacidad (contar activo (usuarios m)))
    (con_tiempo_actual t m) k = Lanza ZeroDivisionError /\
  paso cinta t m k = Lanza ZeroDivisionError.
Proof.
  intros H0.
  assert (H : en_chatbot (actualizar_capacidad (contar activo (usuarios m)))
                (con_tiempo_actual t m) k = Lanza ZeroDivisionError).
  { unfold en_chatbot. rewrite actualizar_capacidad_cero by exact H0. reflexivity. }
  split; [exact H|].
  unfold paso, bind at 1, modificar. unfold bind at 1, leer.
  unfold bind at 1.
  change (usuarios (con_tiempo_actual t m)) with (usuarios m).
  rewrite H. reflexivity.
Qed.

(** C3, as the code has it.  The constructor validates nothing and never
    fails: for every population size, capacity and tick budget, also zero
    or negative ones, it returns a model that stores the three arguments
    as given, with a responder of that capacity, base response time 1 and
    failure probability 0.01, [max(0, num_usuarios)] dormant agents with
    ids [0, 1, ...], each with its three parameters inside the ranges of
    its own archetype, empty series and an empty log, after four draws
    per agent.  A capacity of zero is stored like any other; a run on such
    a model seeds the population, and with a positive tick budget the
    load update of the first tick divides by zero, which is the
    [ZeroDivisionError] the run ends with; with a tick budget of zero or
    less the run returns after the seeding. *)
Theorem construccion_sin_validacion (num cap T : Z) (k : nat) :
  (exists m,
     __init__ cinta num cap T k = Ok (m, (k + 4 * Z.to_nat num)%nat) /\
     num_usuarios m = num /\ tiempo_simulacion m = T /\ tiempo_actual m = 0 /\
     chatbot m = mkChatbot cap 1.0 0.01 0 0 0 /\
     map id (usuarios m) = range num /\
     length (usuarios m) = Z.to_nat num /\
     Forall (fun u => estado u = inactivo /\
                      tiempo_ultima_interaccion u = 0 /\
                      interacciones_totales u = 0 /\ errores_reportados u = 0 /\
                      en_rango_de_su_tipo u) (usuarios m) /\
     metricas m = mkMetricas [] [] [] [] [] [] /\
     eventos_viralizacion m = []) /\
  (exists m k1 m1 k2,
     __init__ cinta num 0 T k = Ok (m, k1) /\
     capacidad_maxima (chatbot m) = 0 /\
     sembrar cinta m k1 = Ok (tt, m1, k2) /\
     metricas m1 = mkMetricas [] [] [] [] [] [] /\
     (0 < T ->
      en_chatbot (actualizar_capacidad (contar activo (usuarios m1)))
        (con_tiempo_actual 0 m1) k2 = Lanza ZeroDivisionError /\
      ejecutar_simulacion cinta m k1 = Lanza ZeroDivisionError) /\
     (T <= 0 -> ejecutar_simulacion cinta m k1 = Ok (tt, m1, k2))).
Proof.
  split.
  - destruct (init_Ok num cap T k) as (nuevos & -> & Hids & Hlen & Hall & _).
    eexists. split; [reflexivity|]. simpl.
    repeat split; assumption.
  - destruct (init_Ok num 0 T k) as (nuevos & Hinit & _).
    pose proof (poblada_construido num 0 T k _ _ Hinit) as Hpob.
    set (m := mkModelo num T 0 (nuevo_chatbot 0 1.0 0.01) nuevos metricas_vacias []) in *.
    pose proof (termina_sembrar cinta _ m (k + 4 * Z.to_nat num)%nat Hpob) as Hter.
    unfold termina, wp in Hter.
    destruct (sembrar cinta m (k + 4 * Z.to_nat num)%nat) as [[[[] m1] k2]|e] eqn:Hs;
      [|contradiction].
    pose proof (preserva_Ok _ _ _ _ _ _ _ (preserva_sembrar cinta) Hs) as [Hev Hms].
    destruct Hev as (_ & HT & (Hcap & _) & _).
    exists m, (k + 4 * Z.to_nat num)%nat, m1, k2.
    split; [exact Hinit|]. split; [reflexivity|]. split; [exact Hs|].
    split; [rewrite Hms; reflexivity|].
    assert (Hcap1 : capacidad_maxima (chatbot m1) = 0) by (rewrite Hcap; reflexivity).
    assert (HT1 : tiempo_simulacion m1 = T) by (rewrite HT; reflexivity).
    split.
    + intros HTpos.
      destruct (paso_capacidad_cero 0 m1 k2 Hcap1) as [H1 H2].
      split; [exact H1|].
      unfold ejecutar_simulacion, bind at 1. rewrite Hs.
      unfold bind at 1, leer. rewrite HT1.
      assert (Hr : exists ts, range T = 0 :: ts).
      { unfold range. destruct (Z.to_nat T) as [|j] eqn:Hj; [lia|].
        simpl. eexists. reflexivity. }
      destruct Hr as [ts ->]. simpl. unfold bind at 1. rewrite H2. reflexivity.
    + intros HTneg.
      unfold ejecutar_simulacion, bind at 1. rewrite Hs.
      unfold bind at 1, leer. rewrite HT1.
      assert (Hr : range T = []).
      { unfold range. replace (Z.to_nat T) with 0%nat by lia. reflexivity. }
      rewrite Hr. reflexivity.
Qed.

End Construccion.

(** C3 as stated fails: with capacity 0 (and with a negative population
    size) the constructor returns a model; the zero capacity shows only
    when a run reaches its first load update, as a division by zero. *)
Lemma construccion_invalida_contraejemplo :
  (exists m k',
     __init__ cinta_ejemplo 3 0 5 0%nat = Ok (m, k') /\
     capacidad_maxima (chatbot m) = 0 /\
     ejecutar_simulacion cinta_ejemplo m k' = Lanza ZeroDivisionError) /\
  (exists m k',
     __init__ cinta_ejemplo (-3) (-1) 5 0%nat = Ok (m, k') /\ usuarios m = []).
Proof.
  split.
  - eexists. eexists. split; [vm_compute; reflexivity|].
    split; [reflexivity|]. vm_compute. reflexivity.
  - eexists. eexists. split; [vm_compute; reflexivity | reflexivity].
Qed.

(** ** The recorded failure counts *)

Lemma paso_errores_generados (cinta : nat -> N) (t : Z) (m m' : Modelo) (k k' : nat) :
  paso cinta t m k = Ok (tt, m', k') ->
  errores_generados (metricas m') =
    errores_generados (metricas m) ++ [errores_totales (chatbot m')].
Proof.
  intros Hrun. unfold paso in Hrun.
  apply bind_Ok_inv in Hrun. destruct Hrun as ([] & m0 & k0 & H0 & Hrun).
  unfold modificar in H0. injection H0 as <- <-.
  apply bind_Ok_inv in Hrun. destruct Hrun as (self & m0 & k0 & H0 & Hrun).
  unfold leer in H0. injection H0 as <- <- <-.
  apply bind_Ok_inv in Hrun. destruct Hrun as ([] & m1 & k1 & H1 & Hrun).
  apply bind_Ok_inv in Hrun. destruct Hrun as ([] & m2 & k2 & H2 & Hrun).
  apply bind_Ok_inv in Hrun. destruct Hrun as ([] & m3 & k3 & H3 & Hrun).
  apply bind_Ok_inv in Hrun. destruct Hrun as ([] & m4 & k4 & H4 & Hreg).
  pose proof (preserva_Ok _ _ _ _ _ _ _
                (preserva_en_chatbot _ (preserva_actualizar_capacidad _)) H1) as [_ E1].
  pose proof (preserva_Ok _ _ _ _ _ _ _ (preserva_fase_interacciones cinta) H2) as [_ E2].
  pose proof (preserva_Ok _ _ _ _ _ _ _ (preserva_fase_decaimiento cinta) H3) as [_ E3].
  pose proof (preserva_Ok _ _ _ _ _ _ _ (preserva_fase_red cinta _ _) H4) as [_ E4].
  simpl in E1.
  pose proof (registrar_metricas_capacidad _ _ _ _ _ _ Hreg) as Hcap.
  match type of Hreg with
  | registrar_metricas ?a ?c _ _ = _ =>
      destruct (registrar_metricas_Ok a c m4 k4 Hcap) as (x & y & Heq & _)
  end.
  rewrite Heq in Hreg. injection Hreg as <- <-. simpl.
  rewrite E4, E3, E2, E1. reflexivity.
Qed.

Lemma pasos_errores_ordenados (cinta : nat -> N) (ts : list Z) (m m' : Modelo)
  (k k' : nat) :
  para_cada ts (paso cinta) m k = Ok (tt, m', k') ->
  exists d,
    errores_generados (metricas m') = errores_generados (metricas m) ++ d /\
    length d = length ts /\
    StronglySorted Z.le d /\
    Forall (fun x => errores_totales (chatbot m) <= x <= errores_totales (chatbot m')) d.
Proof.
  revert m k. induction ts as [|t ts IH]; intros m k Hrun; simpl in Hrun.
  - unfold ret in Hrun. injection Hrun as <- <-. exists [].
    rewrite app_nil_r. repeat split; constructor.
  - apply bind_Ok_inv in Hrun. destruct Hrun as ([] & m1 & k1 & H1 & Hrun).
    pose proof (preserva_Ok _ _ _ _ _ _ _ (preserva_paso cinta t) H1)
      as (_ & _ & (_ & _ & _ & Hle1) & _).
    pose proof (preserva_Ok _ _ _ _ _ _ _
                  (preserva_para_cada evoluciona ts _ (preserva_paso cinta)) Hrun)
      as (_ & _ & (_ & _ & _ & Hle2) & _).
    apply paso_errores_generados in H1.
    destruct (IH _ _ Hrun) as (d & Hd & Hlen & Hsorted & Hall).
    exists (errores_totales (chatbot m1) :: d).
    split; [rewrite Hd, H1, <- app_assoc; reflexivity|].
    split; [simpl; rewrite Hlen; reflexivity|]. split.
    + constructor; [exact Hsorted|].
      eapply Forall_impl; [exact Hall|]. simpl. intros x Hx. lia.
    + constructor; [lia|].
      eapply Forall_impl; [exact Hall|]. simpl. intros x Hx. lia.
Qed.

(** C10.  When a step of a run returns, the responder's failure counter is
    at least what it was before the step (in particular from tick to
    tick), and the failure counts a stretch of ticks records, one per tick,
    are in non-decreasing order.  [generar_error] returns only the boolean
    of its draw (true exactly when the draw is below the failure
    probability) and the responder it was called on, unchanged.  The
    counter is written by the driver alone.  A call of
    [_simular_interaccion_usuario] on an agent of the population always
    returns: when its first draw is not below the agent's interaction
    probability there is no interaction, the state is unchanged and the
    answer is false; otherwise [generar_error] is called once, on the next
    draw, the answer is what it returned, and the counter goes up by
    exactly one when that answer is true and stays otherwise, nothing else
    of the responder changing.  The loop body [interactuar] changes the
    counter by what its interaction did, and propagation, decay, network
    activation, the load update and the recording of metrics leave it as
    it is. *)
Theorem errores_totales_monotono (cinta : nat -> N) (c : M Modelo unit)
  (m m' : Modelo) (k k' : nat) :
  etapa cinta c ->
  c m k = Ok (tt, m', k') ->
  errores_totales (chatbot m) <= errores_totales (chatbot m') /\
  (forall cb j,
     generar_error cinta cb j =
       Ok (Qltb (unitario (cinta j)) (probabilidad_error cb), cb, S j)) /\
  (forall p m0 j u,
     usuarios m0 !! p = Some u ->
     let interactua := Qltb (unitario (cinta j)) (probabilidad_interaccion u) in
     let falla := Qltb (unitario (cinta (S j))) (probabilidad_error (chatbot m0)) in
     exists m1 j1,
       _simular_interaccion_usuario cinta p m0 j = Ok (interactua && falla, m1, j1) /\
       errores_totales (chatbot m1) =
         errores_totales (chatbot m0) + (if interactua && falla then 1 else 0) /\
       chatbot m1 =
         con_errores_totales
           (errores_totales (chatbot m0) + (if interactua && falla then 1 else 0))
           (chatbot m0) /\
       (interactua = true ->
          j1 = S (S j) /\
          generar_error cinta (chatbot m0) (S j) = Ok (falla, chatbot m0, S (S j)) /\
          usuarios m1 =
            alter (fun v => if falla then registrar_error v else v) p
              (alter (registrar_interaccion (tiempo_actual m0)) p (usuarios m0))) /\
       (interactua = false -> m1 = m0 /\ j1 = S j)) /\
  (forall p m0 m1 j j1 b,
     _simular_interaccion_usuario cinta p m0 j = Ok (b, m1, j1) ->
     errores_totales (chatbot m1) =
       errores_totales (chatbot m0) + (if b then 1 else 0)) /\
  (forall p m0 m2 j j2,
     interactuar cinta p m0 j = Ok (tt, m2, j2) ->
     exists b m1 j1,
       _simular_interaccion_usuario cinta p m0 j = Ok (b, m1, j1) /\
       errores_totales (chatbot m2) =
         errores_totales (chatbot m0) + (if b then 1 else 0)) /\
  (forall d m0 m1 j j1,
     etapa_ajena cinta d ->
     d m0 j = Ok (tt, m1, j1) ->
     errores_totales (chatbot m1) = errores_totales (chatbot m0)) /\
  (forall ts m0 m1 j j1,
     para_cada ts (paso cinta) m0 j = Ok (tt, m1, j1) ->
     exists d,
       errores_generados (metricas m1) = errores_generados (metricas m0) ++ d /\
       length d = length ts /\
       StronglySorted Z.le d /\
       Forall (fun x => errores_totales (chatbot m0) <= x <=
                        errores_totales (chatbot m1)) d).
Proof.
  intros Hc Hrun. split; [|split; [|split; [|split; [|split; [|split]]]]].
  - pose proof (preserva_Ok _ _ _ _ _ _ _ (preserva_etapa cinta c Hc) Hrun) as Hev.
    destruct Hev as (_ & _ & (_ & _ & _ & Hle) & _). exact Hle.
  - intros cb j. apply generar_error_Ok.
  - intros p m0 j u Hu. apply simular_interaccion_Ok. exact Hu.
  - intros p m0 m1 j j1 b. apply errores_simular_interaccion.
  - intros p m0 m2 j j2. apply errores_interactuar.
  - intros d m0 m1 j j1 Hd Hd_run.
    assert (Hp : preserva mismos_errores d).
    { destruct Hd.
      - apply errores_propagacion.
      - apply errores_fase_decaimiento.
      - apply errores_fase_red.
      - apply errores_actualizar_capacidad.
      - apply errores_registrar_metricas. }
    exact (preserva_Ok _ _ _ _ _ _ _ Hp Hd_run).
  - intros ts m0 m1 j j1. apply pasos_errores_ordenados.
Qed.

Lemma errores_totales_monotono_witness :
  exists m' k',
    ejecutar_simulacion cinta_cero modelo_ejemplo 0%nat = Ok (tt, m', k') /\
    errores_totales (chatbot modelo_ejemplo) <= errores_totales (chatbot m') /\
    exists m1 j1,
      _simular_interaccion_usuario cinta_cero 0%nat modelo_ejemplo 0%nat =
        Ok (true, m1, j1) /\
      errores_totales (chatbot m1) = 1.
Proof.
  destruct (ejecutar_simulacion cinta_cero modelo_ejemplo 0%nat)
    as [[[[] m'] k']|e] eqn:Hrun; [|vm_compute in Hrun; discriminate].
  exists m', k'. split; [reflexivity|].
  destruct (errores_totales_monotono cinta_cero
              (ejecutar_simulacion cinta_cero) modelo_ejemplo m' 0%nat k'
              (etapa_ejecutar cinta_cero) Hrun) as (Hle & _ & Hsim & _).
  split; [exact Hle|].
  destruct (Hsim 0%nat modelo_ejemplo 0%nat
              (con_estado consciente (nuevo_usuario 0 critico 0.75 0.5 3.5)) eq_refl)
    as (m1 & j1 & Hcall & Herr & _).
  exists m1, j1. split; [exact Hcall | exact Herr].
Defined.

(* ===================================================================== *)
(** * Further properties of the engine *)
(* ===================================================================== *)

(** ** The responder under load *)

Lemma carga_en_rango (a cap : Z) :
  0 < cap -> 0 <= a ->
  (0 <= inject_Z (Z.min a cap) / inject_Z cap <= 1)%Q.
Proof.
  intros Hcap Ha.
  assert (Hc : (0 < inject_Z cap)%Q)
    by (change 0%Q with (inject_Z 0); rewrite <- Zlt_Qlt; lia).
  split.
  - apply Qle_shift_div_l; [exact Hc|]. rewrite Qmult_0_l.
    change 0%Q with (inject_Z 0). rewrite <- Zle_Qle. lia.
  - apply Qle_shift_div_r; [exact Hc|]. rewrite Qmult_1_l.
    rewrite <- Zle_Qle. lia.
Qed.

Lemma carga_monotona (a b cap : Z) :
  0 < cap -> a <= b ->
  (inject_Z (Z.min a cap) / inject_Z cap <= inject_Z (Z.min b cap) / inject_Z cap)%Q.
Proof.
  intros Hcap Hab.
  assert (Hc : (0 < inject_Z cap)%Q)
    by (change 0%Q with (inject_Z 0); rewrite <- Zlt_Qlt; lia).
  unfold Qdiv. apply Qmult_le_compat_r.
  - rewrite <- Zle_Qle. lia.
  - apply Qlt_le_weak, Qinv_lt_0_compat. exact Hc.
Qed.

Lemma respuesta_monotona (base x y : Q) :
  (0 <= base -> 0 <= x -> x <= y -> y <= 1 ->
   base <= base * (1 + x ^ 2) /\
   base * (1 + x ^ 2) <= base * (1 + y ^ 2) /\
   base * (1 + y ^ 2) <= 2 * base)%Q.
Proof.
  intros Hb Hx Hxy Hy.
  assert (H1 : (x * x <= y * y)%Q) by nra.
  assert (H2 : (0 <= x * x)%Q) by nra.
  assert (H3 : (y * y <= 1)%Q) by nra.
  simpl. repeat split; nra.
Qed.

(** X1.  For a responder of positive capacity and non-negative base
    response time: the response time [actualizar_capacidad] sets lies
    between the base time and twice the base time, it does not decrease
    when the count of reporting agents grows, it is twice the base time as
    soon as the count reaches the capacity (the load then equals the
    capacity), and updating again with the same count changes nothing. *)
Theorem actualizar_capacidad_respuesta (c : Chatbot) (a b : Z) (k : nat) :
  0 < capacidad_maxima c ->
  (0 <= tiempo_respuesta_base c)%Q ->
  0 <= a <= b ->
  exists ca cb,
    actualizar_capacidad a c k = Ok (tt, ca, k) /\
    actualizar_capacidad b c k = Ok (tt, cb, k) /\
    (tiempo_respuesta_base c <= tiempo_respuesta_actual ca)%Q /\
    (tiempo_respuesta_actual ca <= tiempo_respuesta_actual cb)%Q /\
    (tiempo_respuesta_actual cb <= 2 * tiempo_respuesta_base c)%Q /\
    (capacidad_maxima c <= a ->
     capacidad_actual ca = capacidad_maxima c /\
     (tiempo_respuesta_actual ca == 2 * tiempo_respuesta_base c)%Q) /\
    actualizar_capacidad a ca k = Ok (tt, ca, k).
Proof.
  intros Hcap Hbase [Ha Hab].
  rewrite !actualizar_capacidad_ok by lia.
  eexists. eexists. split; [reflexivity|]. split; [reflexivity|]. simpl.
  destruct (carga_en_rango a _ Hcap Ha) as [Ha0 Ha1].
  destruct (carga_en_rango b _ Hcap ltac:(lia)) as [Hb0 Hb1].
  pose proof (carga_monotona a b _ Hcap Hab) as Hmono.
  destruct (respuesta_monotona _ _ _ Hbase Ha0 Hmono Hb1) as (R1 & R2 & R3).
  split; [exact R1|]. split; [exact R2|]. split; [exact R3|]. split.
  - intros Hsat. split; [lia|].
    replace (Z.min a (capacidad_maxima c)) with (capacidad_maxima c) by lia.
    assert (H1 : (inject_Z (capacidad_maxima c) / inject_Z (capacidad_maxima c) == 1)%Q).
    { apply Qmult_inv_r. intros H0.
      unfold Qeq in H0. simpl in H0. clear - Hcap H0. lia. }
    rewrite H1. ring.
  - rewrite actualizar_capacidad_ok by (simpl; lia). simpl.
    reflexivity.
Qed.

Lemma actualizar_capacidad_respuesta_witness :
  exists ca cb,
    actualizar_capacidad 1 (nuevo_chatbot 4 1.0 0.01) 0%nat = Ok (tt, ca, 0%nat) /\
    actualizar_capacidad 9 (nuevo_chatbot 4 1.0 0.01) 0%nat = Ok (tt, cb, 0%nat) /\
    (tiempo_respuesta_actual ca <= tiempo_respuesta_actual cb)%Q.
Proof.
  destruct (actualizar_capacidad_respuesta (nuevo_chatbot 4 1.0 0.01) 1 9 0%nat)
    as (ca & cb & Ha & Hb & _ & Hle & _).
  - simpl. lia.
  - simpl. lra.
  - lia.
  - exists ca, cb. auto.
Defined.

(** The load a count of agents puts on a responder, as a fraction of a
    non-zero capacity, lies between 0 and 1: for a negative capacity the
    quotient is 1. *)
Lemma carga_acotada (a cap : Z) :
  cap <> 0 -> 0 <= a ->
  (0 <= inject_Z (Z.min a cap) / inject_Z cap <= 1)%Q.
Proof.
  intros Hcap Ha.
  destruct (Z.lt_trichotomy cap 0) as [Hneg|[H0|Hpos]]; [|contradiction|].
  - replace (Z.min a cap) with cap by lia.
    assert (H1 : (inject_Z cap / inject_Z cap == 1)%Q).
    { apply Qmult_inv_r. intros H0. unfold Qeq in H0. simpl in H0. lia. }
    rewrite H1. lra.
  - apply carga_en_rango; assumption.
Qed.

(** X2.  With a capacity of zero [actualizar_capacidad] raises
    [ZeroDivisionError], whatever the count.  For a count that is not
    negative (the driver passes a number of agents) that is the only
    failure: with any other capacity the method returns.  A negative
    capacity is accepted, and with a non-negative count it behaves as a
    saturated responder: the load is the (negative) capacity and the
    response time twice the base time. *)
Theorem actualizar_capacidad_excepcion (c : Chatbot) (a : Z) (k : nat) :
  (capacidad_maxima c = 0 ->
   actualizar_capacidad a c k = Lanza ZeroDivisionError) /\
  (capacidad_maxima c <> 0 -> 0 <= a ->
   exists c', actualizar_capacidad a c k = Ok (tt, c', k) /\
     capacidad_actual c' = Z.min a (capacidad_maxima c) /\
     (0 <= inject_Z (capacidad_actual c') / inject_Z (capacidad_maxima c) <= 1)%Q) /\
  (capacidad_maxima c < 0 -> 0 <= a ->
   exists c', actualizar_capacidad a c k = Ok (tt, c', k) /\
     capacidad_actual c' = capacidad_maxima c /\
     (tiempo_respuesta_actual c' == 2 * tiempo_respuesta_base c)%Q).
Proof.
  split; [|split].
  - apply actualizar_capacidad_cero.
  - intros Hne Ha. rewrite actualizar_capacidad_ok by exact Hne.
    eexists. split; [reflexivity|]. simpl. split; [reflexivity|].
    apply carga_acotada; assumption.
  - intros Hneg Ha. rewrite actualizar_capacidad_ok by lia.
    eexists. split; [reflexivity|]. simpl. split; [lia|].
    replace (Z.min a (capacidad_maxima c)) with (capacidad_maxima c) by lia.
    assert (H1 : (inject_Z (capacidad_maxima c) / inject_Z (capacidad_maxima c) == 1)%Q).
    { apply Qmult_inv_r. intros H0.
      unfold Qeq in H0. simpl in H0. clear - Hneg H0. lia. }
    rewrite H1. ring.
Qed.

Lemma actualizar_capacidad_excepcion_witness :
  actualizar_capacidad 5 (nuevo_chatbot 0 1.0 0.01) 0%nat = Lanza ZeroDivisionError.
Proof.
  apply (proj1 (actualizar_capacidad_excepcion (nuevo_chatbot 0 1.0 0.01) 5 0%nat)).
  reflexivity.
Defined.

(** ** The population [_crear_usuarios] builds *)

Section Poblacion.
Variable cinta : nat -> N.

Lemma range_lookup (n : Z) (j : nat) (i : Z) :
  range n !! j = Some i -> i = Z.of_nat j /\ Z.of_nat j < n.
Proof.
  unfold range. rewrite lookup_map. intros H.
  destruct (seq 0 (Z.to_nat n) !! j) as [x|] eqn:Hx; [|discriminate].
  injection H as <-. apply lookup_seq in Hx. destruct Hx as [-> Hlt].
  split; [reflexivity | lia].
Qed.

(** X3.  The population the constructor builds: the constructor takes
    exactly four draws per agent; the agent at position [j] has id [j];
    its archetype is decided by the first of its four draws [d], compared
    with the doubles the literals 0.8 and 0.95 denote ([normal] when
    [d < 0.8], [critico] when [0.8 <= d < 0.95], [influencer] when
    [0.95 <= d]), and its interaction probability, share probability and
    influence lie in the ranges of that archetype, both ends included,
    the ends being the doubles the literals denote. *)
Theorem poblacion_por_bandas (num cap T : Z) (k : nat) :
  exists m,
    __init__ cinta num cap T k = Ok (m, (k + 4 * Z.to_nat num)%nat) /\
    forall j u, usuarios m !! j = Some u ->
      id u = Z.of_nat j /\ Z.of_nat j < num /\
      en_banda (unitario (cinta (k + 4 * j)%nat)) u.
Proof.
  destruct (init_Ok cinta num cap T k) as (nuevos & -> & Hids & _ & _ & Hb).
  eexists. split; [reflexivity|]. simpl.
  intros j u Hj.
  assert (Hid : range num !! j = Some (id u)).
  { rewrite <- Hids, lookup_map, Hj. reflexivity. }
  apply range_lookup in Hid. destruct Hid as [Hid Hlt].
  split; [exact Hid|]. split; [exact Hlt|]. exact (Hb j u Hj).
Qed.

Lemma estable_construido (num cap T : Z) (k : nat) (m : Modelo) (k' : nat) :
  cap <> 0 ->
  __init__ cinta num cap T k = Ok (m, k') ->
  estable (Z.to_nat num) m /\ num_usuarios m = num /\ tiempo_simulacion m = T /\
  metricas m = metricas_vacias /\ eventos_viralizacion m = [] /\
  chatbot m = mkChatbot cap 1.0 0.01 0 0 0 /\ tiempo_actual m = 0 /\
  Forall (fun u => estado u = inactivo /\ interacciones_totales u = 0 /\
                   errores_reportados u = 0) (usuarios m).
Proof.
  intros Hcap Hinit.
  pose proof (poblada_construido cinta num cap T k m k' Hinit) as [Hlen Hpos].
  destruct (init_Ok cinta num cap T k) as (nuevos & Heq & _ & _ & Hall & _).
  rewrite Heq in Hinit. injection Hinit as <- <-. simpl in *.
  repeat split; try assumption.
  eapply Forall_impl; [exact Hall|]. simpl. tauto.
Qed.

(** X4.  Construction followed by a run never fails when the capacity is
    not zero, whatever the population size and the tick budget (zero or
    negative ones included): the run returns, each of the six series has
    exactly [max(0, tiempo_simulacion)] entries, the length of the
    [range(tiempo_simulacion)] the results are plotted against, and the
    population keeps its size and its ids. *)
Theorem construir_y_ejecutar (num cap T : Z) (k : nat) :
  cap <> 0 ->
  exists m k1 m' k2,
    __init__ cinta num cap T k = Ok (m, k1) /\
    ejecutar_simulacion cinta m k1 = Ok (tt, m', k2) /\
    series_de_longitud (length (range T)) (metricas m') /\
    length (range T) = Z.to_nat T /\
    length (usuarios m') = Z.to_nat num /\
    map id (usuarios m') = range num.
Proof.
  intros Hcap.
  destruct (__init__ cinta num cap T k) as [[m k1]|e] eqn:Hinit.
  2:{ unfold __init__, _crear_usuarios, bind, leer in Hinit. simpl in Hinit.
      destruct (crear_usuarios_bucle_Ok cinta (range num) []
                  (mkModelo num T 0 (nuevo_chatbot cap 1.0 0.01) [] metricas_vacias []) k)
        as (nuevos & Heq & _).
      rewrite Heq in Hinit. discriminate. }
  destruct (estable_construido num cap T k m k1 Hcap Hinit)
    as (Hm & _ & HT & Hms & _).
  pose proof (termina_ejecutar_simulacion cinta _ m k1 Hm) as Hter.
  unfold termina, wp in Hter.
  destruct (ejecutar_simulacion cinta m k1) as [[[[] m'] k2]|e] eqn:Hrun; [|contradiction].
  exists m, k1, m', k2. split; [reflexivity|]. split; [exact Hrun|].
  pose proof (ejecutar_simulacion_anota cinta m m' k1 k2 Hrun) as Han.
  pose proof (preserva_Ok _ _ _ _ _ _ _ (preserva_ejecutar_simulacion cinta) Hrun) as Hev.
  assert (Hlen : length (range T) = Z.to_nat T).
  { unfold range. rewrite length_map, length_seq. reflexivity. }
  split; [|split; [exact Hlen|split]].
  - rewrite Hlen. rewrite HT, Hms in Han.
    destruct Han as (a & b & c & d & e & f & -> & Ha & Hb & Hc & Hd & He & Hf).
    unfold series_de_longitud. simpl. auto 10.
  - rewrite (evoluciona_length _ _ Hev). destruct Hm as (_ & Hl & _). exact Hl.
  - destruct Hev as (_ & _ & _ & Hus & _).
    assert (Hids : map id (usuarios m') = map id (usuarios m)).
    { clear - Hus. induction Hus as [|u v us vs Huv _ IH]; simpl; [reflexivity|].
      destruct Huv as (-> & _). f_equal. exact IH. }
    rewrite Hids. clear - Hinit.
    unfold __init__, _crear_usuarios, bind, leer in Hinit. simpl in Hinit.
    destruct (crear_usuarios_bucle_Ok cinta (range num) []
                (mkModelo num T 0 (nuevo_chatbot cap 1.0 0.01) [] metricas_vacias []) k)
      as (nuevos & Heq & Hids & _).
    rewrite Heq in Hinit. injection Hinit as <- _. simpl. exact Hids.
Qed.

End Poblacion.

Lemma construir_y_ejecutar_witness :
  exists m k1 m' k2,
    __init__ cinta_ejemplo 12 3 4 0%nat = Ok (m, k1) /\
    ejecutar_simulacion cinta_ejemplo m k1 = Ok (tt, m', k2) /\
    length (usuarios_activos (metricas m')) = 4%nat.
Proof.
  destruct (construir_y_ejecutar cinta_ejemplo 12 3 4 0%nat)
    as (m & k1 & m' & k2 & Hinit & Hrun & (Ha & _) & _); [lia|].
  exists m, k1, m', k2. auto.
Defined.

(** ** What [analizar_escenarios] leaves behind *)

Lemma reseteado_resetear (m : Modelo) :
  reseteado
    (mkModelo (num_usuarios m) (tiempo_simulacion m) 0
       (mkChatbot (capacidad_maxima (chatbot m)) (tiempo_respuesta_base (chatbot m))
          (probabilidad_error (chatbot m)) 0 0 0.0)
       (map resetear_usuario (usuarios m)) metricas_vacias []).
Proof.
  unfold reseteado. simpl.
  split; [reflexivity|]. split; [reflexivity|]. split; [reflexivity|].
  split; [reflexivity|]. split; [|split; reflexivity].
  apply Forall_map_intro. intros u. simpl. auto.
Qed.

Section Despues.
Variable cinta : nat -> N.

Lemma analizar_final (escs : list Escenario) (m m' : Modelo) (k k' : nat)
  (res : list (string * Resumen)) :
  analizar_escenarios_de cinta escs m k = Ok (res, m', k') ->
  escs <> [] ->
  reseteado m' /\
  last (map prob_error escs) = Some (probabilidad_error (chatbot m')) /\
  capacidad_maxima (chatbot m') = capacidad_maxima (chatbot m) /\
  tiempo_respuesta_base (chatbot m') = tiempo_respuesta_base (chatbot m) /\
  num_usuarios m' = num_usuarios m /\
  tiempo_simulacion m' = tiempo_simulacion m.
Proof.
  revert m k res. induction escs as [|config escs IH]; intros m k res Hrun Hne;
    [contradiction|]. simpl in Hrun.
  apply bind_Ok_inv in Hrun. destruct Hrun as ([] & m0 & k0 & H0 & Hrun).
  apply bind_Ok_inv in Hrun. destruct Hrun as ([] & m1 & k1 & H1 & Hrun).
  apply bind_Ok_inv in Hrun. destruct Hrun as (resumen & m2 & k2 & H2 & Hrun).
  apply bind_Ok_inv in Hrun. destruct Hrun as ([] & m3 & k3 & H3 & Hrun).
  apply bind_Ok_inv in Hrun. destruct Hrun as (resto & m4 & k4 & H4 & Hrun).
  unfold ret in Hrun. injection Hrun as <- <- <-.
  rewrite configurar_Ok in H0. injection H0 as <- <-.
  pose proof (preserva_Ok _ _ _ _ _ _ _ (preserva_ejecutar_simulacion cinta) H1)
    as (Hnum & HT & (Hcap & Hbase & Hprob & _) & _).
  simpl in Hnum, HT, Hcap, Hbase, Hprob.
  apply resumir_Ok_inv in H2. destruct H2 as (-> & -> & _).
  rewrite resetear_Ok in H3. injection H3 as <- <-.
  destruct escs as [|config2 escs].
  - simpl in H4. unfold ret in H4. injection H4 as <- <- <-.
    split; [apply reseteado_resetear|]. simpl.
    split; [f_equal; symmetry; exact Hprob|].
    split; [exact Hcap|]. split; [exact Hbase|]. split; [exact Hnum | exact HT].
  - destruct (IH _ _ _ H4 ltac:(discriminate)) as (Hres & Hlast & G1 & G2 & G3 & G4).
    simpl in G1, G2, G3, G4.
    split; [exact Hres|]. split; [exact Hlast|].
    split; [congruence|]. split; [congruence|]. split; congruence.
Qed.

(** X5.  When [analizar_escenarios] returns (for any non-empty dictionary
    of scenarios, a dictionary having pairwise distinct names), the model
    is in the reset state: every agent dormant with zeroed counters, empty
    series and event log, responder counters at zero; the series of the
    scenarios survive only in the returned table, which has one entry per
    scenario, in order.  The responder keeps
    the failure probability of the last scenario (it is not restored), and
    its capacity and base response time are unchanged. *)
Theorem analizar_deja_reseteado (escs : list Escenario) (m m' : Modelo)
  (k k' : nat) (res : list (string * Resumen)) :
  analizar_escenarios_de cinta escs m k = Ok (res, m', k') ->
  escs <> [] ->
  NoDup (map nombre escs) ->
  reseteado m' /\
  map fst res = map nombre escs /\
  NoDup (map fst res) /\
  last (map prob_error escs) = Some (probabilidad_error (chatbot m')) /\
  capacidad_maxima (chatbot m') = capacidad_maxima (chatbot m) /\
  tiempo_respuesta_base (chatbot m') = tiempo_respuesta_base (chatbot m) /\
  length (usuarios m') = length (usuarios m).
Proof.
  intros Hrun Hne Hnd.
  destruct (analizar_final escs m m' k k' res Hrun Hne) as (H1 & H2 & H3 & H4 & _).
  destruct (analizar_influencia cinta escs m m' k k' res Hrun) as (H5 & H6 & _).
  split; [exact H1|]. split; [exact H5|]. split; [rewrite H5; exact Hnd|].
  auto 10.
Qed.

(** X6.  [analizar_escenarios] needs at least one recorded tick: on a
    model whose series are empty and whose tick budget is zero or negative
    the run of the first scenario records nothing, and computing the
    summary raises [ValueError] (the maximum of an empty series). *)
Theorem analizar_sin_ticks (n : nat) (config : Escenario) (escs : list Escenario)
  (m : Modelo) (k : nat) :
  estable n m ->
  (0 <= influencia_mult config)%Q ->
  tiempo_simulacion m <= 0 ->
  usuarios_activos (metricas m) = [] ->
  analizar_escenarios_de cinta (config :: escs) m k = Lanza ValueError /\
  analizar_escenarios cinta m k = Lanza ValueError.
Proof.
  intros Hm Hmult HT Hvacia.
  assert (Hgen : forall c rest, (0 <= influencia_mult c)%Q ->
            analizar_escenarios_de cinta (c :: rest) m k = Lanza ValueError).
  { intros c rest Hc. cbn [analizar_escenarios_de].
    unfold bind at 1. rewrite configurar_Ok.
    pose proof (estable_configurar n c m Hc Hm) as Hm0.
    pose proof (termina_ejecutar_simulacion cinta n _ k Hm0) as Hter.
    unfold termina, wp in Hter. unfold bind at 1.
    match goal with
    | |- match ejecutar_simulacion cinta ?m0 k with _ => _ end = _ =>
        destruct (ejecutar_simulacion cinta m0 k) as [[[[] m1] k1]|e] eqn:Hrun;
          [|contradiction]
    end.
    apply ejecutar_simulacion_anota in Hrun. simpl in Hrun.
    replace (Z.to_nat (tiempo_simulacion m)) with 0%nat in Hrun by lia.
    destruct Hrun as (a & b & c0 & d & e & f & Hms & Ha & _).
    destruct a; [|discriminate].
    unfold bind at 1, resumir, bind at 1, leer. unfold bind at 1, max_Z.
    rewrite Hms. simpl. rewrite Hvacia. reflexivity. }
  split.
  - apply Hgen. exact Hmult.
  - unfold analizar_escenarios, escenarios. apply Hgen. simpl. lra.
Qed.


End Despues.

Lemma analizar_deja_reseteado_witness :
  exists res m' k',
    analizar_escenarios cinta_ejemplo modelo_ejemplo 0%nat = Ok (res, m', k') /\
    metricas m' = metricas_vacias /\
    (probabilidad_error (chatbot m') == 0.05)%Q.
Proof.
  unfold analizar_escenarios.
  destruct (analizar_escenarios_de cinta_ejemplo escenarios modelo_ejemplo 0%nat)
    as [[[res m'] k']|e] eqn:Hrun; [|vm_compute in Hrun; discriminate].
  assert (Hnd : NoDup (map nombre escenarios)).
  { simpl.
    repeat (apply NoDup_cons; split;
            [intros H;
             repeat (apply elem_of_cons in H; destruct H as [H|H]; [discriminate|]);
             inversion H|]).
    apply NoDup_nil_2. }
  destruct (analizar_deja_reseteado cinta_ejemplo escenarios modelo_ejemplo m'
              0%nat k' res Hrun ltac:(discriminate) Hnd)
    as ((_ & _ & _ & _ & _ & Hms & _) & _ & _ & Hlast & _).
  exists res, m', k'. split; [reflexivity|]. split; [exact Hms|].
  simpl in Hlast. injection Hlast as <-. reflexivity.
Defined.

Lemma analizar_sin_ticks_witness :
  analizar_escenarios cinta_ejemplo
    (mkModelo 12 0 0 (chatbot modelo_ejemplo) (usuarios modelo_ejemplo)
       metricas_vacias []) 0%nat
  = Lanza ValueError.
Proof.
  refine (proj2 (analizar_sin_ticks cinta_ejemplo 12 (mkEscenario "x" 0.01 1.0) []
                   (mkModelo 12 0 0 (chatbot modelo_ejemplo) (usuarios modelo_ejemplo)
                      metricas_vacias [])
                   0%nat _ _ _ _)).
  - exact estable_modelo_ejemplo.
  - simpl. lra.
  - simpl. lia.
  - reflexivity.
Defined.


(** ** What a tick records *)

#[global] Instance misma_carga_preorder : PreOrder misma_carga.
Proof.
  split.
  - intros m. split; reflexivity.
  - intros a b c [H1 H2] [G1 G2]. split; congruence.
Qed.

Lemma posiciones_desde_length (e : Estado) (us : list Usuario) (b1 b2 : nat) :
  length (posiciones_desde e b1 us) = length (posiciones_desde e b2 us).
Proof.
  revert b1 b2. induction us as [|u us IH]; intros b1 b2; simpl; [reflexivity|].
  destruct (decide (estado u = e)); simpl; rewrite (IH (S b1) (S b2)); reflexivity.
Qed.

Lemma contar_cons (e : Estado) (u : Usuario) (us : list Usuario) :
  contar e (u :: us) = (if decide (estado u = e) then 1 else 0) + contar e us.
Proof.
  unfold contar, posiciones_con_estado. simpl.
  destruct (decide (estado u = e)); simpl;
    rewrite (posiciones_desde_length e us 1 0); lia.
Qed.

Lemma contar_cotas (us : list Usuario) :
  0 <= contar activo us /\ 0 <= contar consciente us /\ 0 <= contar inactivo us /\
  contar activo us + contar consciente us + contar inactivo us = Z.of_nat (length us).
Proof.
  induction us as [|u us IH].
  - unfold contar. simpl. lia.
  - rewrite !contar_cons. simpl length.
    destruct (estado u);
      repeat match goal with
      | |- context [decide (?a = ?b)] => destruct (decide (a = b)); try discriminate
      end; try contradiction; lia.
Qed.

Ltac misma :=
  preservar;
  try (apply preserva_modificar; intros ?; split; reflexivity).

Section Registro.
Variable cinta : nat -> N.

Lemma carga_simular_interaccion (p : nat) :
  preserva misma_carga (_simular_interaccion_usuario cinta p).
Proof. unfold _simular_interaccion_usuario. misma. Qed.

Lemma carga_propagacion (p : nat) :
  preserva misma_carga (_simular_propagacion_error cinta p).
Proof. unfold _simular_propagacion_error. misma. unfold afectar. misma. Qed.

Lemma carga_fase_interacciones : preserva misma_carga (fase_interacciones cinta).
Proof.
  unfold fase_interacciones. misma. unfold interactuar.
  apply preserva_bind; [apply _ | apply carga_simular_interaccion |].
  intros [|]; misma. apply carga_propagacion.
Qed.

Lemma carga_fase_decaimiento : preserva misma_carga (fase_decaimiento cinta).
Proof. unfold fase_decaimiento. misma. unfold decaer. misma. Qed.

Lemma carga_fase_red (t a : Z) : preserva misma_carga (fase_red cinta t a).
Proof. unfold fase_red. misma; unfold activar_por_red; misma. Qed.

(** The entries one tick appends, in terms of the state the tick starts
    from. *)
Lemma paso_registro (t : Z) (m m' : Modelo) (k k' : nat) :
  paso cinta t m k = Ok (tt, m', k') ->
  exists carga resp perc,
    metricas m' =
      mkMetricas
        (usuarios_activos (metricas m) ++ [contar activo (usuarios m)])
        (usuarios_conscientes (metricas m) ++ [contar consciente (usuarios m)])
        (carga_sistema (metricas m) ++ [carga])
        (errores_generados (metricas m) ++ [errores_totales (chatbot m')])
        (tiempo_respuesta (metricas m) ++ [resp])
        (percepcion_publica (metricas m) ++ [perc]) /\
    registro_de_tick (length (usuarios m)) (capacidad_maxima (chatbot m))
      (tiempo_respuesta_base (chatbot m))
      (contar activo (usuarios m)) (contar consciente (usuarios m))
      carga resp perc.
Proof.
  intros Hrun. unfold paso in Hrun.
  apply bind_Ok_inv in Hrun. destruct Hrun as ([] & m0 & k0 & H0 & Hrun).
  unfold modificar in H0. injection H0 as <- <-.
  apply bind_Ok_inv in Hrun. destruct Hrun as (self & m0 & k0 & H0 & Hrun).
  unfold leer in H0. injection H0 as <- <- <-.
  apply bind_Ok_inv in Hrun. destruct Hrun as ([] & m1 & k1 & H1 & Hrun).
  apply bind_Ok_inv in Hrun. destruct Hrun as ([] & m2 & k2 & H2 & Hrun).
  apply bind_Ok_inv in Hrun. destruct Hrun as ([] & m3 & k3 & H3 & Hrun).
  apply bind_Ok_inv in Hrun. destruct Hrun as ([] & m4 & k4 & H4 & Hreg).
  change (usuarios (con_tiempo_actual t m)) with (usuarios m) in H1, H4, Hreg.
  assert (Hcap : capacidad_maxima (chatbot m) <> 0).
  { intros Hz. unfold en_chatbot, actualizar_capacidad, bind, modificar, leer in H1.
    simpl in H1. rewrite Hz in H1. discriminate. }
  unfold en_chatbot in H1.
  change (chatbot (con_tiempo_actual t m)) with (chatbot m) in H1.
  rewrite actualizar_capacidad_ok in H1 by exact Hcap.
  injection H1 as <- <-.
  pose proof (preserva_Ok _ _ _ _ _ _ _ (preserva_fase_interacciones cinta) H2) as [F2 E2].
  pose proof (preserva_Ok _ _ _ _ _ _ _ (preserva_fase_decaimiento cinta) H3) as [F3 E3].
  pose proof (preserva_Ok _ _ _ _ _ _ _ (preserva_fase_red cinta _ _) H4) as [F4 E4].
  pose proof (preserva_Ok _ _ _ _ _ _ _ carga_fase_interacciones H2) as [L2 T2].
  pose proof (preserva_Ok _ _ _ _ _ _ _ carga_fase_decaimiento H3) as [L3 T3].
  pose proof (preserva_Ok _ _ _ _ _ _ _ (carga_fase_red _ _) H4) as [L4 T4].
  assert (Hcap4 : capacidad_maxima (chatbot m4) = capacidad_maxima (chatbot m)).
  { destruct F2 as (_ & _ & (C2 & _) & _). destruct F3 as (_ & _ & (C3 & _) & _).
    destruct F4 as (_ & _ & (C4 & _) & _). simpl in C2. congruence. }
  destruct (registrar_metricas_Ok (contar activo (usuarios m))
              (contar consciente (usuarios m)) m4 k4)
    as (carga & perc & Heq & Hcarga & Hperc); [congruence|].
  rewrite Heq in Hreg. injection Hreg as <- <-. simpl.
  exists carga, (tiempo_respuesta_actual (chatbot m4)), perc.
  rewrite E4, E3, E2. simpl. split; [reflexivity|].
  cbn [chatbot con_chatbot capacidad_actual tiempo_respuesta_actual] in L2, T2.
  assert (Hload : capacidad_actual (chatbot m4) =
                  Z.min (contar activo (usuarios m)) (capacidad_maxima (chatbot m)))
    by congruence.
  assert (Hresp : tiempo_respuesta_actual (chatbot m4) =
                  (tiempo_respuesta_base (chatbot m) *
                   (1 + (inject_Z (Z.min (contar activo (usuarios m))
                                     (capacidad_maxima (chatbot m))) /
                         inject_Z (capacidad_maxima (chatbot m))) ^ 2))%Q).
  { rewrite T4, T3, T2. reflexivity. }
  assert (Hcarga' : carga = (inject_Z (Z.min (contar activo (usuarios m))
                                        (capacidad_maxima (chatbot m))) /
                             inject_Z (capacidad_maxima (chatbot m)))%Q).
  { rewrite Hcarga. unfold carga_relativa. rewrite Hload, Hcap4. reflexivity. }
  destruct (contar_cotas (usuarios m)) as (Ha & Hc & Hi & Hsum).
  unfold registro_de_tick.
  split; [exact Ha|]. split; [exact Hc|]. split; [lia|].
  split; [exact Hcarga'|]. split; [rewrite Hresp, Hcarga'; reflexivity|].
  split; [|exact Hperc].
  intros Hpos. rewrite Hcarga'. apply carga_en_rango; assumption.
Qed.

Lemma pasos_registros (ts : list Z) (m m' : Modelo) (k k' : nat) :
  para_cada ts (paso cinta) m k = Ok (tt, m', k') ->
  exists a b c d e f,
    metricas m' =
      mkMetricas (usuarios_activos (metricas m) ++ a)
        (usuarios_conscientes (metricas m) ++ b)
        (carga_sistema (metricas m) ++ c) (errores_generados (metricas m) ++ d)
        (tiempo_respuesta (metricas m) ++ e) (percepcion_publica (metricas m) ++ f) /\
    length a = length ts /\ length b = length ts /\ length c = length ts /\
    length e = length ts /\ length f = length ts /\
    registros_coherentes (length (usuarios m)) (capacidad_maxima (chatbot m))
      (tiempo_respuesta_base (chatbot m)) a b c e f.
Proof.
  revert m k. induction ts as [|t ts IH]; intros m k Hrun; simpl in Hrun.
  - unfold ret in Hrun. injection Hrun as <- <-.
    exists [], [], [], [], [], []. rewrite !app_nil_r.
    split; [destruct (metricas m); reflexivity|].
    do 5 (split; [reflexivity|]).
    intros i x y l t0 p Hx. discriminate.
  - apply bind_Ok_inv in Hrun. destruct Hrun as ([] & m1 & k1 & H1 & Hrun).
    pose proof (preserva_Ok _ _ _ _ _ _ _ (preserva_paso cinta t) H1) as Hev.
    destruct (paso_registro t m m1 k k1 H1) as (carga & resp & perc & Hms1 & Hreg).
    destruct (IH _ _ Hrun) as (a & b & c & d & e & f & Hms & La & Lb & Lc & Le & Lf & Hco).
    rewrite (evoluciona_length _ _ Hev) in Hco.
    destruct Hev as (_ & _ & (Hcap & Hbase & _) & _).
    rewrite Hcap, Hbase in Hco.
    exists (contar activo (usuarios m) :: a), (contar consciente (usuarios m) :: b),
      (carga :: c), (errores_totales (chatbot m1) :: d), (resp :: e), (perc :: f).
    split.
    { rewrite Hms, Hms1. simpl. rewrite <- !app_assoc. reflexivity. }
    simpl. do 5 (split; [f_equal; assumption|]).
    intros [|i] x y l t0 p Hx Hy Hl Ht Hp; simpl in *.
    + injection Hx as <-. injection Hy as <-. injection Hl as <-.
      injection Ht as <-. injection Hp as <-. exact Hreg.
    + eapply Hco; eassumption.
Qed.

(** X8.  What a run records, tick by tick.  The entries a run appends to
    the series are aligned: at every tick the numbers of reporting and
    aware agents are non-negative and together at most the population, the
    recorded load is [min(reporting, capacity) / capacity] for the
    reporting count recorded at the same tick (hence within [0, 1] for a
    positive capacity), the recorded response time is [base * (1 + load^2)]
    for that load, and the recorded perception lies in [0, 1]. *)
Theorem metricas_coherentes (m m' : Modelo) (k k' : nat) :
  ejecutar_simulacion cinta m k = Ok (tt, m', k') ->
  exists a b c d e f,
    metricas m' =
      mkMetricas (usuarios_activos (metricas m) ++ a)
        (usuarios_conscientes (metricas m) ++ b)
        (carga_sistema (metricas m) ++ c) (errores_generados (metricas m) ++ d)
        (tiempo_respuesta (metricas m) ++ e) (percepcion_publica (metricas m) ++ f) /\
    registros_coherentes (length (usuarios m)) (capacidad_maxima (chatbot m))
      (tiempo_respuesta_base (chatbot m)) a b c e f.
Proof.
  intros Hrun. unfold ejecutar_simulacion in Hrun.
  apply bind_Ok_inv in Hrun. destruct Hrun as ([] & m1 & k1 & H1 & Hrun).
  apply bind_Ok_inv in Hrun. destruct Hrun as (self & m0 & k0 & H0 & Hrun).
  unfold leer in H0. injection H0 as <- <- <-.
  pose proof (preserva_Ok _ _ _ _ _ _ _ (preserva_sembrar cinta) H1) as [Hev E1].
  destruct (pasos_registros _ _ _ _ _ Hrun)
    as (a & b & c & d & e & f & Hms & _ & _ & _ & _ & _ & Hco).
  rewrite (evoluciona_length _ _ Hev) in Hco.
  destruct Hev as (_ & _ & (Hcap & Hbase & _) & _).
  rewrite Hcap, Hbase in Hco. rewrite E1 in Hms.
  exists a, b, c, d, e, f. split; [exact Hms | exact Hco].
Qed.

End Registro.

Lemma metricas_coherentes_witness :
  exists m' k' a b c d e f,
    ejecutar_simulacion cinta_ejemplo modelo_ejemplo 0%nat = Ok (tt, m', k') /\
    metricas m' = mkMetricas a b c d e f /\
    registros_coherentes 12 2 1.0 a b c e f.
Proof.
  destruct (ejecutar_simulacion cinta_ejemplo modelo_ejemplo 0%nat)
    as [[[[] m'] k']|e] eqn:Hrun; [|vm_compute in Hrun; discriminate].
  destruct (metricas_coherentes cinta_ejemplo modelo_ejemplo m' 0%nat k' Hrun)
    as (a & b & c & d & e & f & Hms & Hco).
  exists m', k', a, b, c, d, e, f. split; [reflexivity|]. split; [exact Hms | exact Hco].
Defined.

(** ** Inversion of the elementary steps *)

#[global] Instance conserva_preorder (I : Modelo -> Prop) : PreOrder (conserva I).
Proof. split; [intros m H; exact H | intros a b c H1 H2 H; exact (H2 (H1 H))]. Qed.

Lemma sample_Ok_inv {St A} (cinta : nat -> N) (population : list A) (n : Z)
  (s s' : St) (k k' : nat) (sel : list A) :
  sample cinta population n s k = Ok (sel, s', k') ->
  s' = s /\ k' = (k + Z.to_nat n)%nat /\ 0 <= n /\
  length sel = Z.to_nat n /\ sel ⊆+ population.
Proof.
  unfold sample.
  destruct (Z.ltb_spec n 0); [discriminate|].
  destruct (Z.ltb_spec (Z.of_nat (length population)) n); [discriminate|].
  simpl. intros Hrun.
  destruct (sample_bucle_Ok cinta (Z.to_nat n) population s k) as (sel0 & Heq & Hl & Hsub);
    [lia|].
  rewrite Heq in Hrun. injection Hrun as <- <- <-. auto.
Qed.

Lemma simular_interaccion_Ok_inv (cinta : nat -> N) (p : nat) (m m' : Modelo)
  (k k' : nat) (b : bool) :
  _simular_interaccion_usuario cinta p m k = Ok (b, m', k') ->
  exists u, usuarios m !! p = Some u /\
    num_usuarios m' = num_usuarios m /\
    tiempo_simulacion m' = tiempo_simulacion m /\
    tiempo_actual m' = tiempo_actual m /\
    metricas m' = metricas m /\
    eventos_viralizacion m' = eventos_viralizacion m /\
    ((b = false /\ k' = S k /\
      (probabilidad_interaccion u <= unitario (cinta k))%Q /\
      usuarios m' = usuarios m /\ chatbot m' = chatbot m) \/
     (b = false /\ k' = S (S k) /\
      (probabilidad_error (chatbot m) <= unitario (cinta (S k)))%Q /\
      usuarios m' = alter (registrar_interaccion (tiempo_actual m)) p (usuarios m) /\
      chatbot m' = chatbot m) \/
     (b = true /\ k' = S (S k) /\
      (unitario (cinta (S k)) < probabilidad_error (chatbot m))%Q /\
      usuarios m' =
        alter registrar_error p
          (alter (registrar_interaccion (tiempo_actual m)) p (usuarios m)) /\
      chatbot m' = con_errores_totales (errores_totales (chatbot m) + 1) (chatbot m))).
Proof.
  unfold _simular_interaccion_usuario, bind, random, leer_usuario, leer,
    modificar_usuario, modificar, en_chatbot, generar_error, ret.
  destruct (usuarios m !! p) as [u|]; [|discriminate].
  intros H. exists u. split; [reflexivity|]. revert H.
  destruct (Qltb _ (probabilidad_interaccion u)) eqn:E1.
  - simpl. destruct (Qltb _ (probabilidad_error _)) eqn:E2; intros H;
      injection H as <- <- <-; simpl;
      repeat (split; [reflexivity|]).
    + right; right. apply Qltb_lt in E2. auto 10.
    + right; left. apply Qltb_ge in E2. auto 10.
  - intros H; injection H as <- <- <-. repeat (split; [reflexivity|]).
    left. apply Qltb_ge in E1. auto 10.
Qed.

Lemma propagacion_Ok_inv (cinta : nat -> N) (origen : nat) (m m' : Modelo)
  (k k' : nat) :
  _simular_propagacion_error cinta origen m k = Ok (tt, m', k') ->
  exists u sel,
    usuarios m !! origen = Some u /\
    sel ⊆+ posiciones_con_estado inactivo (usuarios m) /\
    k' = (S k + length sel)%nat /\
    m' = con_eventos
           (eventos_viralizacion m ++
            map (fun p => mkEvento (tiempo_actual m) (id u)
                            (id_en (usuarios m) p) (tipo u)) sel)
           (con_usuarios (marcar sel (usuarios m)) m).
Proof.
  intros Hrun. unfold _simular_propagacion_error in Hrun.
  apply bind_Ok_inv in Hrun. destruct Hrun as (u & m0 & k0 & H0 & Hrun).
  unfold leer_usuario in H0.
  destruct (usuarios m !! origen) as [u0|] eqn:Hu; [|discriminate].
  injection H0 as <- <- <-.
  apply bind_Ok_inv in Hrun. destruct Hrun as (r & m0 & k0 & H0 & Hrun).
  rewrite uniform_Ok in H0. injection H0 as <- <- <-.
  apply bind_Ok_inv in Hrun. destruct Hrun as (self & m0 & k0 & H0 & Hrun).
  unfold leer in H0. injection H0 as <- <- <-.
  apply bind_Ok_inv in Hrun. destruct Hrun as (sel & m0 & k0 & H0 & Hrun).
  apply sample_Ok_inv in H0. destruct H0 as (-> & -> & Hn & Hlen & Hsub).
  exists u0, sel. split; [reflexivity|]. split; [exact Hsub|].
  rewrite (para_cada_afectar_Ok origen u0 sel m _ Hu) in Hrun.
  - injection Hrun as <- <-. split; [lia | reflexivity].
  - intros p Hp. apply (elem_of_submseteq _ _ _ Hp) in Hsub.
    apply posiciones_con_estado_elem in Hsub. destruct Hsub as (v & Hv & _).
    eapply lookup_lt_Some. exact Hv.
Qed.

Lemma seleccion_inactiva (us : list Usuario) (sel : list nat) :
  sel ⊆+ posiciones_con_estado inactivo us ->
  NoDup sel /\
  forall p, p ∈ sel -> exists v, us !! p = Some v /\ estado v = inactivo.
Proof.
  intros Hsub. split.
  - eapply submseteq_NoDup; [exact Hsub | apply posiciones_con_estado_NoDup].
  - intros p Hp. apply posiciones_con_estado_elem.
    eapply elem_of_submseteq; eassumption.
Qed.

(** Steps that do not look at the property. *)
Lemma registro_inocuo (R : Modelo -> Modelo -> Prop) `{!PreOrder R} (a c : Z) :
  (forall m ms, R m (con_metricas ms m)) ->
  preserva R (registrar_metricas a c).
Proof.
  intros H.
  unfold registrar_metricas, _calcular_percepcion_publica,
    anotar_usuarios_activos, anotar_usuarios_conscientes, anotar_carga_sistema,
    anotar_errores_generados, anotar_tiempo_respuesta, anotar_percepcion_publica.
  preservar; apply preserva_modificar; intros m; apply H.
Qed.

Lemma capacidad_inocua (R : Modelo -> Modelo -> Prop) (a : Z) :
  (forall m x y,
     R m (con_chatbot
            (mkChatbot (capacidad_maxima (chatbot m)) (tiempo_respuesta_base (chatbot m))
               (probabilidad_error (chatbot m)) x (errores_totales (chatbot m)) y) m)) ->
  preserva R (en_chatbot (actualizar_capacidad a)).
Proof.
  intros H m k. unfold wlp, en_chatbot.
  destruct (Z.eq_dec (capacidad_maxima (chatbot m)) 0) as [H0|Hne].
  - unfold actualizar_capacidad, bind, modificar, leer. simpl. rewrite H0. exact I.
  - rewrite actualizar_capacidad_ok by exact Hne. apply H.
Qed.

(** ** Every phase keeps what the elementary steps keep *)

Section Fases.
Variable cinta : nat -> N.
Variable R : Modelo -> Modelo -> Prop.
Context `{!PreOrder R}.
Hypothesis R_consciente :
  forall p, preserva R (modificar_usuario p (con_estado consciente)).
Hypothesis R_interactuar : forall p, preserva R (interactuar cinta p).
Hypothesis R_capacidad : forall a, preserva R (en_chatbot (actualizar_capacidad a)).
Hypothesis R_tiempo : forall t, preserva R (modificar (con_tiempo_actual t)).
Hypothesis R_registro : forall a c, preserva R (registrar_metricas a c).

Lemma fases_decaer (p : nat) : preserva R (decaer cinta p).
Proof. unfold decaer. preservar. apply R_consciente. Qed.

Lemma fases_activar_por_red (q : Q) (p : nat) : preserva R (activar_por_red cinta q p).
Proof. unfold activar_por_red. preservar. apply R_consciente. Qed.

Lemma fases_interacciones : preserva R (fase_interacciones cinta).
Proof. unfold fase_interacciones. preservar. apply R_interactuar. Qed.

Lemma fases_decaimiento : preserva R (fase_decaimiento cinta).
Proof. unfold fase_decaimiento. preservar. apply fases_decaer. Qed.

Lemma fases_red (t a : Z) : preserva R (fase_red cinta t a).
Proof. unfold fase_red. preservar; apply fases_activar_por_red. Qed.

Lemma fases_paso (t : Z) : preserva R (paso cinta t).
Proof.
  unfold paso. preservar.
  - apply R_tiempo.
  - apply R_capacidad.
  - apply fases_interacciones.
  - apply fases_decaimiento.
  - apply fases_red.
  - apply R_registro.
Qed.

Lemma fases_pasos (ts : list Z) : preserva R (para_cada ts (paso cinta)).
Proof. apply preserva_para_cada; [apply _ | apply fases_paso]. Qed.

Lemma fases_sembrar : preserva R (sembrar cinta).
Proof.
  unfold sembrar. preservar.
  - apply R_consciente.
  - apply R_interactuar.
Qed.

Lemma fases_ejecutar : preserva R (ejecutar_simulacion cinta).
Proof.
  unfold ejecutar_simulacion. preservar.
  - apply fases_sembrar.
  - apply fases_paso.
Qed.

Hypothesis R_propagacion : forall p, preserva R (_simular_propagacion_error cinta p).

Lemma fases_etapa (c : M Modelo unit) : etapa cinta c -> preserva R c.
Proof.
  intros [].
  - apply R_propagacion.
  - apply R_interactuar.
  - apply fases_decaer.
  - apply fases_activar_por_red.
  - apply fases_interacciones.
  - apply fases_decaimiento.
  - apply fases_red.
  - apply R_registro.
  - apply fases_paso.
  - apply fases_pasos.
  - apply fases_sembrar.
  - apply fases_ejecutar.
Qed.

End Fases.

(** ** The books of failures *)

Lemma suma_de_alter (g : Usuario -> Z) (f : Usuario -> Usuario) (p : nat)
  (us : list Usuario) (u : Usuario) :
  us !! p = Some u ->
  suma_de g (alter f p us) = suma_de g us - g u + g (f u).
Proof.
  unfold suma_de. revert p.
  induction us as [|v us IH]; intros [|p] Hp; simpl in *; try discriminate.
  - injection Hp as ->. lia.
  - change (list_alter f p us) with (alter f p us). rewrite (IH p Hp). lia.
Qed.

Lemma suma_de_alter_igual (g : Usuario -> Z) (f : Usuario -> Usuario) (p : nat)
  (us : list Usuario) :
  (forall u, g (f u) = g u) -> suma_de g (alter f p us) = suma_de g us.
Proof.
  intros Hf. unfold suma_de. revert p.
  induction us as [|v us IH]; intros [|p]; simpl;
    [reflexivity | reflexivity | rewrite Hf; reflexivity |].
  change (list_alter f p us) with (alter f p us). rewrite IH. reflexivity.
Qed.

Lemma suma_de_marcar (g : Usuario -> Z) (sel : list nat) (us : list Usuario) :
  (forall u, g (con_estado consciente u) = g u) ->
  suma_de g (marcar sel us) = suma_de g us.
Proof.
  intros Hg. unfold marcar. revert us. induction sel as [|q sel IH]; intros us; simpl.
  - reflexivity.
  - rewrite IH. apply suma_de_alter_igual. exact Hg.
Qed.

Lemma suma_interacciones_suma_de (us : list Usuario) :
  suma_interacciones us = suma_de interacciones_totales us.
Proof.
  unfold suma_interacciones.
  assert (H : forall a, fold_left (fun a u => a + interacciones_totales u) us a =
                        a + suma_de interacciones_totales us).
  { unfold suma_de. induction us as [|u us IH]; intros a; simpl; [lia|].
    rewrite IH. lia. }
  rewrite H. lia.
Qed.

Lemma suma_de_le (g h : Usuario -> Z) (us : list Usuario) :
  Forall (fun u => 0 <= g u <= h u) us ->
  0 <= suma_de g us <= suma_de h us.
Proof. unfold suma_de. induction 1 as [|u us Hu _ IH]; simpl; lia. Qed.

Lemma Forall_marcar (P : Usuario -> Prop) (sel : list nat) (us : list Usuario) :
  (forall u, P u -> P (con_estado consciente u)) ->
  Forall P us -> Forall P (marcar sel us).
Proof.
  intros HP. unfold marcar. revert us. induction sel as [|q sel IH]; intros us H; simpl.
  - exact H.
  - apply IH. apply Forall_alter; [exact H|]. intros x _. apply HP.
Qed.

Lemma libro_con_estado (e : Estado) (p : nat) (m : Modelo) :
  libro m -> libro (con_usuarios (alter (con_estado e) p (usuarios m)) m).
Proof.
  intros [H1 H2]. split; proyectar.
  - rewrite suma_de_alter_igual by reflexivity. exact H1.
  - apply Forall_alter; [exact H2|]. intros x _ Hx. exact Hx.
Qed.

Section Libro.
Variable cinta : nat -> N.

Lemma libro_simular_interaccion (p : nat) :
  preserva (conserva libro) (_simular_interaccion_usuario cinta p).
Proof.
  intros m k. apply wlp_Ok. intros b m' k' Hrun [H1 H2].
  apply simular_interaccion_Ok_inv in Hrun.
  destruct Hrun as (u & Hu & _ & _ & _ & _ & _ & Hcasos).
  pose proof (proj1 (Forall_lookup _ _) H2 p u Hu) as Hup. simpl in Hup.
  destruct Hcasos as [(_ & _ & _ & Hus & Hcb) | [(_ & _ & _ & Hus & Hcb) |
                       (_ & _ & _ & Hus & Hcb)]];
    unfold libro; rewrite Hus, Hcb; split; proyectar.
  - exact H1.
  - exact H2.
  - rewrite suma_de_alter_igual by reflexivity. exact H1.
  - apply Forall_alter; [exact H2|]. intros x _ Hx. simpl. lia.
  - rewrite (suma_de_alter _ _ p _ (registrar_interaccion (tiempo_actual m) u)).
    + rewrite suma_de_alter_igual by reflexivity. simpl. lia.
    + rewrite list_lookup_alter. destruct (decide (p = p)); [|contradiction].
      rewrite Hu. reflexivity.
  - apply Forall_alter.
    + apply Forall_alter; [exact H2|]. intros x _ Hx. simpl. lia.
    + intros x Hx _. rewrite list_lookup_alter in Hx.
      destruct (decide (p = p)); [|contradiction].
      rewrite Hu in Hx. injection Hx as <-. simpl. lia.
Qed.

Lemma libro_propagacion (p : nat) :
  preserva (conserva libro) (_simular_propagacion_error cinta p).
Proof.
  intros m k. apply wlp_Ok. intros [] m' k' Hrun [H1 H2].
  apply propagacion_Ok_inv in Hrun. destruct Hrun as (u & sel & _ & _ & _ & ->).
  split; proyectar.
  - rewrite suma_de_marcar by reflexivity. exact H1.
  - apply Forall_marcar; [|exact H2]. intros x Hx. exact Hx.
Qed.

Lemma libro_modificar_estado (e : Estado) (p : nat) :
  preserva (conserva libro) (modificar_usuario p (con_estado e)).
Proof. apply preserva_modificar. intros m H. apply libro_con_estado, H. Qed.

Lemma libro_interactuar (p : nat) : preserva (conserva libro) (interactuar cinta p).
Proof.
  unfold interactuar.
  apply preserva_bind; [apply _ | apply libro_simular_interaccion |].
  intros [|]; preservar.
  - apply libro_propagacion.
  - apply libro_modificar_estado.
Qed.

Lemma libro_etapa (c : M Modelo unit) : etapa cinta c -> preserva (conserva libro) c.
Proof.
  apply fases_etapa.
  - apply _.
  - intros p. apply libro_modificar_estado.
  - apply libro_interactuar.
  - intros a. apply capacidad_inocua. intros m x y H. exact H.
  - intros t. apply preserva_modificar. intros m H. exact H.
  - intros a c0. apply registro_inocuo; [apply _|]. intros m ms H. exact H.
  - apply libro_propagacion.
Qed.

(** X9.  The books of failures balance across every step of a run: if the
    responder's failure counter equals the sum of the agents' reported
    failures, and no agent has reported more failures than it has had
    interactions, then the same holds when the step returns; the failure
    counter is then at most the total number of interactions, so the
    failures per interaction that the perception formula uses lie in
    [0, 1]. *)
Theorem contabilidad_de_errores (c : M Modelo unit) (m m' : Modelo) (k k' : nat) :
  etapa cinta c ->
  c m k = Ok (tt, m', k') ->
  libro m ->
  libro m' /\
  0 <= errores_totales (chatbot m') <= suma_interacciones (usuarios m').
Proof.
  intros Hc Hrun Hm.
  pose proof (preserva_Ok _ _ _ _ _ _ _ (libro_etapa c Hc) Hrun Hm) as Hm'.
  split; [exact Hm'|]. destruct Hm' as [H1 H2].
  rewrite H1, suma_interacciones_suma_de. apply suma_de_le. exact H2.
Qed.

End Libro.

Lemma contabilidad_de_errores_witness :
  exists m' k',
    ejecutar_simulacion cinta_ejemplo modelo_ejemplo 0%nat = Ok (tt, m', k') /\
    errores_totales (chatbot m') <= suma_interacciones (usuarios m').
Proof.
  destruct (ejecutar_simulacion cinta_ejemplo modelo_ejemplo 0%nat)
    as [[[[] m'] k']|e] eqn:Hrun; [|vm_compute in Hrun; discriminate].
  exists m', k'. split; [reflexivity|].
  refine (proj2 (proj2 (contabilidad_de_errores cinta_ejemplo
                  (ejecutar_simulacion cinta_ejemplo) modelo_ejemplo m' 0%nat k'
                  (etapa_ejecutar cinta_ejemplo) Hrun _))).
  split; [reflexivity|]. simpl. repeat constructor; simpl; lia.
Defined.

(** ** The event log and the dormant pool *)

#[global] Instance eventos_por_inactivos_preorder : PreOrder eventos_por_inactivos.
Proof.
  split.
  - intros m. unfold eventos_por_inactivos. lia.
  - intros a b c. unfold eventos_por_inactivos. lia.
Qed.

Lemma contar_alter_le (f : Usuario -> Usuario) (p : nat) (us : list Usuario) :
  (forall u, estado (f u) = inactivo -> estado u = inactivo) ->
  contar inactivo (alter f p us) <= contar inactivo us.
Proof.
  intros Hf. revert p. induction us as [|u us IH]; intros [|p].
  - simpl. lia.
  - simpl. lia.
  - change (alter f 0%nat (u :: us)) with (f u :: us). rewrite !contar_cons.
    destruct (decide (estado (f u) = inactivo)) as [H|H].
    + apply Hf in H. destruct (decide (estado u = inactivo)); [lia | contradiction].
    + destruct (decide (estado u = inactivo)); lia.
  - change (alter f (S p) (u :: us)) with (u :: alter f p us). rewrite !contar_cons.
    specialize (IH p). lia.
Qed.

Lemma contar_evol (us us' : list Usuario) :
  Forall2 evol_usuario us us' -> contar inactivo us' <= contar inactivo us.
Proof.
  induction 1 as [|u u' us us' Hu _ IH].
  - lia.
  - rewrite !contar_cons. destruct Hu as (_ & _ & _ & _ & _ & Hest & _).
    destruct (decide (estado u' = inactivo)) as [H'|H'];
      destruct (decide (estado u = inactivo)) as [H|H]; try lia.
    exfalso. apply (Hest H). exact H'.
Qed.

Section Eventos.
Variable cinta : nat -> N.

Lemma eventos_modificar_estado (e : Estado) (p : nat) :
  e <> inactivo ->
  preserva eventos_por_inactivos (modificar_usuario p (con_estado e)).
Proof.
  intros He. apply preserva_modificar. intros m. unfold eventos_por_inactivos.
  proyectar.
  assert (H : contar inactivo (alter (con_estado e) p (usuarios m)) <=
              contar inactivo (usuarios m)).
  { apply contar_alter_le. intros u Hu. simpl in Hu. contradiction. }
  lia.
Qed.

Lemma eventos_simular_interaccion (p : nat) :
  preserva eventos_por_inactivos (_simular_interaccion_usuario cinta p).
Proof.
  intros m k. apply wlp_Ok. intros b m' k' Hrun.
  apply simular_interaccion_Ok_inv in Hrun.
  destruct Hrun as (u & Hu & _ & _ & _ & _ & Hev & Hcasos).
  unfold eventos_por_inactivos. rewrite Hev.
  assert (H : contar inactivo (usuarios m') <= contar inactivo (usuarios m)).
  { destruct Hcasos as [(_ & _ & _ & -> & _) | [(_ & _ & _ & -> & _) |
                         (_ & _ & _ & -> & _)]].
    - lia.
    - apply contar_alter_le. intros x Hx. exact Hx.
    - etransitivity; apply contar_alter_le; intros x Hx; exact Hx. }
  lia.
Qed.

Lemma eventos_propagacion (p : nat) (m m' : Modelo) (k k' : nat) :
  _simular_propagacion_error cinta p m k = Ok (tt, m', k') ->
  Z.of_nat (length (eventos_viralizacion m')) + contar inactivo (usuarios m') =
  Z.of_nat (length (eventos_viralizacion m)) + contar inactivo (usuarios m).
Proof.
  intros Hrun. apply propagacion_Ok_inv in Hrun.
  destruct Hrun as (u & sel & _ & Hsub & _ & ->).
  destruct (seleccion_inactiva _ _ Hsub) as [Hnd Hin].
  proyectar. rewrite (contar_marcar sel (usuarios m) Hnd Hin).
  rewrite length_app, length_map. lia.
Qed.

Lemma eventos_preserva_propagacion (p : nat) :
  preserva eventos_por_inactivos (_simular_propagacion_error cinta p).
Proof.
  intros m k. apply wlp_Ok. intros [] m' k' Hrun.
  apply eventos_propagacion in Hrun. unfold eventos_por_inactivos. lia.
Qed.

Lemma eventos_interactuar (p : nat) :
  preserva eventos_por_inactivos (interactuar cinta p).
Proof.
  unfold interactuar.
  apply preserva_bind; [apply _ | apply eventos_simular_interaccion |].
  intros [|]; preservar.
  - apply eventos_preserva_propagacion.
  - apply eventos_modificar_estado. discriminate.
Qed.

Lemma eventos_etapa (c : M Modelo unit) :
  etapa cinta c -> preserva eventos_por_inactivos c.
Proof.
  apply fases_etapa.
  - apply _.
  - intros p. apply eventos_modificar_estado. discriminate.
  - apply eventos_interactuar.
  - intros a. apply capacidad_inocua. intros m x y.
    unfold eventos_por_inactivos. proyectar. lia.
  - intros t. apply preserva_modificar. intros m.
    unfold eventos_por_inactivos. proyectar. lia.
  - intros a c0. apply registro_inocuo; [apply _|]. intros m ms.
    unfold eventos_por_inactivos. proyectar. lia.
  - apply eventos_preserva_propagacion.
Qed.

(** X10.  Across every step of a run, the event log grows by at most the
    number of agents that leave the dormant state: the length of the log
    plus the number of dormant agents never increases (a propagation keeps
    the sum; seeding, the network effect and reporting lower the dormant
    count without logging).  Hence a run that starts from an empty log
    ends with at most one event per agent. *)
Theorem eventos_acotados (c : M Modelo unit) (m m' : Modelo) (k k' : nat) :
  etapa cinta c ->
  c m k = Ok (tt, m', k') ->
  Z.of_nat (length (eventos_viralizacion m')) + contar inactivo (usuarios m') <=
    Z.of_nat (length (eventos_viralizacion m)) + contar inactivo (usuarios m) /\
  (eventos_viralizacion m = [] ->
   (length (eventos_viralizacion m') <= length (usuarios m'))%nat).
Proof.
  intros Hc Hrun.
  pose proof (preserva_Ok _ _ _ _ _ _ _ (eventos_etapa c Hc) Hrun) as H.
  pose proof (preserva_Ok _ _ _ _ _ _ _ (preserva_etapa cinta c Hc) Hrun) as Hev.
  split; [exact H|]. intros Hvacio.
  unfold eventos_por_inactivos in H. rewrite Hvacio in H. simpl in H.
  rewrite (evoluciona_length _ _ Hev).
  destruct (contar_cotas (usuarios m)) as (Ha & Hc1 & Hi & Hsum).
  destruct (contar_cotas (usuarios m')) as (_ & _ & Hi' & _).
  lia.
Qed.

End Eventos.

Lemma eventos_acotados_witness :
  exists m' k',
    ejecutar_simulacion cinta_ejemplo modelo_ejemplo 0%nat = Ok (tt, m', k') /\
    (length (eventos_viralizacion m') <= length (usuarios m'))%nat.
Proof.
  destruct (ejecutar_simulacion cinta_ejemplo modelo_ejemplo 0%nat)
    as [[[[] m'] k']|e] eqn:Hrun; [|vm_compute in Hrun; discriminate].
  exists m', k'. split; [reflexivity|].
  refine (proj2 (eventos_acotados cinta_ejemplo
                  (ejecutar_simulacion cinta_ejemplo) modelo_ejemplo m' 0%nat k'
                  (etapa_ejecutar cinta_ejemplo) Hrun) _).
  reflexivity.
Defined.

(** ** The seeding *)

Lemma para_cada_marcar (sel : list nat) (m : Modelo) (k : nat) :
  para_cada sel (fun p => modificar_usuario p (con_estado consciente)) m k =
    Ok (tt, con_usuarios (marcar sel (usuarios m)) m, k).
Proof.
  revert m. induction sel as [|p sel IH]; intros m; simpl.
  - unfold ret, marcar. simpl. rewrite con_usuarios_eta. reflexivity.
  - unfold bind, modificar_usuario at 1, modificar. rewrite IH. reflexivity.
Qed.

Lemma contar_marcar_cota (sel : list nat) (us : list Usuario) :
  NoDup sel ->
  (forall p, p ∈ sel -> (p < length us)%nat) ->
  contar inactivo (marcar sel us) + Z.of_nat (length sel) <= Z.of_nat (length us).
Proof.
  intros Hnd Hlt.
  pose proof (posiciones_con_estado_NoDup inactivo (marcar sel us)) as Hnd'.
  assert (Hsub : posiciones_con_estado inactivo (marcar sel us) ++ sel ⊆+
                 seq 0 (length us)).
  { apply NoDup_submseteq.
    - apply NoDup_app. split; [exact Hnd'|]. split; [|exact Hnd].
      intros p Hp Hsel. apply posiciones_con_estado_elem in Hp.
      destruct Hp as (v & Hv & Hest). rewrite marcar_lookup in Hv.
      destruct (decide (p ∈ sel)); [|contradiction].
      destruct (us !! p); [|discriminate]. injection Hv as <-. discriminate.
    - intros p Hp. apply elem_of_seq. apply elem_of_app in Hp.
      destruct Hp as [Hp|Hp].
      + apply posiciones_con_estado_elem in Hp. destruct Hp as (v & Hv & _).
        apply lookup_lt_Some in Hv. rewrite marcar_length in Hv. lia.
      + specialize (Hlt p Hp). lia. }
  apply submseteq_length in Hsub. rewrite length_app, length_seq in Hsub.
  unfold contar. lia.
Qed.

Section Siembra.
Variable cinta : nat -> N.

Lemma sembrar_inactivos (m m' : Modelo) (k k' : nat) :
  sembrar cinta m k = Ok (tt, m', k') ->
  contar inactivo (usuarios m') + Z.min 10 (Z.of_nat (length (usuarios m))) <=
    Z.of_nat (length (usuarios m)).
Proof.
  intros Hrun. unfold sembrar in Hrun.
  apply bind_Ok_inv in Hrun. destruct Hrun as (self & m0 & k0 & H0 & Hrun).
  unfold leer in H0. injection H0 as <- <- <-.
  apply bind_Ok_inv in Hrun. destruct Hrun as (sel & m0 & k0 & H0 & Hrun).
  apply sample_Ok_inv in H0. destruct H0 as (-> & -> & Hn & Hlen & Hsub).
  apply bind_Ok_inv in Hrun. destruct Hrun as ([] & m1 & k1 & H1 & Hrun).
  rewrite para_cada_marcar in H1. injection H1 as <- <-.
  assert (Hnd : NoDup sel).
  { eapply submseteq_NoDup; [exact Hsub | apply NoDup_seq]. }
  assert (Hlt : forall p, p ∈ sel -> (p < length (usuarios m))%nat).
  { intros p Hp. apply (elem_of_submseteq _ _ _ Hp) in Hsub.
    apply elem_of_seq in Hsub. lia. }
  pose proof (contar_marcar_cota sel (usuarios m) Hnd Hlt) as Hcota.
  assert (Hle : contar inactivo (usuarios m') <=
                contar inactivo (marcar sel (usuarios m))).
  { destruct sel as [|p sel].
    - unfold ret in Hrun. injection Hrun as <- <-. reflexivity.
    - assert (Hp : preserva avanza
                     (usuario_inicial <- choice cinta (p :: sel) ;
                      interactuar cinta usuario_inicial)).
      { preservar. apply preserva_interactuar. }
      pose proof (preserva_Ok _ _ _ _ _ _ _ Hp Hrun) as [(_ & _ & _ & Hus & _) _].
      apply contar_evol in Hus. exact Hus. }
  lia.
Qed.

(** X11.  The seeding of a run: whenever [ejecutar_simulacion] returns, at
    least [min(10, number of agents)] agents are aware or reporting at the
    end, whatever the generator drew; in particular a population of at most
    ten agents has no dormant agent left after a run. *)
Theorem siembra_minima (m m' : Modelo) (k k' : nat) :
  ejecutar_simulacion cinta m k = Ok (tt, m', k') ->
  Z.min 10 (Z.of_nat (length (usuarios m))) <=
    contar consciente (usuarios m') + contar activo (usuarios m') /\
  ((length (usuarios m) <= 10)%nat -> contar inactivo (usuarios m') = 0).
Proof.
  intros Hrun.
  pose proof (preserva_Ok _ _ _ _ _ _ _ (preserva_ejecutar_simulacion cinta) Hrun) as Hev.
  unfold ejecutar_simulacion in Hrun.
  apply bind_Ok_inv in Hrun. destruct Hrun as ([] & m1 & k1 & H1 & Hrun).
  apply bind_Ok_inv in Hrun. destruct Hrun as (self & m0 & k0 & H0 & Hrun).
  unfold leer in H0. injection H0 as <- <- <-.
  pose proof (sembrar_inactivos _ _ _ _ H1) as Hsem.
  pose proof (preserva_Ok _ _ _ _ _ _ _
                (preserva_para_cada evoluciona _ _ (preserva_paso cinta)) Hrun)
    as (_ & _ & _ & Hus & _).
  apply contar_evol in Hus.
  destruct (contar_cotas (usuarios m')) as (Ha & Hc & Hi & Hsum).
  rewrite (evoluciona_length _ _ Hev) in Hsum.
  split; [lia|]. intros Hdiez. lia.
Qed.

End Siembra.

Lemma siembra_minima_witness :
  exists m' k',
    ejecutar_simulacion cinta_ejemplo modelo_ejemplo 0%nat = Ok (tt, m', k') /\
    10 <= contar consciente (usuarios m') + contar activo (usuarios m').
Proof.
  destruct (ejecutar_simulacion cinta_ejemplo modelo_ejemplo 0%nat)
    as [[[[] m'] k']|e] eqn:Hrun; [|vm_compute in Hrun; discriminate].
  exists m', k'. split; [reflexivity|].
  exact (proj1 (siembra_minima cinta_ejemplo modelo_ejemplo m' 0%nat k' Hrun)).
Defined.

(** ** A responder that cannot fail *)

Lemma Forall2_compone {A} (P : A -> A -> Prop) (l1 l2 l3 : list A) :
  (forall x y z, P x y -> P y z -> P x z) ->
  Forall2 P l1 l2 -> Forall2 P l2 l3 -> Forall2 P l1 l3.
Proof.
  intros HP H. revert l3. induction H as [|x y l1 l2 Hxy _ IH]; intros l3 H3;
    inversion H3; subst; constructor; eauto.
Qed.

Lemma Forall2_igual {A} (P : A -> A -> Prop) (l : list A) :
  (forall x, P x x) -> Forall2 P l l.
Proof. intros HP. induction l; constructor; auto. Qed.

#[global] Instance sin_fallos_preorder : PreOrder sin_fallos.
Proof.
  split.
  - intros m _. repeat split; try reflexivity.
    apply Forall2_igual. auto.
  - intros a b c H1 H2 Ha.
    destruct (H1 Ha) as (P1 & E1 & V1 & U1).
    assert (Hb : (probabilidad_error (chatbot b) <= 0)%Q) by (rewrite P1; exact Ha).
    destruct (H2 Hb) as (P2 & E2 & V2 & U2).
    split; [congruence|]. split; [congruence|]. split; [congruence|].
    eapply Forall2_compone; [|exact U1|exact U2].
    simpl. intros x y z [A1 A2] [B1 B2]. split; [congruence | auto].
Qed.

Lemma sin_fallos_usuarios (m : Modelo) (f : Usuario -> Usuario) (p : nat) :
  (forall u, errores_reportados (f u) = errores_reportados u /\
             (estado (f u) = activo -> estado u = activo)) ->
  sin_fallos m (con_usuarios (alter f p (usuarios m)) m).
Proof.
  intros Hf _. proyectar. repeat split; try reflexivity.
  apply Forall2_same_length_lookup. split; [rewrite length_alter; reflexivity|].
  intros i x y Hx Hy. rewrite list_lookup_alter in Hy.
  destruct (decide (p = i)) as [->|_].
  - rewrite Hx in Hy. injection Hy as <-. apply Hf.
  - rewrite Hx in Hy. injection Hy as <-. auto.
Qed.

Section Infalible.
Variable cinta : nat -> N.

Lemma infalible_interactuar (p : nat) : preserva sin_fallos (interactuar cinta p).
Proof.
  intros m k. apply wlp_Ok. intros [] m' k' Hrun Hprob.
  unfold interactuar in Hrun.
  apply bind_Ok_inv in Hrun. destruct Hrun as (b & m1 & k1 & H1 & Hrun).
  apply simular_interaccion_Ok_inv in H1.
  destruct H1 as (u & Hu & _ & _ & _ & _ & Hev & Hcasos).
  destruct Hcasos as [(-> & _ & _ & Hus & Hcb) | [(-> & _ & _ & Hus & Hcb) |
                       (_ & _ & Hlt & _)]].
  - unfold ret in Hrun. injection Hrun as <- <-.
    rewrite Hus, Hcb, Hev. apply (reflexivity (R := sin_fallos) m Hprob).
  - unfold ret in Hrun. injection Hrun as <- <-.
    rewrite Hus, Hcb, Hev.
    apply (sin_fallos_usuarios m (registrar_interaccion (tiempo_actual m)) p);
      [|exact Hprob].
    intros x. simpl. auto.
  - destruct (unitario_rango (cinta (S k))) as [H0 _]. lra.
Qed.

Lemma infalible_ejecutar : preserva sin_fallos (ejecutar_simulacion cinta).
Proof.
  apply fases_ejecutar.
  - apply _.
  - intros p. apply preserva_modificar. intros m. apply sin_fallos_usuarios.
    intros u. simpl. split; [reflexivity | discriminate].
  - apply infalible_interactuar.
  - intros a. apply capacidad_inocua. intros m x y.
    apply (reflexivity (R := sin_fallos) m).
  - intros t. apply preserva_modificar. intros m.
    apply (reflexivity (R := sin_fallos) m).
  - intros a c. apply registro_inocuo; [apply _|]. intros m ms.
    apply (reflexivity (R := sin_fallos) m).
Qed.

(** X12.  In front of a responder whose failure probability is zero (or
    negative), a run that returns has generated no failure: the failure
    counter and the event log are what they were, every failure count the
    run records equals the initial counter, no agent has reported a
    failure, and only agents that were reporting before the run can be
    reporting after it. *)
Theorem responder_infalible (m m' : Modelo) (k k' : nat) :
  ejecutar_simulacion cinta m k = Ok (tt, m', k') ->
  (probabilidad_error (chatbot m) <= 0)%Q ->
  errores_totales (chatbot m') = errores_totales (chatbot m) /\
  eventos_viralizacion m' = eventos_viralizacion m /\
  (exists d,
     errores_generados (metricas m') = errores_generados (metricas m) ++ d /\
     Forall (fun x => x = errores_totales (chatbot m)) d) /\
  (forall i u', usuarios m' !! i = Some u' ->
     exists u, usuarios m !! i = Some u /\
       errores_reportados u' = errores_reportados u /\
       (estado u' = activo -> estado u = activo)).
Proof.
  intros Hrun Hprob.
  destruct (preserva_Ok _ _ _ _ _ _ _ infalible_ejecutar Hrun Hprob)
    as (_ & He & Hv & Hus).
  split; [exact He|]. split; [exact Hv|]. split.
  - unfold ejecutar_simulacion in Hrun.
    apply bind_Ok_inv in Hrun. destruct Hrun as ([] & m1 & k1 & H1 & Hrun).
    apply bind_Ok_inv in Hrun. destruct Hrun as (self & m0 & k0 & H0 & Hrun).
    unfold leer in H0. injection H0 as <- <- <-.
    pose proof (preserva_Ok _ _ _ _ _ _ _ (preserva_sembrar cinta) H1)
      as [(_ & _ & (_ & _ & _ & Hle1) & _) E1].
    destruct (pasos_errores_ordenados cinta _ _ _ _ _ Hrun)
      as (d & Hd & _ & _ & Hall).
    exists d. split; [rewrite Hd, E1; reflexivity|].
    eapply Forall_impl; [exact Hall|]. simpl. intros x Hx. lia.
  - intros i u' Hu'.
    destruct (Forall2_lookup_r _ _ _ _ _ Hus Hu') as (u & Hu & H1 & H2).
    exists u. auto.
Qed.

End Infalible.

Lemma responder_infalible_witness :
  exists m' k',
    ejecutar_simulacion cinta_ejemplo modelo_infalible 0%nat = Ok (tt, m', k') /\
    errores_totales (chatbot m') = 0 /\ eventos_viralizacion m' = [].
Proof.
  destruct (ejecutar_simulacion cinta_ejemplo modelo_infalible 0%nat)
    as [[[[] m'] k']|e] eqn:Hrun; [|vm_compute in Hrun; discriminate].
  exists m', k'. split; [reflexivity|].
  destruct (responder_infalible cinta_ejemplo modelo_infalible m' 0%nat k' Hrun)
    as (H1 & H2 & _); [simpl; lra|].
  auto.
Defined.

(** ** One interaction per agent and tick *)

Lemma mismo_historial_refl (u : Usuario) : mismo_historial u u.
Proof. repeat split. Qed.

Lemma mismo_historial_trans (u v w : Usuario) :
  mismo_historial u v -> mismo_historial v w -> mismo_historial u w.
Proof. intros (A1 & A2 & A3) (B1 & B2 & B3). repeat split; congruence. Qed.

#[global] Instance historial_intacto_preorder : PreOrder historial_intacto.
Proof.
  split.
  - intros m. split; [reflexivity|]. apply Forall2_igual, mismo_historial_refl.
  - intros a b c [T1 H1] [T2 H2]. split; [congruence|].
    eapply Forall2_compone; [exact mismo_historial_trans | exact H1 | exact H2].
Qed.

Lemma huella_despues (t : Z) (u v w : Usuario) :
  huella t u v -> mismo_historial v w -> huella t u w.
Proof.
  intros [H|(A1 & A2 & A3)] (B1 & B2 & B3).
  - left. apply (mismo_historial_trans u v w); [exact H | repeat split; assumption].
  - right. repeat split; try congruence; lia.
Qed.

Lemma huella_antes (t : Z) (u v w : Usuario) :
  mismo_historial u v -> huella t v w -> huella t u w.
Proof.
  intros (B1 & B2 & B3) [H|(A1 & A2 & A3)].
  - left. apply (mismo_historial_trans u v w); [repeat split; assumption | exact H].
  - right. repeat split; try congruence; lia.
Qed.

Lemma historial_alter_estado (e : Estado) (p : nat) (m : Modelo) :
  historial_intacto m (con_usuarios (alter (con_estado e) p (usuarios m)) m).
Proof.
  split; [reflexivity|]. proyectar.
  apply Forall2_same_length_lookup. split; [rewrite length_alter; reflexivity|].
  intros i x y Hx Hy. rewrite list_lookup_alter in Hy.
  destruct (decide (p = i)) as [->|_]; rewrite Hx in Hy; injection Hy as <-;
    repeat split.
Qed.

Lemma historial_marcar (sel : list nat) (us : list Usuario) :
  Forall2 mismo_historial us (marcar sel us).
Proof.
  apply Forall2_same_length_lookup. split; [rewrite marcar_length; reflexivity|].
  intros i x y Hx Hy. rewrite marcar_lookup, Hx in Hy.
  destruct (decide (i ∈ sel)); injection Hy as <-; repeat split.
Qed.

Lemma toca_nada (m : Modelo) : toca [] m m.
Proof.
  split; [reflexivity|]. split; [reflexivity|].
  intros i u u' Hu Hu'. rewrite Hu in Hu'. injection Hu' as <-.
  split; [intros _|left]; apply mismo_historial_refl.
Qed.

Lemma toca_intacto (m m' : Modelo) : historial_intacto m m' -> toca [] m m'.
Proof.
  intros [Ht H]. split; [exact Ht|]. split; [symmetry; eapply Forall2_length, H|].
  intros i u u' Hu Hu'.
  destruct (Forall2_lookup_l _ _ _ _ _ H Hu) as (v & Hv & Huv).
  rewrite Hu' in Hv. injection Hv as <-. split; [intros _; exact Huv | left; exact Huv].
Qed.

Lemma toca_componer (q : nat) (ps : list nat) (m m1 m' : Modelo) :
  q ∉ ps -> toca [q] m m1 -> toca ps m1 m' -> toca (q :: ps) m m'.
Proof.
  intros Hq (T1 & L1 & H1) (T2 & L2 & H2).
  split; [congruence|]. split; [congruence|].
  intros i u u' Hu Hu'.
  destruct (lookup_lt_is_Some_2 (usuarios m1) i) as [v Hv].
  { rewrite L1. eapply lookup_lt_Some. exact Hu. }
  destruct (H1 i u v Hu Hv) as [A1 A2]. destruct (H2 i v u' Hv Hu') as [B1 B2].
  rewrite T1 in B2. split.
  - intros Hi. apply not_elem_of_cons in Hi. destruct Hi as [Hne Hi].
    eapply mismo_historial_trans; [apply A1 | apply B1; exact Hi].
    intros Hin. apply list_elem_of_singleton in Hin. contradiction.
  - destruct (decide (i = q)) as [->|Hne].
    + eapply huella_despues; [exact A2 | apply B1; exact Hq].
    + eapply huella_antes; [apply A1 | exact B2].
      intros Hin. apply list_elem_of_singleton in Hin. contradiction.
Qed.

Lemma toca_despues (ps : list nat) (m m1 m' : Modelo) :
  toca ps m m1 -> historial_intacto m1 m' -> toca ps m m'.
Proof.
  intros (T1 & L1 & H1) [T2 H2].
  split; [congruence|].
  split; [rewrite <- L1; symmetry; eapply Forall2_length, H2|].
  intros i u u' Hu Hu'.
  destruct (Forall2_lookup_r _ _ _ _ _ H2 Hu') as (v & Hv & Hvu).
  destruct (H1 i u v Hu Hv) as [A1 A2]. split.
  - intros Hi. eapply mismo_historial_trans; [apply A1; exact Hi | exact Hvu].
  - eapply huella_despues; eassumption.
Qed.

Lemma toca_antes (ps : list nat) (m m1 m' : Modelo) :
  historial_intacto m m1 -> toca ps m1 m' -> toca ps m m'.
Proof.
  intros [T1 H1] (T2 & L2 & H2).
  split; [congruence|].
  split; [rewrite L2; symmetry; eapply Forall2_length, H1|].
  intros i u u' Hu Hu'.
  destruct (Forall2_lookup_l _ _ _ _ _ H1 Hu) as (v & Hv & Huv).
  destruct (H2 i v u' Hv Hu') as [A1 A2]. rewrite T1 in A2. split.
  - intros Hi. eapply mismo_historial_trans; [exact Huv | apply A1; exact Hi].
  - eapply huella_antes; eassumption.
Qed.

Lemma en_chatbot_Ok_inv {A} (c : M Chatbot A) (m m' : Modelo) (k k' : nat) (a : A) :
  en_chatbot c m k = Ok (a, m', k') ->
  exists cb, c (chatbot m) k = Ok (a, cb, k') /\ m' = con_chatbot cb m.
Proof.
  unfold en_chatbot. destruct (c (chatbot m) k) as [[[a0 cb] k0]|e]; [|discriminate].
  intros H. injection H as <- <- <-. exists cb. auto.
Qed.

Section Historial.
Variable cinta : nat -> N.

Lemma historial_modificar_estado (e : Estado) (p : nat) :
  preserva historial_intacto (modificar_usuario p (con_estado e)).
Proof. apply preserva_modificar. intros m. apply historial_alter_estado. Qed.

Lemma historial_propagacion (p : nat) :
  preserva historial_intacto (_simular_propagacion_error cinta p).
Proof.
  intros m k. apply wlp_Ok. intros [] m' k' Hrun.
  apply propagacion_Ok_inv in Hrun. destruct Hrun as (u & sel & _ & _ & _ & ->).
  split; [reflexivity|]. proyectar. apply historial_marcar.
Qed.

Lemma historial_fase_decaimiento :
  preserva historial_intacto (fase_decaimiento cinta).
Proof.
  apply fases_decaimiento; [apply _|].
  intros p. apply historial_modificar_estado.
Qed.

Lemma historial_fase_red (t a : Z) :
  preserva historial_intacto (fase_red cinta t a).
Proof.
  apply fases_red; [apply _|].
  intros p. apply historial_modificar_estado.
Qed.

Lemma historial_capacidad (a : Z) :
  preserva historial_intacto (en_chatbot (actualizar_capacidad a)).
Proof.
  apply capacidad_inocua. intros m x y.
  apply (reflexivity (R := historial_intacto) m).
Qed.

Lemma historial_registro (a c : Z) :
  preserva historial_intacto (registrar_metricas a c).
Proof.
  apply registro_inocuo; [apply _|]. intros m ms.
  apply (reflexivity (R := historial_intacto) m).
Qed.

Lemma toca_simular_interaccion (q : nat) (m m' : Modelo) (k k' : nat) (b : bool) :
  _simular_interaccion_usuario cinta q m k = Ok (b, m', k') ->
  toca [q] m m'.
Proof.
  intros Hrun. apply simular_interaccion_Ok_inv in Hrun.
  destruct Hrun as (u & Hu & _ & _ & Ht & _ & _ & Hcasos).
  split; [exact Ht|].
  destruct Hcasos as [(_ & _ & _ & Hus & _) | [(_ & _ & _ & Hus & _) |
                       (_ & _ & _ & Hus & _)]]; rewrite Hus.
  - split; [reflexivity|]. intros i x y Hx Hy. rewrite Hx in Hy. injection Hy as <-.
    split; [intros _|left]; apply mismo_historial_refl.
  - split; [apply length_alter|]. intros i x y Hx Hy.
    rewrite list_lookup_alter in Hy.
    destruct (decide (q = i)) as [->|Hne]; rewrite Hx in Hy; injection Hy as <-.
    + split.
      * intros Hi. exfalso. apply Hi. apply list_elem_of_singleton. reflexivity.
      * right. simpl. repeat split; lia.
    + split; [intros _|left]; apply mismo_historial_refl.
  - split; [rewrite !length_alter; reflexivity|]. intros i x y Hx Hy.
    destruct (decide (q = i)) as [->|Hne];
      [rewrite !list_lookup_alter_eq, Hx in Hy
      |rewrite !list_lookup_alter_ne, Hx in Hy by exact Hne];
      simpl in Hy; injection Hy as <-.
    + split.
      * intros Hi. exfalso. apply Hi. apply list_elem_of_singleton. reflexivity.
      * right. simpl. repeat split; lia.
    + split; [intros _|left]; apply mismo_historial_refl.
Qed.

Lemma toca_interactuar (q : nat) (m m' : Modelo) (k k' : nat) :
  interactuar cinta q m k = Ok (tt, m', k') -> toca [q] m m'.
Proof.
  intros Hrun. unfold interactuar in Hrun.
  apply bind_Ok_inv in Hrun. destruct Hrun as (b & m1 & k1 & H1 & Hrun).
  apply toca_simular_interaccion in H1.
  destruct b.
  - assert (Hp : preserva historial_intacto
                   (_simular_propagacion_error cinta q ;;
                    modificar_usuario q (con_estado activo))).
    { preservar; [apply historial_propagacion | apply historial_modificar_estado]. }
    eapply toca_despues; [exact H1|].
    exact (preserva_Ok _ _ _ _ _ _ _ Hp Hrun).
  - unfold ret in Hrun. injection Hrun as <- <-. exact H1.
Qed.

Lemma toca_para_cada (ps : list nat) (m m' : Modelo) (k k' : nat) :
  NoDup ps ->
  para_cada ps (interactuar cinta) m k = Ok (tt, m', k') ->
  toca ps m m'.
Proof.
  revert m k. induction ps as [|q ps IH]; intros m k Hnd Hrun; simpl in Hrun.
  - unfold ret in Hrun. injection Hrun as <- <-. apply toca_nada.
  - apply NoDup_cons in Hnd. destruct Hnd as [Hq Hnd].
    apply bind_Ok_inv in Hrun. destruct Hrun as ([] & m1 & k1 & H1 & Hrun).
    apply toca_componer with (m1 := m1); [exact Hq | |].
    + eapply toca_interactuar. exact H1.
    + eapply IH; eassumption.
Qed.

Lemma toca_paso (t : Z) (m m' : Modelo) (k k' : nat) :
  paso cinta t m k = Ok (tt, m', k') ->
  toca (posiciones_con_estado consciente (usuarios m)) (con_tiempo_actual t m) m'.
Proof.
  intros Hrun. unfold paso in Hrun.
  apply bind_Ok_inv in Hrun. destruct Hrun as ([] & m0 & k0 & H0 & Hrun).
  unfold modificar in H0. injection H0 as <- <-.
  apply bind_Ok_inv in Hrun. destruct Hrun as (self & m0 & k0 & H0 & Hrun).
  unfold leer in H0. injection H0 as <- <- <-.
  apply bind_Ok_inv in Hrun. destruct Hrun as ([] & m1 & k1 & H1 & Hrun).
  apply bind_Ok_inv in Hrun. destruct Hrun as ([] & m2 & k2 & H2 & Hrun).
  apply bind_Ok_inv in Hrun. destruct Hrun as ([] & m3 & k3 & H3 & Hrun).
  apply bind_Ok_inv in Hrun. destruct Hrun as ([] & m4 & k4 & H4 & Hreg).
  pose proof (preserva_Ok _ _ _ _ _ _ _ (historial_capacidad _) H1) as I1.
  pose proof (preserva_Ok _ _ _ _ _ _ _ historial_fase_decaimiento H3) as I3.
  pose proof (preserva_Ok _ _ _ _ _ _ _ (historial_fase_red _ _) H4) as I4.
  pose proof (preserva_Ok _ _ _ _ _ _ _ (historial_registro _ _) Hreg) as I5.
  assert (Hus1 : usuarios m1 = usuarios m).
  { apply en_chatbot_Ok_inv in H1. destruct H1 as (cb & _ & ->). reflexivity. }
  unfold fase_interacciones in H2.
  apply bind_Ok_inv in H2. destruct H2 as (self & m0 & k0 & H0 & H2).
  unfold leer in H0. injection H0 as <- <- <-.
  apply toca_para_cada in H2; [|apply posiciones_con_estado_NoDup].
  rewrite Hus1 in H2.
  eapply toca_antes; [exact I1|].
  eapply toca_despues; [exact H2|].
  etransitivity; [exact I3|]. etransitivity; [exact I4 | exact I5].
Qed.

End Historial.

Lemma choice_Ok_inv {St A} (cinta : nat -> N) (xs : list A) (s s' : St)
  (k k' : nat) (x : A) :
  choice cinta xs s k = Ok (x, s', k') -> s' = s /\ x ∈ xs.
Proof.
  unfold choice, bind, randbelow.
  destruct (xs !! _) as [y|] eqn:Hy; [|discriminate].
  unfold ret. intros H. injection H as <- <- <-.
  split; [reflexivity|]. eapply list_elem_of_lookup_2. exact Hy.
Qed.

Section Ritmo.
Variable cinta : nat -> N.

(** X13.  Within one tick an agent interacts at most once, and only if it
    was aware when the tick started: the loop runs over the list of aware
    agents taken before the first interaction, so an agent made aware
    during the tick (by a propagation) waits for the next tick, and a
    dormant or reporting agent keeps its counters.  An agent that did
    interact has its interaction counter increased by exactly one, the
    tick as the time of its last interaction, and at most one more
    reported failure. *)
Theorem una_interaccion_por_tick (t : Z) (m m' : Modelo) (k k' : nat)
  (i : nat) (u : Usuario) :
  paso cinta t m k = Ok (tt, m', k') ->
  usuarios m !! i = Some u ->
  exists u', usuarios m' !! i = Some u' /\
    huella t u u' /\
    (estado u <> consciente -> mismo_historial u u').
Proof.
  intros Hrun Hu. apply toca_paso in Hrun. destruct Hrun as (_ & Hlen & H).
  destruct (lookup_lt_is_Some_2 (usuarios m') i) as [u' Hu'].
  { rewrite Hlen. eapply lookup_lt_Some. exact Hu. }
  exists u'. split; [exact Hu'|].
  destruct (H i u u' Hu Hu') as [H1 H2]. split; [exact H2|].
  intros Hest. apply H1. intros Hin.
  apply posiciones_con_estado_elem in Hin. destruct Hin as (v & Hv & Hve).
  simpl in Hu. rewrite Hu in Hv. injection Hv as <-. contradiction.
Qed.

Lemma toca_cota (ps : list nat) (m m' : Modelo) :
  toca ps m m' -> cota_historial 1 m m'.
Proof.
  intros (_ & Hlen & H). split; [exact Hlen|].
  intros i u u' Hu Hu'. destruct (H i u u' Hu Hu') as [_ [(A1 & A2 & _)|(A1 & _ & A3)]]; lia.
Qed.

Lemma cota_componer (a b : Z) (m m1 m' : Modelo) :
  cota_historial a m m1 -> cota_historial b m1 m' -> cota_historial (a + b) m m'.
Proof.
  intros [L1 H1] [L2 H2]. split; [congruence|].
  intros i u u' Hu Hu'.
  destruct (lookup_lt_is_Some_2 (usuarios m1) i) as [v Hv].
  { rewrite L1. eapply lookup_lt_Some. exact Hu. }
  specialize (H1 i u v Hu Hv). specialize (H2 i v u' Hv Hu'). lia.
Qed.

Lemma pasos_cota (ts : list Z) (m m' : Modelo) (k k' : nat) :
  para_cada ts (paso cinta) m k = Ok (tt, m', k') ->
  cota_historial (Z.of_nat (length ts)) m m'.
Proof.
  revert m k. induction ts as [|t ts IH]; intros m k Hrun; simpl in Hrun.
  - unfold ret in Hrun. injection Hrun as <- <-. split; [reflexivity|].
    intros i u u' Hu Hu'. rewrite Hu in Hu'. injection Hu' as <-. simpl. lia.
  - apply bind_Ok_inv in Hrun. destruct Hrun as ([] & m1 & k1 & H1 & Hrun).
    apply toca_paso, toca_cota in H1. apply IH in Hrun.
    replace (Z.of_nat (length (t :: ts))) with (1 + Z.of_nat (length ts))
      by (simpl length; lia).
    exact (cota_componer 1 _ m m1 m' H1 Hrun).
Qed.

Lemma sembrar_cota (m m' : Modelo) (k k' : nat) :
  sembrar cinta m k = Ok (tt, m', k') -> cota_historial 1 m m'.
Proof.
  intros Hrun. unfold sembrar in Hrun.
  apply bind_Ok_inv in Hrun. destruct Hrun as (self & m0 & k0 & H0 & Hrun).
  unfold leer in H0. injection H0 as <- <- <-.
  apply bind_Ok_inv in Hrun. destruct Hrun as (sel & m0 & k0 & H0 & Hrun).
  apply sample_Ok_inv in H0. destruct H0 as (-> & -> & _).
  apply bind_Ok_inv in Hrun. destruct Hrun as ([] & m1 & k1 & H1 & Hrun).
  rewrite para_cada_marcar in H1. injection H1 as <- <-.
  assert (Hm : historial_intacto m (con_usuarios (marcar sel (usuarios m)) m)).
  { split; [reflexivity|]. apply historial_marcar. }
  destruct sel as [|p sel].
  - unfold ret in Hrun. injection Hrun as <- <-.
    eapply toca_cota, toca_intacto. exact Hm.
  - apply bind_Ok_inv in Hrun. destruct Hrun as (q & m2 & k2 & H2 & Hrun).
    apply choice_Ok_inv in H2. destruct H2 as (-> & _).
    apply toca_interactuar in Hrun.
    eapply toca_cota, toca_antes; [exact Hm | exact Hrun].
Qed.

(** X14.  Over a whole run an agent interacts at most once per tick, plus
    once more if the seeding picked it: its interaction counter grows by
    at most [max(0, tiempo_simulacion) + 1], and so does its count of
    reported failures. *)
Theorem interacciones_acotadas (m m' : Modelo) (k k' : nat) (i : nat) (u : Usuario) :
  ejecutar_simulacion cinta m k = Ok (tt, m', k') ->
  usuarios m !! i = Some u ->
  exists u', usuarios m' !! i = Some u' /\
    interacciones_totales u <= interacciones_totales u' <=
      interacciones_totales u + Z.max 0 (tiempo_simulacion m) + 1 /\
    errores_reportados u <= errores_reportados u' <=
      errores_reportados u + Z.max 0 (tiempo_simulacion m) + 1.
Proof.
  intros Hrun Hu. unfold ejecutar_simulacion in Hrun.
  apply bind_Ok_inv in Hrun. destruct Hrun as ([] & m1 & k1 & H1 & Hrun).
  apply bind_Ok_inv in Hrun. destruct Hrun as (self & m0 & k0 & H0 & Hrun).
  unfold leer in H0. injection H0 as <- <- <-.
  pose proof (preserva_Ok _ _ _ _ _ _ _ (preserva_sembrar cinta) H1)
    as [(_ & HT & _) _].
  apply sembrar_cota in H1. apply pasos_cota in Hrun.
  destruct (cota_componer _ _ _ _ _ H1 Hrun) as [Hlen H].
  destruct (lookup_lt_is_Some_2 (usuarios m') i) as [u' Hu'].
  { rewrite Hlen. eapply lookup_lt_Some. exact Hu. }
  exists u'. split; [exact Hu'|].
  specialize (H i u u' Hu Hu').
  unfold range in H. rewrite length_map, length_seq, HT in H. lia.
Qed.

End Ritmo.

Lemma una_interaccion_por_tick_witness :
  exists m' k' u',
    paso cinta_ejemplo 3 modelo_ejemplo 0%nat = Ok (tt, m', k') /\
    usuarios m' !! 5%nat = Some u' /\ interacciones_totales u' = 0.
Proof.
  destruct (paso cinta_ejemplo 3 modelo_ejemplo 0%nat)
    as [[[[] m'] k']|e] eqn:Hrun; [|vm_compute in Hrun; discriminate].
  destruct (una_interaccion_por_tick cinta_ejemplo 3 modelo_ejemplo m' 0%nat k' 5%nat
              (nuevo_usuario 5 normal 0.75 0.5 3.5) Hrun)
    as (u' & Hu' & _ & Hsame); [reflexivity|].
  exists m', k', u'. split; [reflexivity|]. split; [exact Hu'|].
  destruct Hsame as (H1 & _); [discriminate|]. exact H1.
Defined.

Lemma interacciones_acotadas_witness :
  exists m' k' u',
    ejecutar_simulacion cinta_ejemplo modelo_ejemplo 0%nat = Ok (tt, m', k') /\
    usuarios m' !! 0%nat = Some u' /\ interacciones_totales u' <= 7.
Proof.
  destruct (ejecutar_simulacion cinta_ejemplo modelo_ejemplo 0%nat)
    as [[[[] m'] k']|e] eqn:Hrun; [|vm_compute in Hrun; discriminate].
  destruct (interacciones_acotadas cinta_ejemplo modelo_ejemplo m' 0%nat k' 0%nat
              (con_estado consciente (nuevo_usuario 0 critico 0.75 0.5 3.5)) Hrun)
    as (u' & Hu' & H1 & _); [reflexivity|].
  exists m', k', u'. split; [reflexivity|]. split; [exact Hu'|].
  simpl in H1. lia.
Defined.

(** ** The tick an event carries *)

#[global] Instance sella_preorder : PreOrder sella.
Proof.
  split.
  - intros m. split; [reflexivity|]. exists []. rewrite app_nil_r.
    split; [reflexivity | constructor].
  - intros a b c (T1 & es1 & E1 & F1) (T2 & es2 & E2 & F2).
    split; [congruence|]. exists (es1 ++ es2).
    split; [rewrite E2, E1, app_assoc; reflexivity|].
    apply Forall_app. split; [exact F1|]. rewrite T1 in F2. exact F2.
Qed.

Lemma sella_mismo (m m' : Modelo) :
  tiempo_actual m' = tiempo_actual m ->
  eventos_viralizacion m' = eventos_viralizacion m ->
  sella m m'.
Proof.
  intros Ht He. split; [exact Ht|]. exists []. rewrite app_nil_r.
  split; [exact He | constructor].
Qed.

Section Sellos.
Variable cinta : nat -> N.

Lemma sella_modificar_usuario (p : nat) (f : Usuario -> Usuario) :
  preserva sella (modificar_usuario p f).
Proof. apply preserva_modificar. intros m. apply sella_mismo; reflexivity. Qed.

Lemma sella_propagacion (p : nat) :
  preserva sella (_simular_propagacion_error cinta p).
Proof.
  intros m k. apply wlp_Ok. intros [] m' k' Hrun.
  apply propagacion_Ok_inv in Hrun. destruct Hrun as (u & sel & _ & _ & _ & ->).
  split; [reflexivity|]. proyectar. eexists. split; [reflexivity|].
  apply Forall_forall. intros e He. apply list_elem_of_fmap in He.
  destruct He as (q & -> & _). reflexivity.
Qed.

Lemma sella_interactuar (p : nat) : preserva sella (interactuar cinta p).
Proof.
  unfold interactuar. apply preserva_bind; [apply _ | |].
  - intros m k. apply wlp_Ok. intros b m' k' Hrun.
    apply simular_interaccion_Ok_inv in Hrun.
    destruct Hrun as (u & _ & _ & _ & Ht & _ & He & _).
    apply sella_mismo; assumption.
  - intros [|]; preservar.
    + apply sella_propagacion.
    + apply sella_modificar_usuario.
Qed.

Lemma sella_sembrar : preserva sella (sembrar cinta).
Proof.
  apply fases_sembrar; [apply _ | |].
  - intros p. apply sella_modificar_usuario.
  - apply sella_interactuar.
Qed.

Lemma sella_paso (t : Z) (m m' : Modelo) (k k' : nat) :
  paso cinta t m k = Ok (tt, m', k') ->
  tiempo_actual m' = t /\
  exists es, eventos_viralizacion m' = eventos_viralizacion m ++ es /\
             Forall (fun e => tiempo e = t) es.
Proof.
  intros Hrun. unfold paso in Hrun.
  apply bind_Ok_inv in Hrun. destruct Hrun as ([] & m0 & k0 & H0 & Hrun).
  unfold modificar in H0. injection H0 as <- <-.
  assert (Hp : preserva sella
            (self <- leer ;
             en_chatbot (actualizar_capacidad (contar activo (usuarios self))) ;;
             fase_interacciones cinta ;;
             fase_decaimiento cinta ;;
             fase_red cinta t (contar activo (usuarios self)) ;;
             registrar_metricas (contar activo (usuarios self))
               (contar consciente (usuarios self)))).
  { preservar.
    - apply capacidad_inocua. intros m1 x y. apply sella_mismo; reflexivity.
    - apply fases_interacciones; [apply _ | apply sella_interactuar].
    - apply fases_decaimiento; [apply _|]. intros p. apply sella_modificar_usuario.
    - apply fases_red; [apply _|]. intros p. apply sella_modificar_usuario.
    - apply registro_inocuo; [apply _|]. intros m1 ms. apply sella_mismo; reflexivity. }
  exact (preserva_Ok _ _ _ _ _ _ _ Hp Hrun).
Qed.

Lemma sella_pasos (ts : list Z) (m m' : Modelo) (k k' : nat) :
  para_cada ts (paso cinta) m k = Ok (tt, m', k') ->
  tiempo_actual m' = default (tiempo_actual m) (last ts) /\
  exists es, eventos_viralizacion m' = eventos_viralizacion m ++ es /\
             Forall (fun e => tiempo e ∈ ts) es.
Proof.
  revert m k. induction ts as [|t ts IH]; intros m k Hrun; simpl in Hrun.
  - unfold ret in Hrun. injection Hrun as <- <-. split; [reflexivity|].
    exists []. rewrite app_nil_r. split; [reflexivity | constructor].
  - apply bind_Ok_inv in Hrun. destruct Hrun as ([] & m1 & k1 & H1 & Hrun).
    apply sella_paso in H1. destruct H1 as (T1 & es1 & E1 & F1).
    apply IH in Hrun. destruct Hrun as (T2 & es2 & E2 & F2). split.
    + rewrite T2, T1, last_cons. destruct (last ts); reflexivity.
    + exists (es1 ++ es2). split; [rewrite E2, E1, app_assoc; reflexivity|].
      apply Forall_app. split.
      * eapply Forall_impl; [exact F1|]. simpl. intros e ->. left.
      * eapply Forall_impl; [exact F2|]. simpl. intros e He. right. exact He.
Qed.

Lemma range_ultimo (n : Z) : 0 < n -> last (range n) = Some (n - 1).
Proof.
  intros Hn. rewrite last_lookup. unfold range.
  rewrite length_map, length_seq, lookup_map, lookup_seq_lt by lia.
  simpl. f_equal. lia.
Qed.

Lemma range_elem (n t : Z) : t ∈ range n -> 0 <= t < n.
Proof.
  intros Ht. apply list_elem_of_lookup_1 in Ht. destruct Ht as [j Hj].
  apply range_lookup in Hj. lia.
Qed.

Lemma corrida_pasos (ts : list Z) (m m' : Modelo) (k k' : nat) :
  para_cada ts (paso cinta) m k = Ok (tt, m', k') ->
  exists bloques,
    corrida cinta ts m k m' k' bloques /\
    eventos_viralizacion m' = eventos_viralizacion m ++ concat bloques /\
    Forall2 (fun t es => Forall (fun e => tiempo e = t) es) ts bloques.
Proof.
  revert m k. induction ts as [|t ts IH]; intros m k Hrun; simpl in Hrun.
  - unfold ret in Hrun. injection Hrun as <- <-. exists [].
    split; [constructor|]. split; [simpl; rewrite app_nil_r; reflexivity|].
    constructor.
  - apply bind_Ok_inv in Hrun. destruct Hrun as ([] & m1 & k1 & H1 & Hrun).
    destruct (sella_paso _ _ _ _ _ H1) as (T1 & es1 & E1 & F1).
    destruct (IH _ _ Hrun) as (bloques & Hc & E2 & F2).
    exists (es1 :: bloques). split; [econstructor; eassumption|]. split.
    + rewrite E2, E1, <- app_assoc. reflexivity.
    + constructor; assumption.
Qed.

(** X15.  Every event carries the number of the tick in which it was
    logged.  A tick [t], from whatever state it starts, first sets
    [tiempo_actual] to [t], and the events it appends to the log all carry
    [t]; the seeding does not move [tiempo_actual], and the events it
    appends carry the [tiempo_actual] the model had when the run started.
    A run that returns is the seeding followed by the ticks
    [0, ..., tiempo_simulacion - 1] in this order; the events it appends
    are the events of the seeding followed by one block per tick, the
    block at position [t] being what tick [t] logged and carrying [t].
    So when a run of [tiempo_simulacion > 0] ticks returns,
    [tiempo_actual] is [tiempo_simulacion - 1] (with no tick it is left as
    it was), and every event of the run carries a tick number between 0
    and [tiempo_simulacion - 1], or the initial [tiempo_actual] for an
    event of the seeding. *)
Theorem sellos_de_una_corrida (m m' : Modelo) (k k' : nat) :
  ejecutar_simulacion cinta m k = Ok (tt, m', k') ->
  (0 < tiempo_simulacion m -> tiempo_actual m' = tiempo_simulacion m - 1) /\
  (tiempo_simulacion m <= 0 -> tiempo_actual m' = tiempo_actual m) /\
  (exists es,
     eventos_viralizacion m' = eventos_viralizacion m ++ es /\
     Forall (fun e => tiempo e = tiempo_actual m \/
                      0 <= tiempo e < tiempo_simulacion m) es) /\
  (forall t m0 m1 j j1,
     paso cinta t m0 j = Ok (tt, m1, j1) ->
     tiempo_actual m1 = t /\
     exists es, eventos_viralizacion m1 = eventos_viralizacion m0 ++ es /\
                Forall (fun e => tiempo e = t) es) /\
  (exists m1 k1 es0 bloques,
     sembrar cinta m k = Ok (tt, m1, k1) /\
     tiempo_actual m1 = tiempo_actual m /\
     eventos_viralizacion m1 = eventos_viralizacion m ++ es0 /\
     Forall (fun e => tiempo e = tiempo_actual m) es0 /\
     corrida cinta (range (tiempo_simulacion m)) m1 k1 m' k' bloques /\
     eventos_viralizacion m' = eventos_viralizacion m ++ es0 ++ concat bloques /\
     Forall2 (fun t es => Forall (fun e => tiempo e = t) es)
       (range (tiempo_simulacion m)) bloques).
Proof.
  intros Hrun. unfold ejecutar_simulacion in Hrun.
  apply bind_Ok_inv in Hrun. destruct Hrun as ([] & m1 & k1 & H1 & Hrun).
  apply bind_Ok_inv in Hrun. destruct Hrun as (self & m0 & k0 & H0 & Hrun).
  unfold leer in H0. injection H0 as <- <- <-.
  pose proof (preserva_Ok _ _ _ _ _ _ _ (preserva_sembrar cinta) H1)
    as [(_ & HT & _) _].
  pose proof (preserva_Ok _ _ _ _ _ _ _ sella_sembrar H1) as (T1 & es1 & E1 & F1).
  pose proof (corrida_pasos _ _ _ _ _ Hrun) as (bloques & Hc & E3 & F3).
  apply sella_pasos in Hrun. destruct Hrun as (T2 & es2 & E2 & F2).
  rewrite HT in T2, F2, Hc, F3. split; [|split; [|split; [|split]]].
  - intros Hpos. rewrite T2, range_ultimo by exact Hpos. reflexivity.
  - intros Hneg. rewrite T2, <- T1. unfold range.
    replace (Z.to_nat (tiempo_simulacion m)) with 0%nat by lia. reflexivity.
  - exists (es1 ++ es2). split; [rewrite E2, E1, app_assoc; reflexivity|].
    apply Forall_app. split.
    + eapply Forall_impl; [exact F1|]. simpl. intros e He. left. exact He.
    + eapply Forall_impl; [exact F2|]. simpl. intros e He. right.
      apply range_elem. exact He.
  - intros t ma mb j j1. apply sella_paso.
  - exists m1, k1, es1, bloques.
    split; [exact H1|]. split; [exact T1|]. split; [exact E1|].
    split; [exact F1|]. split; [exact Hc|].
    split; [rewrite E3, E1, <- app_assoc; reflexivity | exact F3].
Qed.

End Sellos.

Lemma sellos_de_una_corrida_witness :
  exists m' k' es0 bloques,
    ejecutar_simulacion cinta_ejemplo modelo_ejemplo 0%nat = Ok (tt, m', k') /\
    tiempo_actual m' = 5 /\
    eventos_viralizacion m' = es0 ++ concat bloques /\
    length bloques = 6%nat /\
    Forall (fun e => tiempo e = 0) es0 /\
    forall t es, bloques !! t = Some es -> Forall (fun e => tiempo e = Z.of_nat t) es.
Proof.
  destruct (ejecutar_simulacion cinta_ejemplo modelo_ejemplo 0%nat)
    as [[[[] m'] k']|e] eqn:Hrun; [|vm_compute in Hrun; discriminate].
  destruct (sellos_de_una_corrida cinta_ejemplo modelo_ejemplo m' 0%nat k' Hrun)
    as (Hfin & _ & _ & _ & (m1 & k1 & es0 & bloques & _ & _ & _ & F0 & _ & E & F)).
  exists m', k', es0, bloques. split; [reflexivity|].
  split; [apply Hfin; reflexivity|]. split; [exact E|].
  split; [rewrite <- (Forall2_length _ _ _ F); reflexivity|].
  split; [exact F0|].
  intros t es Ht.
  destruct (Forall2_lookup_r _ _ _ _ _ F Ht) as (x & Hx & Hes).
  apply range_lookup in Hx. destruct Hx as [-> _]. exact Hes.
Defined.

(** ** The decay phase *)

Lemma posiciones_cons_length (e : Estado) (u : Usuario) (us : list Usuario) :
  length (posiciones_con_estado e (u :: us)) =
    ((if decide (estado u = e) then 1 else 0) + length (posiciones_con_estado e us))%nat.
Proof.
  unfold posiciones_con_estado. simpl.
  destruct (decide (estado u = e)); simpl;
    rewrite (posiciones_desde_length e us 1 0); reflexivity.
Qed.

Section Decaimiento.
Variable cinta : nat -> N.

Lemma decaidos_length (k : nat) (us : list Usuario) :
  length (decaidos cinta k us) = length us.
Proof.
  revert k. induction us as [|u us IH]; intros k; simpl; [reflexivity|].
  destruct (decide (estado u = activo)); simpl; rewrite IH; reflexivity.
Qed.

Lemma decaidos_lookup (k : nat) (us : list Usuario) (i : nat) (u : Usuario) :
  us !! i = Some u ->
  decaidos cinta k us !! i =
    Some (if decide (estado u = activo)
          then if Qltb (unitario
                          (cinta (k + length (posiciones_con_estado activo (take i us)))%nat))
                       0.1
               then con_estado consciente u else u
          else u).
Proof.
  revert k i. induction us as [|v us IH]; intros k [|i] Hi; try discriminate.
  - simpl in Hi. injection Hi as ->. simpl.
    destruct (decide (estado u = activo)); [|reflexivity].
    simpl. rewrite Nat.add_0_r. reflexivity.
  - simpl in Hi. change (take (S i) (v :: us)) with (v :: take i us).
    rewrite posiciones_cons_length. simpl decaidos.
    destruct (decide (estado v = activo)); simpl lookup.
    + rewrite (IH (S k) i Hi).
      replace (S k + length (posiciones_con_estado activo (take i us)))%nat
        with (k + (1 + length (posiciones_con_estado activo (take i us))))%nat by lia.
      reflexivity.
    + rewrite (IH k i Hi). reflexivity.
Qed.

Lemma decaer_bucle (suf pre : list Usuario) (m : Modelo) (k : nat) :
  usuarios m = pre ++ suf ->
  para_cada (seq (length pre) (length suf)) (decaer cinta) m k =
    Ok (tt, con_usuarios (pre ++ decaidos cinta k suf) m,
        (k + length (posiciones_con_estado activo suf))%nat).
Proof.
  revert pre m k. induction suf as [|u suf IH]; intros pre m k Hus.
  - simpl. unfold ret. rewrite app_nil_r in *. rewrite <- Hus, con_usuarios_eta.
    rewrite Nat.add_0_r. reflexivity.
  - assert (Hu : usuarios m !! length pre = Some u).
    { rewrite Hus. apply list_lookup_middle. reflexivity. }
    simpl seq. simpl para_cada. unfold bind at 1.
    rewrite posiciones_cons_length.
    assert (Hsig : forall (v : Usuario) (m1 : Modelo) (k1 : nat),
              usuarios m1 = pre ++ v :: suf ->
              con_usuarios (usuarios m1) m = m1 ->
              para_cada (seq (S (length pre)) (length suf)) (decaer cinta) m1 k1 =
                Ok (tt, con_usuarios (pre ++ v :: decaidos cinta k1 suf) m,
                    (k1 + length (posiciones_con_estado activo suf))%nat)).
    { intros v m1 k1 Hus1 Hm1.
      replace (S (length pre)) with (length (pre ++ [v]))
        by (rewrite length_app; simpl; lia).
      rewrite (IH (pre ++ [v]) m1 k1) by (rewrite Hus1, <- app_assoc; reflexivity).
      rewrite <- app_assoc. simpl. rewrite <- Hm1. reflexivity. }
    unfold decaer at 1, bind at 1, leer_usuario. rewrite Hu.
    simpl decaidos.
    destruct (decide (estado u = activo)) as [Hact|Hact].
    + unfold bind at 1. rewrite random_Ok.
      destruct (Qltb (unitario (cinta k)) 0.1).
      * unfold modificar_usuario, modificar.
        rewrite (Hsig (con_estado consciente u)).
        -- f_equal. f_equal. lia.
        -- proyectar. rewrite Hus.
           replace (length pre) with (length pre + 0)%nat at 1 by lia.
           rewrite alter_app_r. reflexivity.
        -- reflexivity.
      * unfold ret. rewrite (Hsig u m (S k) Hus (con_usuarios_eta m)).
        f_equal. f_equal. lia.
    + unfold ret. rewrite (Hsig u m k Hus (con_usuarios_eta m)). reflexivity.
Qed.

(** X16.  The decay phase returns from every state, and it is the
    following pass over the population in list order: a reporting agent
    takes one draw and becomes aware when the draw is below 0.1, any other
    agent takes no draw and is left as it is.  The phase consumes exactly
    one draw per agent that was reporting at its start, the [j]-th
    reporting agent using the [j]-th draw. *)
Theorem decaimiento_spec (m : Modelo) (k : nat) :
  fase_decaimiento cinta m k =
    Ok (tt, con_usuarios (decaidos cinta k (usuarios m)) m,
        (k + length (posiciones_con_estado activo (usuarios m)))%nat) /\
  length (decaidos cinta k (usuarios m)) = length (usuarios m) /\
  forall i u, usuarios m !! i = Some u ->
    decaidos cinta k (usuarios m) !! i =
      Some (if decide (estado u = activo)
            then if Qltb (unitario
                            (cinta (k + length (posiciones_con_estado activo
                                                  (take i (usuarios m))))%nat))
                         0.1
                 then con_estado consciente u else u
            else u).
Proof.
  split; [|split].
  - unfold fase_decaimiento, bind, leer.
    exact (decaer_bucle (usuarios m) [] m k eq_refl).
  - apply decaidos_length.
  - intros i u. apply decaidos_lookup.
Qed.

End Decaimiento.

(** ** The table of [analizar_escenarios] *)

Lemma max_lista_Z_elem (xs : list Z) (x : Z) : max_lista_Z xs = Some x -> x ∈ xs.
Proof.
  destruct xs as [|a xs]; [discriminate|]. simpl. intros H. injection H as <-.
  assert (Hgen : forall ys b, fold_left (fun a b => if a <? b then b else a) ys b ∈ b :: ys).
  { induction ys as [|y ys IH]; intros b; simpl; [left|].
    destruct (b <? y).
    - right. apply IH.
    - specialize (IH b). apply elem_of_cons in IH. destruct IH as [->|IH].
      + left.
      + right. right. exact IH. }
  apply Hgen.
Qed.

Lemma max_lista_Q_elem (xs : list Q) (x : Q) : max_lista_Q xs = Some x -> x ∈ xs.
Proof.
  destruct xs as [|a xs]; [discriminate|]. simpl. intros H. injection H as <-.
  assert (Hgen : forall ys b, fold_left (fun a b => if Qltb a b then b else a) ys b ∈ b :: ys).
  { induction ys as [|y ys IH]; intros b; simpl; [left|].
    destruct (Qltb b y).
    - right. apply IH.
    - specialize (IH b). apply elem_of_cons in IH. destruct IH as [->|IH].
      + left.
      + right. right. exact IH. }
  apply Hgen.
Qed.

Lemma resumir_en_rango (m m' : Modelo) (k k' : nat) (r : Resumen) :
  series_en_rango m ->
  resumir m k = Ok (r, m', k') ->
  resumen_en_rango (length (usuarios m)) r.
Proof.
  intros (_ & Ha & Hc & He & Hp) Hrun. apply resumir_Ok_inv in Hrun.
  destruct Hrun as (_ & _ & H1 & H2 & H3 & H4).
  apply max_lista_Z_elem in H1. apply max_lista_Q_elem in H2.
  apply last_Some_elem_of in H3. apply last_Some_elem_of in H4.
  unfold resumen_en_rango.
  split; [exact (proj1 (Forall_forall _ _) Ha _ H1)|].
  split; [exact (proj1 (Forall_forall _ _) Hc _ H2)|].
  split; [exact (proj1 (Forall_forall _ _) He _ H3)|].
  exact (proj1 (Forall_forall _ _) Hp _ H4).
Qed.

Section Tabla.
Variable cinta : nat -> N.

Lemma paso_en_rango (t : Z) (m m' : Modelo) (k k' : nat) :
  0 < capacidad_maxima (chatbot m) ->
  series_en_rango m ->
  paso cinta t m k = Ok (tt, m', k') ->
  series_en_rango m'.
Proof.
  intros Hcap (He & Ha & Hc & Hg & Hp) Hrun.
  pose proof (preserva_Ok _ _ _ _ _ _ _ (preserva_paso cinta t) Hrun) as Hev.
  pose proof (evoluciona_length _ _ Hev) as Hlen.
  destruct Hev as (_ & _ & (_ & _ & _ & Hle) & _).
  destruct (paso_registro cinta t m m' k k' Hrun)
    as (carga & resp & perc & Hms & (A1 & A2 & A3 & _ & _ & A6 & A7)).
  unfold series_en_rango. rewrite Hms, Hlen. simpl.
  split; [lia|].
  split; [apply Forall_app; split; [exact Ha | repeat constructor; lia]|].
  split; [apply Forall_app; split; [exact Hc | repeat constructor; apply A6, Hcap]|].
  split; [apply Forall_app; split; [exact Hg | repeat constructor; lia]|].
  apply Forall_app; split; [exact Hp | repeat constructor; apply A7].
Qed.

Lemma pasos_en_rango (ts : list Z) (m m' : Modelo) (k k' : nat) :
  0 < capacidad_maxima (chatbot m) ->
  series_en_rango m ->
  para_cada ts (paso cinta) m k = Ok (tt, m', k') ->
  series_en_rango m'.
Proof.
  revert m k. induction ts as [|t ts IH]; intros m k Hcap Hm Hrun; simpl in Hrun.
  - unfold ret in Hrun. injection Hrun as <- <-. exact Hm.
  - apply bind_Ok_inv in Hrun. destruct Hrun as ([] & m1 & k1 & H1 & Hrun).
    pose proof (preserva_Ok _ _ _ _ _ _ _ (preserva_paso cinta t) H1)
      as (_ & _ & (Hc1 & _) & _).
    eapply IH; [|eapply paso_en_rango; eassumption|exact Hrun].
    rewrite Hc1. exact Hcap.
Qed.

Lemma ejecutar_en_rango (m m' : Modelo) (k k' : nat) :
  0 < capacidad_maxima (chatbot m) ->
  series_en_rango m ->
  ejecutar_simulacion cinta m k = Ok (tt, m', k') ->
  series_en_rango m'.
Proof.
  intros Hcap (He & Hm) Hrun. unfold ejecutar_simulacion in Hrun.
  apply bind_Ok_inv in Hrun. destruct Hrun as ([] & m1 & k1 & H1 & Hrun).
  apply bind_Ok_inv in Hrun. destruct Hrun as (self & m0 & k0 & H0 & Hrun).
  unfold leer in H0. injection H0 as <- <- <-.
  pose proof (preserva_Ok _ _ _ _ _ _ _ (preserva_sembrar cinta) H1) as [Hev E1].
  pose proof (evoluciona_length _ _ Hev) as Hlen.
  destruct Hev as (_ & _ & (Hc1 & _ & _ & Hle) & _).
  eapply pasos_en_rango; [| |exact Hrun].
  - rewrite Hc1. exact Hcap.
  - unfold series_en_rango. rewrite E1, Hlen. split; [lia | exact Hm].
Qed.

Lemma tabla_de (escs : list Escenario) (m m' : Modelo) (k k' : nat)
  (res : list (string * Resumen)) :
  0 < capacidad_maxima (chatbot m) ->
  series_en_rango m ->
  analizar_escenarios_de cinta escs m k = Ok (res, m', k') ->
  Forall (fun par => resumen_en_rango (length (usuarios m)) (snd par)) res.
Proof.
  revert m k res. induction escs as [|config escs IH]; intros m k res Hcap Hm Hrun;
    simpl in Hrun.
  - unfold ret in Hrun. injection Hrun as <- <- <-. constructor.
  - apply bind_Ok_inv in Hrun. destruct Hrun as ([] & m0 & k0 & H0 & Hrun).
    apply bind_Ok_inv in Hrun. destruct Hrun as ([] & m1 & k1 & H1 & Hrun).
    apply bind_Ok_inv in Hrun. destruct Hrun as (resumen & m2 & k2 & H2 & Hrun).
    apply bind_Ok_inv in Hrun. destruct Hrun as ([] & m3 & k3 & H3 & Hrun).
    apply bind_Ok_inv in Hrun. destruct Hrun as (resto & m4 & k4 & H4 & Hrun).
    unfold ret in Hrun. injection Hrun as <- <- <-.
    rewrite configurar_Ok in H0. injection H0 as <- <-.
    pose proof (preserva_Ok _ _ _ _ _ _ _ (preserva_ejecutar_simulacion cinta) H1) as Hev.
    pose proof (evoluciona_length _ _ Hev) as Hlen.
    destruct Hev as (_ & _ & (Hc1 & _) & _).
    simpl in Hlen, Hc1. rewrite length_map in Hlen.
    apply ejecutar_en_rango in H1.
    2:{ simpl. exact Hcap. }
    2:{ destruct Hm as (He & Ha & Hm). unfold series_en_rango. simpl.
        rewrite length_map. auto. }
    pose proof (resumir_en_rango _ _ _ _ _ H1 H2) as Hr.
    apply resumir_Ok_inv in H2. destruct H2 as (-> & -> & _).
    rewrite resetear_Ok in H3. injection H3 as <- <-.
    constructor.
    + simpl. rewrite Hlen in Hr. exact Hr.
    + apply IH in H4.
      * simpl in H4. rewrite length_map, Hlen in H4. exact H4.
      * simpl. rewrite Hc1. exact Hcap.
      * unfold series_en_rango. simpl. repeat split; try constructor; lia.
Qed.

(** X17.  Every row of the table [analizar_escenarios] returns holds
    plausible values, for a responder of positive capacity and a model
    whose recorded series do (an empty history in particular): the peak
    number of reporting agents lies between 0 and the population size, the
    peak load and the final perception lie in [0, 1], and the final number
    of failures is not negative. *)
Theorem tabla_en_rango (m m' : Modelo) (k k' : nat) (res : list (string * Resumen)) :
  0 < capacidad_maxima (chatbot m) ->
  series_en_rango m ->
  analizar_escenarios cinta m k = Ok (res, m', k') ->
  map fst res = map nombre escenarios /\
  Forall (fun par => resumen_en_rango (length (usuarios m)) (snd par)) res.
Proof.
  intros Hcap Hm Hrun. split.
  - exact (proj1 (analizar_influencia cinta escenarios m m' k k' res Hrun)).
  - exact (tabla_de escenarios m m' k k' res Hcap Hm Hrun).
Qed.

End Tabla.

Lemma tabla_en_rango_witness :
  exists res m' k',
    analizar_escenarios cinta_ejemplo modelo_ejemplo 0%nat = Ok (res, m', k') /\
    Forall (fun par => resumen_en_rango 12 (snd par)) res.
Proof.
  destruct (analizar_escenarios cinta_ejemplo modelo_ejemplo 0%nat)
    as [[[res m'] k']|e] eqn:Hrun; [|vm_compute in Hrun; discriminate].
  exists res, m', k'. split; [reflexivity|].
  refine (proj2 (tabla_en_rango cinta_ejemplo modelo_ejemplo m' 0%nat k' res _ _ Hrun)).
  - simpl. lia.
  - unfold series_en_rango. simpl. repeat split; try constructor; lia.
Defined.
